(** * Braille display driver (BRAILLE_CONFIG.h / BRAILLE_CONFIG.cpp)

    A shallow embedding of the [BrailleDisplay] class of the Braille
    Writing Tutor firmware, and the properties of its text encoder, its
    actuator scheduler and its shift-register serializer.

    Conventions of the embedding.
    - [uint8_t] and [unsigned long] values are integers of [Z]; the places
      where the C++ code computes in a fixed width are wrapped with [u8]
      and [u32] ([unsigned long] is 32 bits wide on the Arduino targets).
    - The three arrays of the class are lists, read with stdpp's lookup and
      written with [alter] / insert at [Z.to_nat] of the C++ index.
    - [millis()] is the explicit argument [now] of every operation that
      reads the clock; the readings taken inside one call that contains no
      [delay()] are the same value.  [delay(n)] advances the clock by [n].
    - [Serial] printing and pin configuration are not part of the state;
      the bytes handed to [shiftOut] are logged in [shiftedOut]. *)

From Stdlib Require Import ZArith Lia Bool Ascii String.
From stdpp Require Import base list strings.

Local Open Scope Z_scope.

(** ** Configuration constants (BRAILLE_CONFIG.h) *)

Definition NUM_BRAILLE_CELLS : Z := 10.
Definition DOTS_PER_CELL : Z := 6.
Definition TOTAL_DOTS : Z := NUM_BRAILLE_CELLS * DOTS_PER_CELL.
Definition OUTPUTS_PER_DOT : Z := 2.
Definition TOTAL_OUTPUTS : Z := TOTAL_DOTS * OUTPUTS_PER_DOT.
Definition NUM_SHIFT_REGISTERS : Z := (TOTAL_OUTPUTS + 7) / 8.

Definition DOT_DIRECTION_UP : Z := 0.
Definition DOT_DIRECTION_DOWN : Z := 1.

Definition ACTUATOR_PULSE_TIME : Z := 100.
Definition ACTUATOR_SETTLE_TIME : Z := 50.

Definition BRAILLE_CAPITAL_SIGN : Z := 0x20.
Definition BRAILLE_NUMBER_SIGN : Z := 0x3C.
Definition BRAILLE_SPACE : Z := 0x00.

(** ** Machine integers *)

Definition u8 (x : Z) : Z := x mod 256.
Definition u32 (x : Z) : Z := x mod 2 ^ 32.

Definition is_u8 (x : Z) : Prop := 0 <= x < 256.
Definition is_u32 (x : Z) : Prop := 0 <= x < 2 ^ 32.

(** ** Pattern tables (BRAILLE_CONFIG.cpp) *)

Definition BRAILLE_ALPHABET : list Z :=
  [ 0x01; 0x03; 0x09; 0x19; 0x11; 0x0B; 0x1B; 0x13; 0x0A; 0x1A;
    0x05; 0x07; 0x0D; 0x1D; 0x15; 0x0F; 0x1F; 0x17; 0x0E; 0x1E;
    0x25; 0x27; 0x3A; 0x2D; 0x3D; 0x35 ].

Definition BRAILLE_NUMBERS : list Z :=
  [ 0x1A; 0x01; 0x03; 0x09; 0x19; 0x11; 0x0B; 0x1B; 0x13; 0x0A ].

Definition BRAILLE_PUNCTUATION : list Z :=
  [ 0x00; 0x16; 0x04; 0x30; 0x32; 0x0C; 0x26; 0x06;
    0x12; 0x23; 0x1C; 0x2C; 0x18; 0x2E; 0x2A; 0x24 ].

(** [tbl[i]] for an index the code keeps inside the table. *)
Definition table_get (tbl : list Z) (i : Z) : Z :=
  default 0 (tbl !! Z.to_nat i).

(** ** Data model *)

Module Cell.
Record t := mk {
  pattern : Z;
  currentState : Z;
  isActive : bool;
  updateTime : Z;
  needsUpdate : bool
}.
End Cell.

Module Dot.
Record t := mk {
  targetState : bool;
  currentState : bool;
  actionTime : Z;
  actionPending : bool
}.

Definition set_targetState (v : bool) (d : t) : t :=
  mk v (currentState d) (actionTime d) (actionPending d).
Definition set_currentState (v : bool) (d : t) : t :=
  mk (targetState d) v (actionTime d) (actionPending d).
Definition set_actionTime (v : Z) (d : t) : t :=
  mk (targetState d) (currentState d) v (actionPending d).
Definition set_actionPending (v : bool) (d : t) : t :=
  mk (targetState d) (currentState d) (actionTime d) v.
End Dot.

Abbreviation BrailleCell := Cell.t.
Abbreviation DotState := Dot.t.

Record BrailleDisplay := mkDisplay {
  cells : list BrailleCell;
  dotStates : list DotState;
  shiftRegisterData : list Z;
  displayEnabled : bool;
  lastUpdateTime : Z;
  shiftedOut : list (list Z)
}.

Definition with_cells (f : list BrailleCell -> list BrailleCell)
    (s : BrailleDisplay) : BrailleDisplay :=
  mkDisplay (f (cells s)) (dotStates s) (shiftRegisterData s)
            (displayEnabled s) (lastUpdateTime s) (shiftedOut s).

Definition with_dotStates (f : list DotState -> list DotState)
    (s : BrailleDisplay) : BrailleDisplay :=
  mkDisplay (cells s) (f (dotStates s)) (shiftRegisterData s)
            (displayEnabled s) (lastUpdateTime s) (shiftedOut s).

Definition with_shiftRegisterData (f : list Z -> list Z)
    (s : BrailleDisplay) : BrailleDisplay :=
  mkDisplay (cells s) (dotStates s) (f (shiftRegisterData s))
            (displayEnabled s) (lastUpdateTime s) (shiftedOut s).

Definition with_displayEnabled (b : bool) (s : BrailleDisplay) : BrailleDisplay :=
  mkDisplay (cells s) (dotStates s) (shiftRegisterData s)
            b (lastUpdateTime s) (shiftedOut s).

Definition blank_cell (t : Z) (upd : bool) : BrailleCell :=
  Cell.mk 0 0 false t upd.

Definition idle_dot : DotState := Dot.mk false false 0 false.

(** Reading an array element; the code only reads inside the arrays. *)
Definition cell_at (s : BrailleDisplay) (i : Z) : BrailleCell :=
  default (blank_cell 0 false) (cells s !! Z.to_nat i).

Definition dot_at (s : BrailleDisplay) (i : Z) : DotState :=
  default idle_dot (dotStates s !! Z.to_nat i).

(** ** Free utility functions *)

Definition isValidBrailleCell (cellIndex : Z) : bool :=
  cellIndex <? NUM_BRAILLE_CELLS.

(** [if (pattern & m) mirrored |= v]. *)
Definition mirror_step (pattern m v mirrored : Z) : Z :=
  if Z.land pattern m =? 0 then mirrored else Z.lor mirrored v.

Definition mirrorBraillePattern (pattern : Z) : Z :=
  let mirrored := 0 in
  let mirrored := mirror_step pattern 0x01 0x08 mirrored in
  let mirrored := mirror_step pattern 0x02 0x10 mirrored in
  let mirrored := mirror_step pattern 0x04 0x20 mirrored in
  let mirrored := mirror_step pattern 0x08 0x01 mirrored in
  let mirrored := mirror_step pattern 0x10 0x02 mirrored in
  let mirrored := mirror_step pattern 0x20 0x04 mirrored in
  mirrored.

(** ** Encoder: one character *)

Definition code (c : ascii) : Z := Z.of_N (N_of_ascii c).

Definition in_range (lo hi c : ascii) : bool :=
  (code lo <=? code c) && (code c <=? code hi).

Definition is_lower (c : ascii) : bool := in_range "a" "z" c.
Definition is_upper (c : ascii) : bool := in_range "A" "Z" c.
Definition is_digit (c : ascii) : bool := in_range "0" "9" c.

Definition charToBraille (c : ascii) : Z :=
  if is_lower c then table_get BRAILLE_ALPHABET (code c - code "a")
  else if is_upper c then table_get BRAILLE_ALPHABET (code c - code "A")
  else if is_digit c then table_get BRAILLE_NUMBERS (code c - code "0")
  else if code c =? code " " then BRAILLE_SPACE
  else if code c =? code "!" then table_get BRAILLE_PUNCTUATION 1
  else if code c =? code "'" then table_get BRAILLE_PUNCTUATION 2
  else if code c =? code "-" then table_get BRAILLE_PUNCTUATION 3
  else if code c =? code "." then table_get BRAILLE_PUNCTUATION 4
  else if code c =? code "," then table_get BRAILLE_PUNCTUATION 5
  else if code c =? code "?" then table_get BRAILLE_PUNCTUATION 6
  else if code c =? code ";" then table_get BRAILLE_PUNCTUATION 7
  else if code c =? code ":" then table_get BRAILLE_PUNCTUATION 8
  else 0.

(** ** Output serializer *)

Definition getDotOutputIndex (dotIndex direction : Z) : Z :=
  u8 (dotIndex * OUTPUTS_PER_DOT + direction).

Definition clearShiftRegisters (s : BrailleDisplay) : BrailleDisplay :=
  with_shiftRegisterData
    (fun regs =>
       fold_left (fun regs i => <[i := 0]> regs)
                 (seq 0 (Z.to_nat NUM_SHIFT_REGISTERS)) regs) s.

(** [reg |= (1 << bit)] and [reg &= ~(1 << bit)] on a [uint8_t]. *)
Definition write_bit (state : bool) (bitIndex : Z) (reg : Z) : Z :=
  if state then u8 (Z.lor reg (Z.shiftl 1 bitIndex))
  else u8 (Z.land reg (Z.lnot (Z.shiftl 1 bitIndex))).

Definition setShiftRegisterBit (s : BrailleDisplay) (outputIndex : Z)
    (state : bool) : BrailleDisplay :=
  if TOTAL_OUTPUTS <=? outputIndex then s
  else
    let registerIndex := u8 (outputIndex / 8) in
    let bitIndex := u8 (outputIndex mod 8) in
    if registerIndex <? NUM_SHIFT_REGISTERS then
      with_shiftRegisterData
        (alter (write_bit state bitIndex) (Z.to_nat registerIndex)) s
    else s.

(** The body of the loop of [updateShiftRegisters] for one dot. *)
Definition updateShiftRegisters_dot (s : BrailleDisplay) (dotIndex : nat)
    : BrailleDisplay :=
  let dotState := Dot.currentState (dot_at s (Z.of_nat dotIndex)) in
  let upOutputIndex := getDotOutputIndex (Z.of_nat dotIndex) DOT_DIRECTION_UP in
  let downOutputIndex := getDotOutputIndex (Z.of_nat dotIndex) DOT_DIRECTION_DOWN in
  if dotState then
    setShiftRegisterBit (setShiftRegisterBit s upOutputIndex true)
                        downOutputIndex false
  else
    setShiftRegisterBit (setShiftRegisterBit s upOutputIndex false)
                        downOutputIndex true.

Definition updateShiftRegisters (s : BrailleDisplay) : BrailleDisplay :=
  fold_left updateShiftRegisters_dot (seq 0 (Z.to_nat TOTAL_DOTS))
            (clearShiftRegisters s).

(** [refresh]: the registers are shifted out last register first. *)
Definition refresh (s : BrailleDisplay) (now : Z) : BrailleDisplay :=
  if negb (displayEnabled s) then s
  else
    mkDisplay (cells s) (dotStates s) (shiftRegisterData s)
              (displayEnabled s) now
              (rev (shiftRegisterData s) :: shiftedOut s).

(** Observation of one output bit of the buffer, as the shift registers
    present it: bit [outputIndex mod 8] of register [outputIndex / 8]. *)
Definition output_bit (s : BrailleDisplay) (outputIndex : Z) : bool :=
  Z.testbit (default 0 (shiftRegisterData s !! Z.to_nat (outputIndex / 8)))
            (outputIndex mod 8).

(** ** Actuator scheduler *)

Definition setDotState (s : BrailleDisplay) (now : Z) (dotIndex : Z)
    (state immediate : bool) : BrailleDisplay :=
  if TOTAL_DOTS <=? dotIndex then s
  else
    let i := Z.to_nat dotIndex in
    let s := with_dotStates (alter (Dot.set_targetState state) i) s in
    if immediate then
      let s := with_dotStates (alter (Dot.set_currentState state) i) s in
      let s := with_dotStates (alter (Dot.set_actionTime now) i) s in
      let s := with_dotStates (alter (Dot.set_actionPending false) i) s in
      refresh (updateShiftRegisters s) now
    else
      let s := with_dotStates
                 (alter (Dot.set_actionTime (u32 (now + ACTUATOR_SETTLE_TIME))) i) s in
      with_dotStates (alter (Dot.set_actionPending true) i) s.

(** The body of the loop of [processPendingActions] for dot [i]; the
    boolean is [updateNeeded]. *)
Definition processPendingActions_dot (currentTime : Z)
    (acc : BrailleDisplay * bool) (i : nat) : BrailleDisplay * bool :=
  let '(s, updateNeeded) := acc in
  let d := dot_at s (Z.of_nat i) in
  if Dot.actionPending d && (Dot.actionTime d <=? currentTime) then
    let s := with_dotStates (alter (Dot.set_currentState (Dot.targetState d)) i) s in
    let s := with_dotStates (alter (Dot.set_actionPending false) i) s in
    (s, true)
  else (s, updateNeeded).

Definition processPendingActions (s : BrailleDisplay) (now : Z) : BrailleDisplay :=
  let currentTime := now in
  let '(s, updateNeeded) :=
    fold_left (processPendingActions_dot currentTime)
              (seq 0 (Z.to_nat TOTAL_DOTS)) (s, false) in
  if updateNeeded then
    let s := updateShiftRegisters s in
    if displayEnabled s then refresh s now else s
  else s.

Definition update (s : BrailleDisplay) (now : Z) : BrailleDisplay :=
  processPendingActions s now.

Definition raiseDot (s : BrailleDisplay) (now cellIndex dotIndex : Z) : BrailleDisplay :=
  if (NUM_BRAILLE_CELLS <=? cellIndex) || (DOTS_PER_CELL <=? dotIndex) then s
  else
    let absoluteDotIndex := u8 (cellIndex * DOTS_PER_CELL + dotIndex) in
    setDotState s now absoluteDotIndex true false.

Definition lowerDot (s : BrailleDisplay) (now cellIndex dotIndex : Z) : BrailleDisplay :=
  if (NUM_BRAILLE_CELLS <=? cellIndex) || (DOTS_PER_CELL <=? dotIndex) then s
  else
    let absoluteDotIndex := u8 (cellIndex * DOTS_PER_CELL + dotIndex) in
    setDotState s now absoluteDotIndex false false.

Definition raiseDotImmediate (s : BrailleDisplay) (now cellIndex dotIndex : Z)
    : BrailleDisplay :=
  if (NUM_BRAILLE_CELLS <=? cellIndex) || (DOTS_PER_CELL <=? dotIndex) then s
  else
    let absoluteDotIndex := u8 (cellIndex * DOTS_PER_CELL + dotIndex) in
    setDotState s now absoluteDotIndex true true.

Definition lowerDotImmediate (s : BrailleDisplay) (now cellIndex dotIndex : Z)
    : BrailleDisplay :=
  if (NUM_BRAILLE_CELLS <=? cellIndex) || (DOTS_PER_CELL <=? dotIndex) then s
  else
    let absoluteDotIndex := u8 (cellIndex * DOTS_PER_CELL + dotIndex) in
    setDotState s now absoluteDotIndex false true.

(** ** Display controller *)

(** The constructor.  The global instance has static storage, so the
    arrays start zeroed before the constructor fills them. *)
Definition BrailleDisplay_new : BrailleDisplay :=
  let s := mkDisplay (replicate (Z.to_nat NUM_BRAILLE_CELLS) (blank_cell 0 false))
                     (replicate (Z.to_nat TOTAL_DOTS) idle_dot)
                     (replicate (Z.to_nat NUM_SHIFT_REGISTERS) 0)
                     false 0 [] in
  let s := with_cells
             (fun cs => fold_left (fun cs i => <[i := blank_cell 0 false]> cs)
                                  (seq 0 (Z.to_nat NUM_BRAILLE_CELLS)) cs) s in
  let s := with_dotStates
             (fun ds => fold_left (fun ds i => <[i := idle_dot]> ds)
                                  (seq 0 (Z.to_nat TOTAL_DOTS)) ds) s in
  clearShiftRegisters s.

Definition enable (s : BrailleDisplay) (now : Z) : BrailleDisplay :=
  refresh (with_displayEnabled true s) now.

Definition disable (s : BrailleDisplay) : BrailleDisplay :=
  with_displayEnabled false s.

Definition clearDisplay (s : BrailleDisplay) (now : Z) : BrailleDisplay :=
  let s := with_cells
             (fun cs => fold_left (fun cs i => <[i := blank_cell now true]> cs)
                                  (seq 0 (Z.to_nat NUM_BRAILLE_CELLS)) cs) s in
  let s := fold_left (fun s i => setDotState s now (Z.of_nat i) false false)
                     (seq 0 (Z.to_nat TOTAL_DOTS)) s in
  let s := clearShiftRegisters s in
  if displayEnabled s then refresh s now else s.

Definition begin (s : BrailleDisplay) (now : Z) : BrailleDisplay :=
  clearDisplay s now.

(** [setCellPattern], with the clock reading [now] seen while the cell and
    its dots are written and the reading [now'] seen by the closing
    [processPendingActions]. *)
Definition setCellPattern_timed (s : BrailleDisplay) (now now' : Z)
    (cellIndex pattern : Z) : BrailleDisplay :=
  if negb (isValidBrailleCell cellIndex) then s
  else
    let i := Z.to_nat cellIndex in
    let s := with_cells
               (alter (fun c => Cell.mk (Z.land pattern 0x3F) (Cell.currentState c)
                                        (negb (pattern =? 0)) now true) i) s in
    let s := fold_left
               (fun s dot =>
                  let absoluteDotIndex := u8 (cellIndex * DOTS_PER_CELL + Z.of_nat dot) in
                  let dotShouldBeUp :=
                    negb (Z.land pattern (Z.shiftl 1 (Z.of_nat dot)) =? 0) in
                  setDotState s now absoluteDotIndex dotShouldBeUp false)
               (seq 0 (Z.to_nat DOTS_PER_CELL)) s in
    let s := with_cells
               (alter (fun c => Cell.mk (Cell.pattern c) pattern (Cell.isActive c)
                                        (Cell.updateTime c) (Cell.needsUpdate c)) i) s in
    if displayEnabled s then processPendingActions s now' else s.

Definition setCellPattern (s : BrailleDisplay) (now : Z) (cellIndex pattern : Z)
    : BrailleDisplay :=
  setCellPattern_timed s now now cellIndex pattern.

Definition getCellPattern (s : BrailleDisplay) (cellIndex : Z) : Z :=
  if negb (isValidBrailleCell cellIndex) then 0
  else Cell.pattern (cell_at s cellIndex).

Definition getCurrentCellState (s : BrailleDisplay) (cellIndex : Z) : Z :=
  if negb (isValidBrailleCell cellIndex) then 0
  else Cell.currentState (cell_at s cellIndex).

Definition isEnabled (s : BrailleDisplay) : bool := displayEnabled s.

Definition displayChar (s : BrailleDisplay) (now : Z) (c : ascii) (cellIndex : Z)
    : BrailleDisplay :=
  if negb (isValidBrailleCell cellIndex) then s
  else
    let pattern := charToBraille c in
    setCellPattern s now cellIndex pattern.

Definition displayMirroredPattern (s : BrailleDisplay) (now : Z)
    (cellIndex pattern : Z) : BrailleDisplay :=
  let mirroredPattern := mirrorBraillePattern pattern in
  setCellPattern s now cellIndex mirroredPattern.

(** ** Encoder: text *)

(** [if (cellIndex < NUM_BRAILLE_CELLS) setCellPattern(cellIndex++, p)]. *)
Definition emit (now : Z) (acc : BrailleDisplay * Z) (p : Z) : BrailleDisplay * Z :=
  let '(s, cellIndex) := acc in
  if cellIndex <? NUM_BRAILLE_CELLS then
    (setCellPattern s now cellIndex p, u8 (cellIndex + 1))
  else (s, cellIndex).

(** The [while] loop of [displayText] on the characters from [textIndex]
    on.  The loop ends at the terminating NUL, which is the end of the
    string or a zero character in it.  [textIndex] itself is not kept: every
    iteration advances [cellIndex], so the loop runs at most
    [NUM_BRAILLE_CELLS] times and the 8-bit counter never wraps. *)
Fixpoint displayText_loop (now : Z) (text : string) (s : BrailleDisplay)
    (cellIndex : Z) (numberMode : bool) : BrailleDisplay * Z :=
  match text with
  | EmptyString => (s, cellIndex)
  | String c rest =>
    if (code c =? 0) || negb (cellIndex <? NUM_BRAILLE_CELLS) then (s, cellIndex)
    else if is_digit c then
      let '(s, cellIndex, numberMode) :=
        if negb numberMode then
          if cellIndex <? NUM_BRAILLE_CELLS then
            (setCellPattern s now cellIndex BRAILLE_NUMBER_SIGN,
             u8 (cellIndex + 1), true)
          else (s, cellIndex, numberMode)
        else (s, cellIndex, numberMode) in
      let '(s, cellIndex) :=
        emit now (s, cellIndex) (table_get BRAILLE_NUMBERS (code c - code "0")) in
      displayText_loop now rest s cellIndex numberMode
    else if is_upper c then
      let acc := emit now (s, cellIndex) BRAILLE_CAPITAL_SIGN in
      let '(s, cellIndex) :=
        emit now acc (table_get BRAILLE_ALPHABET (code c - code "A")) in
      displayText_loop now rest s cellIndex false
    else if is_lower c then
      let '(s, cellIndex) :=
        emit now (s, cellIndex) (table_get BRAILLE_ALPHABET (code c - code "a")) in
      displayText_loop now rest s cellIndex false
    else if code c =? code " " then
      let '(s, cellIndex) := emit now (s, cellIndex) BRAILLE_SPACE in
      displayText_loop now rest s cellIndex false
    else
      let pattern := charToBraille c in
      let '(s, cellIndex) := emit now (s, cellIndex) pattern in
      displayText_loop now rest s cellIndex false
  end.

(** [displayText]; [text = None] is the null pointer.  The second
    component is the final [cellIndex], from which the code prints the
    number of cells used, [cellIndex - startCell]. *)
Definition displayText_run (s : BrailleDisplay) (now : Z) (text : option string)
    (startCell : Z) : BrailleDisplay * Z :=
  match text with
  | None => (s, startCell)
  | Some text =>
    if NUM_BRAILLE_CELLS <=? startCell then (s, startCell)
    else
      let s := clearDisplay s now in
      displayText_loop now text s startCell false
  end.

Definition displayText (s : BrailleDisplay) (now : Z) (text : option string)
    (startCell : Z) : BrailleDisplay :=
  fst (displayText_run s now text startCell).

Definition displayMirroredText (s : BrailleDisplay) (now : Z) (text : option string)
    (startCell : Z) : BrailleDisplay :=
  let s := displayText s now text startCell in
  let s := fold_left
             (fun s i =>
                if Cell.isActive (cell_at s (Z.of_nat i)) then
                  with_cells
                    (alter (fun c => Cell.mk (mirrorBraillePattern (Cell.pattern c))
                                             (Cell.currentState c) (Cell.isActive c)
                                             (Cell.updateTime c) (Cell.needsUpdate c)) i) s
                else s)
             (seq (Z.to_nat startCell)
                  (Z.to_nat NUM_BRAILLE_CELLS - Z.to_nat startCell)) s in
  let s := updateShiftRegisters s in
  if displayEnabled s then refresh s now else s.

(** ** Self-test routines

    These contain [delay()] calls, so they thread the clock: the pair is
    the display and the current reading of [millis()]. *)

Definition delay (ms : Z) (w : BrailleDisplay * Z) : BrailleDisplay * Z :=
  (fst w, u32 (snd w + ms)).

Definition testAllDots (s : BrailleDisplay) (now : Z) : BrailleDisplay * Z :=
  let s := clearDisplay s now in
  let s := enable s now in
  fold_left
    (fun w cell =>
       let w := fold_left
                  (fun w dot =>
                     let w := (setCellPattern (fst w) (snd w) (Z.of_nat cell)
                                              (u8 (Z.shiftl 1 (Z.of_nat dot))), snd w) in
                     delay 200 w)
                  (seq 0 (Z.to_nat DOTS_PER_CELL)) w in
       (setCellPattern (fst w) (snd w) (Z.of_nat cell) 0, snd w))
    (seq 0 (Z.to_nat NUM_BRAILLE_CELLS)) (s, now).

Definition testPatterns : list Z := [0x01; 0x03; 0x07; 0x0F; 0x1F; 0x3F].

Definition testSequential (s : BrailleDisplay) (now : Z) : BrailleDisplay * Z :=
  let s := clearDisplay s now in
  let s := enable s now in
  fold_left
    (fun w i =>
       let w := fold_left
                  (fun w cell =>
                     let w := (setCellPattern (fst w) (snd w) (Z.of_nat cell)
                                              (table_get testPatterns (Z.of_nat i)), snd w) in
                     delay 100 w)
                  (seq 0 (Z.to_nat NUM_BRAILLE_CELLS)) w in
       let w := delay 500 w in
       (clearDisplay (fst w) (snd w), snd w))
    (seq 0 6) (s, now).

Definition testPattern (s : BrailleDisplay) (now : Z) (pattern : Z)
    : BrailleDisplay * Z :=
  let s := clearDisplay s now in
  let s := enable s now in
  let s := fold_left (fun s cell => setCellPattern s now (Z.of_nat cell) pattern)
                     (seq 0 (Z.to_nat NUM_BRAILLE_CELLS)) s in
  let w := delay 2000 (s, now) in
  (clearDisplay (fst w) (snd w), snd w).

Definition testBidirectional (s : BrailleDisplay) (now : Z) : BrailleDisplay * Z :=
  let s := clearDisplay s now in
  let s := enable s now in
  fold_left
    (fun w cell =>
       fold_left
         (fun w dot =>
            let w := (raiseDotImmediate (fst w) (snd w) (Z.of_nat cell) (Z.of_nat dot),
                      snd w) in
            let w := delay 500 w in
            let w := (lowerDotImmediate (fst w) (snd w) (Z.of_nat cell) (Z.of_nat dot),
                      snd w) in
            delay 500 w)
         (seq 0 (Z.to_nat DOTS_PER_CELL)) w)
    (seq 0 (Z.to_nat (Z.min NUM_BRAILLE_CELLS 3))) (s, now).

(** ** Public interface and reachable states *)

Inductive Op : Type :=
| OpBegin
| OpEnable
| OpDisable
| OpClearDisplay
| OpSetCellPattern (cellIndex pattern : Z)
| OpDisplayText (text : option string) (startCell : Z)
| OpDisplayChar (c : ascii) (cellIndex : Z)
| OpRaiseDot (cellIndex dotIndex : Z)
| OpLowerDot (cellIndex dotIndex : Z)
| OpRaiseDotImmediate (cellIndex dotIndex : Z)
| OpLowerDotImmediate (cellIndex dotIndex : Z)
| OpDisplayMirroredPattern (cellIndex pattern : Z)
| OpDisplayMirroredText (text : option string) (startCell : Z)
| OpRefresh
| OpUpdate
| OpTestAllDots
| OpTestSequential
| OpTestPattern (pattern : Z)
| OpTestBidirectional.

(** The arguments of a call are [uint8_t] values. *)
Definition op_args_ok (o : Op) : Prop :=
  match o with
  | OpSetCellPattern a b | OpRaiseDot a b | OpLowerDot a b
  | OpRaiseDotImmediate a b | OpLowerDotImmediate a b
  | OpDisplayMirroredPattern a b => is_u8 a /\ is_u8 b
  | OpDisplayText _ a | OpDisplayChar _ a | OpDisplayMirroredText _ a
  | OpTestPattern a => is_u8 a
  | _ => True
  end.

Definition run_op (s : BrailleDisplay) (now : Z) (o : Op) : BrailleDisplay :=
  match o with
  | OpBegin => begin s now
  | OpEnable => enable s now
  | OpDisable => disable s
  | OpClearDisplay => clearDisplay s now
  | OpSetCellPattern i p => setCellPattern s now i p
  | OpDisplayText text startCell => displayText s now text startCell
  | OpDisplayChar c i => displayChar s now c i
  | OpRaiseDot c d => raiseDot s now c d
  | OpLowerDot c d => lowerDot s now c d
  | OpRaiseDotImmediate c d => raiseDotImmediate s now c d
  | OpLowerDotImmediate c d => lowerDotImmediate s now c d
  | OpDisplayMirroredPattern i p => displayMirroredPattern s now i p
  | OpDisplayMirroredText text startCell => displayMirroredText s now text startCell
  | OpRefresh => refresh s now
  | OpUpdate => update s now
  | OpTestAllDots => fst (testAllDots s now)
  | OpTestSequential => fst (testSequential s now)
  | OpTestPattern p => fst (testPattern s now p)
  | OpTestBidirectional => fst (testBidirectional s now)
  end.

(** The states the display can be in: the constructed one, and the result
    of any public call, made at any clock reading, on a reachable state. *)
Inductive reachable : BrailleDisplay -> Prop :=
| reachable_new : reachable BrailleDisplay_new
| reachable_op s now o :
    reachable s -> is_u32 now -> op_args_ok o -> reachable (run_op s now o).

(** Shape of the three arrays. *)
Definition wf (s : BrailleDisplay) : Prop :=
  length (cells s) = Z.to_nat NUM_BRAILLE_CELLS /\
  length (dotStates s) = Z.to_nat TOTAL_DOTS /\
  length (shiftRegisterData s) = Z.to_nat NUM_SHIFT_REGISTERS.

(** ** Per-element views of the loops

    What the deferred branch of [setDotState] and one iteration of
    [processPendingActions] do to the array element they touch. *)

Definition schedule (now : Z) (state : bool) (d : DotState) : DotState :=
  Dot.set_actionPending true
    (Dot.set_actionTime (u32 (now + ACTUATOR_SETTLE_TIME))
       (Dot.set_targetState state d)).

Definition is_due (now : Z) (d : DotState) : bool :=
  Dot.actionPending d && (Dot.actionTime d <=? now).

Definition commit_due (now : Z) (d : DotState) : DotState :=
  if is_due now d then
    Dot.set_actionPending false (Dot.set_currentState (Dot.targetState d) d)
  else d.

Definition set_immediate (now : Z) (state : bool) (d : DotState) : DotState :=
  Dot.set_actionPending false
    (Dot.set_actionTime now
       (Dot.set_currentState state (Dot.set_targetState state d))).

(** The target of dot [dot] of a cell under [pattern], as [setCellPattern]
    computes it: [(pattern & (1 << dot)) != 0]. *)
Definition dotShouldBeUp (pattern : Z) (dot : nat) : bool :=
  negb (Z.land pattern (Z.shiftl 1 (Z.of_nat dot)) =? 0).

(** What [setCellPattern] leaves in the cell it writes. *)
Definition written_cell (now pattern : Z) : BrailleCell :=
  Cell.mk (Z.land pattern 0x3F) pattern (negb (pattern =? 0)) now true.

(** ** Example states *)

(** A display whose dot 0 has a raise scheduled at time 0. *)
Definition example_pending : BrailleDisplay :=
  setDotState BrailleDisplay_new 0 0 true false.

(** The constructed display, enabled at time 0. *)
Definition example_enabled : BrailleDisplay := enable BrailleDisplay_new 0.

(** ** The text encoding as the specification words it

    Section 4.1 of the specification: entering a run of digits (the
    previous character is not a digit) puts a NUMBER-SIGN cell before the
    first digit of the run; every uppercase letter is preceded by its own
    CAPITAL-SIGN cell; every character then contributes the cell of its
    pattern.  These definitions follow that wording, not the code. *)

Definition prev_is_digit (prev : option ascii) : bool :=
  match prev with
  | Some c => is_digit c
  | None => false
  end.

Definition spec_prefix (prev : option ascii) (c : ascii) : list Z :=
  if is_digit c then
    if prev_is_digit prev then [] else [BRAILLE_NUMBER_SIGN]
  else if is_upper c then [BRAILLE_CAPITAL_SIGN]
  else [].

Definition spec_unit (prev : option ascii) (c : ascii) : list Z :=
  spec_prefix prev c ++ [charToBraille c].

Fixpoint spec_encodeText (prev : option ascii) (text : string) : list Z :=
  match text with
  | EmptyString => []
  | String c rest => spec_unit prev c ++ spec_encodeText (Some c) rest
  end.

(** The characters of a C string: those before the first NUL. *)
Fixpoint c_string (text : string) : string :=
  match text with
  | EmptyString => EmptyString
  | String c rest => if code c =? 0 then EmptyString else String c (c_string rest)
  end.

(** The stored patterns of the ten cells. *)
Definition patterns (s : BrailleDisplay) : list Z := Cell.pattern <$> cells s.

(** Writing the values [out] into consecutive slots from [i] on; what
    falls beyond the end of the array is dropped. *)
Fixpoint write_from (i : nat) (out : list Z) (l : list Z) : list Z :=
  match out with
  | [] => l
  | x :: out => write_from (S i) out (<[i := x]> l)
  end.

(** The physical state the scheduler holds for each dot. *)
Definition levels (s : BrailleDisplay) : list bool :=
  Dot.currentState <$> dotStates s.

(** The ten cell indices, and a character given by its code. *)
Definition all_cells : list Z := [0; 1; 2; 3; 4; 5; 6; 7; 8; 9].

Definition char_of (z : Z) : ascii := ascii_of_N (Z.to_N z).

(** ** The output buffer invariant *)

(** Every dot drives exactly one of its two outputs, the one of its
    current state. *)
Definition serialized (s : BrailleDisplay) : Prop :=
  forall d, 0 <= d < TOTAL_DOTS ->
    output_bit s (2 * d) = Dot.currentState (dot_at s d) /\
    output_bit s (2 * d + 1) = negb (Dot.currentState (dot_at s d)).

(** No output is driven at all. *)
Definition cleared (s : BrailleDisplay) : Prop :=
  shiftRegisterData s = replicate 15 0.

Definition buffer_inv (s : BrailleDisplay) : Prop :=
  wf s /\ (cleared s \/ serialized s).

(** ** [patternToString]

    The Arduino [String] is a Rocq string.  [String(i + 1)] is the decimal
    text of a number; the loop only converts 1 to 6, one digit each. *)

Definition String_of_digit (n : Z) : string :=
  String (char_of (code "0" + n)) EmptyString.

Definition patternToString (pattern : Z) : string :=
  let result :=
    fold_left
      (fun (result : string) (i : nat) =>
         if negb (Z.land pattern (Z.shiftl 1 (Z.of_nat i)) =? 0) then
           let result :=
             if (0 <? String.length result)%nat then (result +:+ ",")%string
             else result in
           (result +:+ String_of_digit (Z.of_nat i + 1))%string
         else result)
      (seq 0 (Z.to_nat DOTS_PER_CELL)) EmptyString in
  if (0 <? String.length result)%nat then result else "none"%string.

(** Reading a dot list back: every character 1 to 6 sets the bit of its
    dot; other characters count for nothing. *)
Fixpoint dots_of_string (text : string) : Z :=
  match text with
  | EmptyString => 0
  | String c rest =>
    if in_range "1" "6" c
    then Z.lor (Z.shiftl 1 (code c - code "1")) (dots_of_string rest)
    else dots_of_string rest
  end.

(** ** Parts of the controller, named for the proofs *)

(** The part of [displayMirroredText] after its call of [displayText]. *)
Definition mirrorStoredPatterns (s : BrailleDisplay) (now startCell : Z)
    : BrailleDisplay :=
  let s := fold_left
             (fun s i =>
                if Cell.isActive (cell_at s (Z.of_nat i)) then
                  with_cells
                    (alter (fun c => Cell.mk (mirrorBraillePattern (Cell.pattern c))
                                             (Cell.currentState c) (Cell.isActive c)
                                             (Cell.updateTime c) (Cell.needsUpdate c)) i) s
                else s)
             (seq (Z.to_nat startCell)
                  (Z.to_nat NUM_BRAILLE_CELLS - Z.to_nat startCell)) s in
  let s := updateShiftRegisters s in
  if displayEnabled s then refresh s now else s.

(** What the mirroring loop does to one cell. *)
Definition mirror_cell (c : BrailleCell) : BrailleCell :=
  if Cell.isActive c then
    Cell.mk (mirrorBraillePattern (Cell.pattern c)) (Cell.currentState c)
            (Cell.isActive c) (Cell.updateTime c) (Cell.needsUpdate c)
  else c.

(** The public calls that run [enable()]: [enable] itself and the
    self-test routines. *)
Definition op_calls_enable (o : Op) : bool :=
  match o with
  | OpEnable | OpTestAllDots | OpTestSequential | OpTestPattern _
  | OpTestBidirectional => true
  | _ => false
  end.

(** A disabled display whose sink log and timestamp are [L] and [T]. *)
Definition silent (L : list (list Z)) (T : Z) (s : BrailleDisplay) : Prop :=
  wf s /\ displayEnabled s = false /\ shiftedOut s = L /\ lastUpdateTime s = T.

(** Every stored pattern fits six bits. *)
Definition patterns_6bit (s : BrailleDisplay) : Prop :=
  wf s /\ Forall (fun c => 0 <= Cell.pattern c <= 0x3F) (cells s).

(** The activity flag of every cell agrees with its stored pattern. *)
Definition active_ok (s : BrailleDisplay) : Prop :=
  wf s /\
  Forall (fun c => Cell.isActive c = negb (Cell.pattern c =? 0)) (cells s).

(** ** What the sink receives *)

(** Output bit [outputIndex] in a frame as it was shifted out, last
    register first. *)
Definition frame_bit (frame : list Z) (outputIndex : Z) : bool :=
  Z.testbit (default 0 (rev frame !! Z.to_nat (outputIndex / 8)))
            (outputIndex mod 8).

(** No dot has both its raise and its retract output driven. *)
Definition frame_safe (frame : list Z) : Prop :=
  forall d, 0 <= d < TOTAL_DOTS ->
    ~ (frame_bit frame (2 * d) = true /\ frame_bit frame (2 * d + 1) = true).

Definition frames_safe (s : BrailleDisplay) : Prop :=
  buffer_inv s /\ Forall frame_safe (shiftedOut s).


(** Whether a text starts with a digit. *)
Definition starts_with_digit (text : string) : bool :=
  match text with
  | EmptyString => false
  | String c _ => is_digit c
  end.

(** * Properties *)

(** Closed facts about concrete states are settled by evaluation. *)
Ltac by_evaluation :=
  repeat apply conj;
  vm_compute;
  first [ reflexivity | discriminate | intros; discriminate | intros; congruence ].

(** ** Loops *)

Lemma fold_left_preserves {A B : Type} (P : A -> Prop) (f : A -> B -> A)
    (l : list B) (a : A) :
  (forall a b, P a -> P (f a b)) -> P a -> P (fold_left f l a).
Proof.
  intros Hstep. revert a.
  induction l as [|b l IH]; intros a Ha; simpl; [exact Ha|].
  apply IH, Hstep, Ha.
Qed.

(** An in-place loop over the first [n] elements of an array. *)
Lemma fold_left_insert_seq {A : Type} (x : A) (n : nat) (l : list A) :
  (n <= length l)%nat ->
  fold_left (fun l i => <[i := x]> l) (seq 0 n) l = replicate n x ++ drop n l.
Proof.
  induction n as [|n IH]; intros Hn.
  - simpl. by rewrite drop_0.
  - rewrite seq_S, fold_left_app, IH by lia. cbn [fold_left Nat.add].
    apply list_eq. intros j.
    destruct (decide (j = n)) as [->|Hne].
    + rewrite list_lookup_insert_eq
        by (rewrite length_app, length_replicate, length_drop; lia).
      rewrite lookup_app_l by (rewrite length_replicate; lia).
      symmetry. apply lookup_replicate_2. lia.
    + rewrite list_lookup_insert_ne by congruence.
      destruct (decide (j < n)%nat) as [Hlt|Hge].
      * rewrite !lookup_app_l by (rewrite length_replicate; lia).
        rewrite !lookup_replicate_2 by lia. reflexivity.
      * rewrite !lookup_app_r by (rewrite length_replicate; lia).
        rewrite !length_replicate, !lookup_drop. f_equal. lia.
Qed.

Lemma fold_left_insert_all {A : Type} (x : A) (l : list A) :
  fold_left (fun l i => <[i := x]> l) (seq 0 (length l)) l = replicate (length l) x.
Proof.
  rewrite fold_left_insert_seq by lia.
  rewrite drop_all. apply app_nil_r.
Qed.

(** A loop that rewrites elements [base], ..., [base + n - 1] in place. *)
Lemma fold_left_alter_range {A : Type} (g : nat -> A -> A) (base n : nat)
    (l : list A) (j : nat) :
  fold_left (fun l k => alter (g k) (base + k)%nat l) (seq 0 n) l !! j =
  if decide (base <= j < base + n)%nat then g (j - base)%nat <$> l !! j else l !! j.
Proof.
  induction n as [|n IH].
  - simpl. case_decide; [lia|reflexivity].
  - rewrite seq_S, fold_left_app. simpl.
    destruct (decide (j = base + n)%nat) as [->|Hne].
    + rewrite list_lookup_alter_eq, IH.
      rewrite decide_False by lia. rewrite decide_True by lia.
      replace (base + n - base)%nat with n by lia. reflexivity.
    + rewrite list_lookup_alter_ne by congruence. rewrite IH.
      repeat case_decide; try lia; reflexivity.
Qed.

(** ** Shape of the state *)

Lemma wf_lengths s :
  wf s ->
  length (cells s) = 10%nat /\ length (dotStates s) = 60%nat /\
  length (shiftRegisterData s) = 15%nat.
Proof. intros H. exact H. Qed.

Lemma cell_at_lookup s i c :
  cells s !! Z.to_nat i = Some c -> cell_at s i = c.
Proof. unfold cell_at. by intros ->. Qed.

Lemma dot_at_lookup s i d :
  dotStates s !! Z.to_nat i = Some d -> dot_at s i = d.
Proof. unfold dot_at. by intros ->. Qed.

Lemma dot_lookup_at s i :
  wf s -> 0 <= i < TOTAL_DOTS -> dotStates s !! Z.to_nat i = Some (dot_at s i).
Proof.
  intros (_ & Hd & _) Hi. unfold dot_at.
  destruct (lookup_lt_is_Some_2 (dotStates s) (Z.to_nat i)) as [d Hd'].
  - rewrite Hd. unfold TOTAL_DOTS, NUM_BRAILLE_CELLS, DOTS_PER_CELL in *. lia.
  - by rewrite Hd'.
Qed.

Lemma cell_lookup_at s i :
  wf s -> 0 <= i < NUM_BRAILLE_CELLS -> cells s !! Z.to_nat i = Some (cell_at s i).
Proof.
  intros (Hc & _) Hi. unfold cell_at.
  destruct (lookup_lt_is_Some_2 (cells s) (Z.to_nat i)) as [c Hc'].
  - rewrite Hc. unfold NUM_BRAILLE_CELLS in *. lia.
  - by rewrite Hc'.
Qed.

(** ** The serializer *)

Lemma testbit_write_bit (state : bool) (b reg j : Z) :
  0 <= b < 8 -> 0 <= j < 8 ->
  Z.testbit (write_bit state b reg) j = if b =? j then state else Z.testbit reg j.
Proof.
  intros Hb Hj. unfold write_bit, u8.
  change 256 with (2 ^ 8).
  destruct state.
  - rewrite Z.mod_pow2_bits_low by lia.
    rewrite Z.lor_spec, Z.shiftl_1_l, Z.pow2_bits_eqb by lia.
    destruct (b =? j); [apply orb_true_r | apply orb_false_r].
  - rewrite Z.mod_pow2_bits_low by lia.
    rewrite Z.land_spec, Z.lnot_spec, Z.shiftl_1_l, Z.pow2_bits_eqb by lia.
    destruct (b =? j); simpl; [apply andb_false_r | apply andb_true_r].
Qed.

Lemma setShiftRegisterBit_frame s oi st :
  cells (setShiftRegisterBit s oi st) = cells s /\
  dotStates (setShiftRegisterBit s oi st) = dotStates s /\
  displayEnabled (setShiftRegisterBit s oi st) = displayEnabled s /\
  length (shiftRegisterData (setShiftRegisterBit s oi st)) =
    length (shiftRegisterData s).
Proof.
  unfold setShiftRegisterBit.
  repeat case_match; simpl; rewrite ?length_alter; auto.
Qed.

Lemma output_bit_setShiftRegisterBit s oi st oj :
  length (shiftRegisterData s) = 15%nat ->
  0 <= oi < TOTAL_OUTPUTS -> 0 <= oj < TOTAL_OUTPUTS ->
  output_bit (setShiftRegisterBit s oi st) oj =
  if oi =? oj then st else output_bit s oj.
Proof.
  intros Hlen Hi Hj.
  change TOTAL_OUTPUTS with 120 in *.
  unfold setShiftRegisterBit, output_bit.
  change TOTAL_OUTPUTS with 120. change NUM_SHIFT_REGISTERS with 15.
  assert (Hqi : 0 <= oi / 8 < 15) by (split; [apply Z.div_pos | apply Z.div_lt_upper_bound]; lia).
  assert (Hqj : 0 <= oj / 8 < 15) by (split; [apply Z.div_pos | apply Z.div_lt_upper_bound]; lia).
  assert (Hri : 0 <= oi mod 8 < 8) by (apply Z.mod_pos_bound; lia).
  assert (Hrj : 0 <= oj mod 8 < 8) by (apply Z.mod_pos_bound; lia).
  assert (Hu1 : u8 (oi / 8) = oi / 8) by (unfold u8; apply Z.mod_small; lia).
  assert (Hu2 : u8 (oi mod 8) = oi mod 8) by (unfold u8; apply Z.mod_small; lia).
  rewrite Hu1, Hu2.
  destruct (Z.leb_spec 120 oi) as [?|_]; [lia|].
  destruct (Z.ltb_spec (oi / 8) 15) as [_|?]; [|lia].
  simpl.
  destruct (decide (oi / 8 = oj / 8)) as [Heq|Hne].
  - rewrite <- Heq, list_lookup_alter_eq.
    destruct (lookup_lt_is_Some_2 (shiftRegisterData s) (Z.to_nat (oi / 8)))
      as [r Hr]; [lia|].
    rewrite Hr. simpl. rewrite testbit_write_bit by lia.
    destruct (Z.eqb_spec (oi mod 8) (oj mod 8)) as [Hm|Hm].
    + assert (oi = oj) as -> by (rewrite (Z.div_mod oi 8), (Z.div_mod oj 8); lia).
      by rewrite Z.eqb_refl.
    + destruct (Z.eqb_spec oi oj) as [->|_]; [congruence|reflexivity].
  - rewrite list_lookup_alter_ne by lia.
    destruct (Z.eqb_spec oi oj) as [->|_]; [congruence|reflexivity].
Qed.

Lemma clearShiftRegisters_data s :
  length (shiftRegisterData s) = 15%nat ->
  shiftRegisterData (clearShiftRegisters s) = replicate 15 0.
Proof.
  intros Hlen. unfold clearShiftRegisters, with_shiftRegisterData.
  cbn [shiftRegisterData].
  replace (Z.to_nat NUM_SHIFT_REGISTERS) with (length (shiftRegisterData s))
    by (rewrite Hlen; reflexivity).
  rewrite fold_left_insert_all. by rewrite Hlen.
Qed.

Lemma output_bit_cleared s oj :
  shiftRegisterData s = replicate 15 0 -> output_bit s oj = false.
Proof.
  intros H. unfold output_bit. rewrite H.
  destruct (replicate 15 0 !! Z.to_nat (oj / 8)) as [r|] eqn:Hr; simpl.
  - apply lookup_replicate in Hr as [-> _]. apply Z.bits_0.
  - apply Z.bits_0.
Qed.

Lemma refresh_frame s now :
  cells (refresh s now) = cells s /\
  dotStates (refresh s now) = dotStates s /\
  shiftRegisterData (refresh s now) = shiftRegisterData s /\
  displayEnabled (refresh s now) = displayEnabled s.
Proof. unfold refresh. destruct (displayEnabled s) eqn:E; simpl; auto. Qed.

Lemma updateShiftRegisters_dot_frame s d :
  cells (updateShiftRegisters_dot s d) = cells s /\
  dotStates (updateShiftRegisters_dot s d) = dotStates s /\
  displayEnabled (updateShiftRegisters_dot s d) = displayEnabled s /\
  length (shiftRegisterData (updateShiftRegisters_dot s d)) =
    length (shiftRegisterData s).
Proof.
  unfold updateShiftRegisters_dot.
  destruct (Dot.currentState _);
    repeat match goal with
    | |- context [setShiftRegisterBit ?s ?o ?b] =>
        let H := fresh in
        pose proof (setShiftRegisterBit_frame s o b) as H;
        destruct H as (-> & -> & -> & ->)
    end; auto.
Qed.

Lemma updateShiftRegisters_frame s :
  cells (updateShiftRegisters s) = cells s /\
  dotStates (updateShiftRegisters s) = dotStates s /\
  displayEnabled (updateShiftRegisters s) = displayEnabled s /\
  (length (shiftRegisterData s) = 15%nat ->
   length (shiftRegisterData (updateShiftRegisters s)) = 15%nat).
Proof.
  unfold updateShiftRegisters.
  apply (fold_left_preserves
           (fun s' => cells s' = cells s /\ dotStates s' = dotStates s /\
                      displayEnabled s' = displayEnabled s /\
                      (length (shiftRegisterData s) = 15%nat ->
                       length (shiftRegisterData s') = 15%nat))).
  - intros a d (Hc & Hd & He & Hl).
    destruct (updateShiftRegisters_dot_frame a d) as (-> & -> & -> & ->). auto.
  - repeat split; auto. intros Hl.
    rewrite clearShiftRegisters_data by exact Hl. reflexivity.
Qed.

Lemma getDotOutputIndex_small d dir :
  0 <= d < TOTAL_DOTS -> 0 <= dir < 2 ->
  getDotOutputIndex d dir = 2 * d + dir.
Proof.
  change TOTAL_DOTS with 60. intros Hd Hdir.
  unfold getDotOutputIndex, u8, OUTPUTS_PER_DOT.
  rewrite Z.mod_small; lia.
Qed.

(** After the first [n] dots of the serializer's loop, the bit pairs of
    these dots are complementary and show the dots' current states. *)
Lemma updateShiftRegisters_loop s0 (n : nat) :
  length (shiftRegisterData s0) = 15%nat ->
  (n <= 60)%nat ->
  let s := fold_left updateShiftRegisters_dot (seq 0 n) s0 in
  dotStates s = dotStates s0 /\
  length (shiftRegisterData s) = 15%nat /\
  forall d, 0 <= d < Z.of_nat n ->
    output_bit s (2 * d) = Dot.currentState (dot_at s0 d) /\
    output_bit s (2 * d + 1) = negb (Dot.currentState (dot_at s0 d)).
Proof.
  intros Hlen. induction n as [|n IH]; intros Hn.
  - simpl. repeat split; auto; lia.
  - rewrite seq_S, fold_left_app. cbn [fold_left Nat.add].
    destruct IH as (Hds & Hl & Hbits); [lia|].
    set (s := fold_left updateShiftRegisters_dot (seq 0 n) s0) in *.
    destruct (updateShiftRegisters_dot_frame s n) as (_ & Hds' & _ & Hl').
    split; [congruence|]. split; [congruence|].
    intros d Hd.
    assert (Hcur : dot_at s (Z.of_nat n) = dot_at s0 (Z.of_nat n))
      by (unfold dot_at; by rewrite Hds).
    unfold updateShiftRegisters_dot. rewrite Hcur.
    rewrite !getDotOutputIndex_small
      by (change TOTAL_DOTS with 60; unfold DOT_DIRECTION_UP, DOT_DIRECTION_DOWN; lia).
    unfold DOT_DIRECTION_UP, DOT_DIRECTION_DOWN. rewrite Z.add_0_r.
    assert (Hout : forall st1 st2 oj, 0 <= oj < TOTAL_OUTPUTS ->
              output_bit (setShiftRegisterBit
                            (setShiftRegisterBit s (2 * Z.of_nat n) st1)
                            (2 * Z.of_nat n + 1) st2) oj =
              if 2 * Z.of_nat n + 1 =? oj then st2
              else if 2 * Z.of_nat n =? oj then st1 else output_bit s oj).
    { intros st1 st2 oj Hoj.
      assert (Hl1 : length (shiftRegisterData
                              (setShiftRegisterBit s (2 * Z.of_nat n) st1)) = 15%nat).
      { destruct (setShiftRegisterBit_frame s (2 * Z.of_nat n) st1) as (_ & _ & _ & ->).
        exact Hl. }
      rewrite (output_bit_setShiftRegisterBit _ _ _ _ Hl1)
        by (change TOTAL_OUTPUTS with 120 in *; lia).
      rewrite (output_bit_setShiftRegisterBit _ _ _ _ Hl)
        by (change TOTAL_OUTPUTS with 120 in *; lia).
      reflexivity. }
    destruct (decide (d = Z.of_nat n)) as [->|Hne].
    + destruct (Dot.currentState (dot_at s0 (Z.of_nat n)));
        rewrite !Hout by (change TOTAL_OUTPUTS with 120; lia);
        rewrite Z.eqb_refl;
        (destruct (Z.eqb_spec (2 * Z.of_nat n + 1) (2 * Z.of_nat n)); [lia|]);
        rewrite Z.eqb_refl; auto.
    + destruct (Hbits d) as [Hup Hdown]; [lia|].
      destruct (Dot.currentState (dot_at s0 (Z.of_nat n)));
        rewrite !Hout by (change TOTAL_OUTPUTS with 120; lia);
        repeat match goal with
        | |- context [?a =? ?b] => destruct (Z.eqb_spec a b); [lia|]
        end; auto.
Qed.

(** The bit pair of every dot after [updateShiftRegisters]. *)
Lemma updateShiftRegisters_bits s d :
  wf s -> 0 <= d < TOTAL_DOTS ->
  output_bit (updateShiftRegisters s) (2 * d) = Dot.currentState (dot_at s d) /\
  output_bit (updateShiftRegisters s) (2 * d + 1) =
    negb (Dot.currentState (dot_at s d)).
Proof.
  intros (_ & _ & Hr) Hd. unfold updateShiftRegisters.
  change (Z.to_nat TOTAL_DOTS) with 60%nat.
  assert (Hl : length (shiftRegisterData (clearShiftRegisters s)) = 15%nat)
    by (rewrite clearShiftRegisters_data by exact Hr; reflexivity).
  destruct (updateShiftRegisters_loop (clearShiftRegisters s) 60 Hl) as (_ & _ & Hbits);
    [lia|].
  change TOTAL_DOTS with 60 in Hd.
  apply (Hbits d). lia.
Qed.

(** ** The scheduler *)

Lemma lookup_fmap_take_drop {A : Type} (f : A -> A) (n : nat) (l : list A) (j : nat) :
  (n <= length l)%nat ->
  ((f <$> take n l) ++ drop n l) !! j =
  if decide (j < n)%nat then f <$> l !! j else l !! j.
Proof.
  intros Hn. case_decide as Hj.
  - rewrite lookup_app_l by (rewrite length_fmap, length_take; lia).
    by rewrite list_lookup_fmap, lookup_take_lt by lia.
  - rewrite lookup_app_r by (rewrite length_fmap, length_take; lia).
    rewrite length_fmap, length_take, lookup_drop. f_equal. lia.
Qed.

Lemma alter_fmap_take_drop {A : Type} (f : A -> A) (n : nat) (l : list A) :
  (n < length l)%nat ->
  alter f n ((f <$> take n l) ++ drop n l) = (f <$> take (S n) l) ++ drop (S n) l.
Proof.
  intros Hn. apply list_eq. intros j.
  rewrite list_lookup_alter, !lookup_fmap_take_drop by lia.
  repeat case_decide; try lia; subst; reflexivity.
Qed.

Lemma setDotState_out_of_range s now d st imm :
  TOTAL_DOTS <= d -> setDotState s now d st imm = s.
Proof.
  intros Hd. unfold setDotState.
  destruct (Z.leb_spec TOTAL_DOTS d); [reflexivity|lia].
Qed.

Lemma setDotState_deferred s now d st :
  d < TOTAL_DOTS ->
  setDotState s now d st false =
  with_dotStates (alter (schedule now st) (Z.to_nat d)) s.
Proof.
  intros Hd. unfold setDotState.
  destruct (Z.leb_spec TOTAL_DOTS d); [lia|].
  unfold with_dotStates. cbn. f_equal.
  by rewrite !list_alter_alter_eq.
Qed.

Lemma setDotState_immediate s now d st :
  d < TOTAL_DOTS ->
  setDotState s now d st true =
  refresh (updateShiftRegisters
             (with_dotStates (alter (set_immediate now st) (Z.to_nat d)) s)) now.
Proof.
  intros Hd. unfold setDotState.
  destruct (Z.leb_spec TOTAL_DOTS d); [lia|].
  unfold with_dotStates. cbn. do 3 f_equal.
  by rewrite !list_alter_alter_eq.
Qed.

(** One iteration of [processPendingActions] rewrites element [n] with
    [commit_due] and raises the flag when that element was due. *)
Lemma processPendingActions_dot_step now s u (n : nat) d :
  dotStates s !! n = Some d ->
  processPendingActions_dot now (s, u) n =
  (with_dotStates (alter (commit_due now) n) s, u || is_due now d).
Proof.
  intros Hd. unfold processPendingActions_dot.
  rewrite (dot_at_lookup s (Z.of_nat n) d) by (by rewrite Nat2Z.id).
  fold (is_due now d).
  destruct (is_due now d) eqn:Hdue.
  - rewrite orb_true_r. f_equal.
    unfold with_dotStates. cbn. f_equal.
    rewrite list_alter_alter_eq.
    apply list_alter_ext; [|reflexivity].
    intros x Hx. rewrite Hd in Hx. injection Hx as <-.
    unfold commit_due. by rewrite Hdue.
  - rewrite orb_false_r. f_equal.
    destruct s as [cs ds rs en lu so]. unfold with_dotStates. cbn in *. f_equal.
    symmetry. apply list_eq. intros j.
    rewrite list_lookup_alter. case_decide; [subst|reflexivity].
    rewrite Hd. cbn. unfold commit_due. by rewrite Hdue.
Qed.

Lemma processPendingActions_loop now s u (n : nat) :
  (n <= length (dotStates s))%nat ->
  fold_left (processPendingActions_dot now) (seq 0 n) (s, u) =
  (with_dotStates (fun ds => (commit_due now <$> take n ds) ++ drop n ds) s,
   u || existsb (is_due now) (take n (dotStates s))).
Proof.
  induction n as [|n IH]; intros Hn.
  - cbn. rewrite orb_false_r. destruct s. unfold with_dotStates. cbn.
    by rewrite drop_0.
  - rewrite seq_S, fold_left_app, IH by lia. cbn [fold_left Nat.add].
    destruct (lookup_lt_is_Some_2 (dotStates s) n) as [d Hd]; [lia|].
    rewrite (processPendingActions_dot_step _ _ _ _ d).
    + f_equal.
      * unfold with_dotStates. cbn. f_equal. apply alter_fmap_take_drop. lia.
      * rewrite (take_S_r _ _ _ Hd), existsb_app. cbn.
        by rewrite orb_false_r, orb_assoc.
    + cbn. rewrite lookup_fmap_take_drop by lia.
      rewrite decide_False by lia. exact Hd.
Qed.

(** [processPendingActions] as a whole: every due dot is committed; the
    buffer is rebuilt, and pushed out when enabled, exactly when some dot
    was due. *)
Lemma processPendingActions_eq s now :
  length (dotStates s) = 60%nat ->
  processPendingActions s now =
  let s1 := with_dotStates (fmap (commit_due now)) s in
  if existsb (is_due now) (dotStates s) then
    let s2 := updateShiftRegisters s1 in
    if displayEnabled s2 then refresh s2 now else s2
  else s1.
Proof.
  intros Hlen. unfold processPendingActions.
  change (Z.to_nat TOTAL_DOTS) with 60%nat.
  rewrite processPendingActions_loop by lia.
  rewrite take_ge by lia. cbn [orb].
  assert (with_dotStates (fun ds => (commit_due now <$> take 60 ds) ++ drop 60 ds) s
          = with_dotStates (fmap (commit_due now)) s) as ->.
  { unfold with_dotStates. f_equal.
    rewrite take_ge, drop_ge by lia. apply app_nil_r. }
  reflexivity.
Qed.

Lemma wf_with_dotStates f s :
  (forall ds, length (f ds) = length ds) -> wf s -> wf (with_dotStates f s).
Proof. intros Hf (Hc & Hd & Hr). repeat split; cbn; auto. by rewrite Hf. Qed.

Lemma wf_with_cells f s :
  (forall cs, length (f cs) = length cs) -> wf s -> wf (with_cells f s).
Proof. intros Hf (Hc & Hd & Hr). repeat split; cbn; auto. by rewrite Hf. Qed.

Lemma wf_refresh s now : wf s -> wf (refresh s now).
Proof.
  intros (Hc & Hd & Hr).
  destruct (refresh_frame s now) as (Ec & Ed & Er & _).
  unfold wf. by rewrite Ec, Ed, Er.
Qed.

Lemma wf_updateShiftRegisters s : wf s -> wf (updateShiftRegisters s).
Proof.
  intros (Hc & Hd & Hr).
  destruct (updateShiftRegisters_frame s) as (Ec & Ed & _ & El).
  unfold wf. rewrite Ec, Ed. auto.
Qed.

Lemma wf_clearShiftRegisters s : wf s -> wf (clearShiftRegisters s).
Proof.
  intros (Hc & Hd & Hr). unfold wf.
  rewrite clearShiftRegisters_data by exact Hr. auto.
Qed.

Lemma setDotState_frame s now d st imm :
  cells (setDotState s now d st imm) = cells s /\
  displayEnabled (setDotState s now d st imm) = displayEnabled s /\
  (wf s -> wf (setDotState s now d st imm)).
Proof.
  destruct (Z.le_gt_cases TOTAL_DOTS d) as [Hd|Hd].
  - rewrite setDotState_out_of_range by exact Hd. auto.
  - destruct imm.
    + rewrite setDotState_immediate by lia.
      set (s1 := with_dotStates _ s).
      destruct (refresh_frame (updateShiftRegisters s1) now) as (-> & _ & _ & ->).
      destruct (updateShiftRegisters_frame s1) as (-> & _ & -> & _).
      split; [reflexivity|]. split; [reflexivity|]. intros Hwf.
      apply wf_refresh, wf_updateShiftRegisters, wf_with_dotStates;
        [intros ds; apply length_alter | exact Hwf].
    + rewrite setDotState_deferred by lia.
      split; [reflexivity|]. split; [reflexivity|]. intros Hwf.
      apply wf_with_dotStates; [intros ds; apply length_alter | exact Hwf].
Qed.

Lemma processPendingActions_frame s now :
  wf s ->
  cells (processPendingActions s now) = cells s /\
  dotStates (processPendingActions s now) = commit_due now <$> dotStates s /\
  displayEnabled (processPendingActions s now) = displayEnabled s /\
  wf (processPendingActions s now).
Proof.
  intros Hwf. pose proof Hwf as (Hc & Hd & Hr).
  rewrite processPendingActions_eq by exact Hd. cbn zeta.
  set (s1 := with_dotStates (fmap (commit_due now)) s).
  assert (Hwf1 : wf s1)
    by (apply wf_with_dotStates; [intros ds; apply length_fmap | exact Hwf]).
  destruct (existsb (is_due now) (dotStates s));
    [|split; [|split; [|split]]; auto].
  destruct (updateShiftRegisters_frame s1) as (Ec & Ed & Ee & _).
  pose proof (wf_updateShiftRegisters _ Hwf1) as Hwf2.
  destruct (displayEnabled (updateShiftRegisters s1)) eqn:E.
  - destruct (refresh_frame (updateShiftRegisters s1) now) as (-> & -> & _ & ->).
    rewrite Ec, Ed, E.
    split; [|split; [|split]]; auto. apply wf_refresh, Hwf2.
  - rewrite Ec, Ed. split; [|split; [|split]]; auto.
    rewrite E. exact Ee.
Qed.

Lemma dot_at_processPendingActions s now d :
  wf s -> 0 <= d < TOTAL_DOTS ->
  dot_at (processPendingActions s now) d = commit_due now (dot_at s d).
Proof.
  intros Hwf Hd.
  destruct (processPendingActions_frame s now Hwf) as (_ & Hds & _ & _).
  apply dot_at_lookup. rewrite Hds, list_lookup_fmap.
  by rewrite (dot_lookup_at s d Hwf Hd).
Qed.

Lemma dot_at_setDotState_deferred s now d st :
  wf s -> 0 <= d < TOTAL_DOTS ->
  dot_at (setDotState s now d st false) d = schedule now st (dot_at s d).
Proof.
  intros Hwf Hd. rewrite setDotState_deferred by lia.
  apply dot_at_lookup. cbn. rewrite list_lookup_alter_eq.
  by rewrite (dot_lookup_at s d Hwf Hd).
Qed.

Lemma dot_at_setDotState_other s now d st imm e :
  0 <= d -> 0 <= e -> d <> e ->
  dot_at (setDotState s now d st imm) e = dot_at s e.
Proof.
  intros Hd He Hne.
  destruct (Z.le_gt_cases TOTAL_DOTS d) as [Hd'|Hd'].
  - by rewrite setDotState_out_of_range.
  - unfold dot_at. destruct imm.
    + rewrite setDotState_immediate by lia.
      set (s1 := with_dotStates _ s).
      destruct (refresh_frame (updateShiftRegisters s1) now) as (_ & -> & _).
      destruct (updateShiftRegisters_frame s1) as (_ & -> & _).
      cbn. rewrite list_lookup_alter_ne by lia. reflexivity.
    + rewrite setDotState_deferred by lia.
      cbn. rewrite list_lookup_alter_ne by lia. reflexivity.
Qed.

Lemma u32_small x : 0 <= x < 2 ^ 32 -> u32 x = x.
Proof. intros H. unfold u32. by apply Z.mod_small. Qed.

Lemma u32_range x : 0 <= u32 x < 2 ^ 32.
Proof. unfold u32. apply Z.mod_pos_bound. lia. Qed.

(** C2: a deferred [setDotState] on a valid dot records the target, marks
    the action pending, schedules it at [now + ACTUATOR_SETTLE_TIME] (in
    32-bit arithmetic, which is the plain sum whenever that fits) and
    leaves [currentState] alone; [update] at a time before [actionTime]
    leaves [currentState] unchanged, and [update] at or after [actionTime]
    commits [currentState = targetState] and clears [actionPending]. *)
Theorem setDotState_deferred_then_update (s : BrailleDisplay) (now d : Z) (st : bool) :
  wf s -> is_u32 now -> 0 <= d < TOTAL_DOTS ->
  let s' := setDotState s now d st false in
  let due_at := Dot.actionTime (dot_at s' d) in
  Dot.targetState (dot_at s' d) = st /\
  Dot.actionPending (dot_at s' d) = true /\
  due_at = u32 (now + ACTUATOR_SETTLE_TIME) /\
  (now + ACTUATOR_SETTLE_TIME < 2 ^ 32 -> due_at = now + 50) /\
  Dot.currentState (dot_at s' d) = Dot.currentState (dot_at s d) /\
  (forall t, t < due_at ->
     Dot.currentState (dot_at (update s' t) d) = Dot.currentState (dot_at s d) /\
     Dot.actionPending (dot_at (update s' t) d) = true) /\
  (forall t', due_at <= t' ->
     Dot.currentState (dot_at (update s' t') d) = Dot.targetState (dot_at s' d) /\
     Dot.currentState (dot_at (update s' t') d) = st /\
     Dot.actionPending (dot_at (update s' t') d) = false).
Proof.
  intros Hwf Hnow Hd s' due_at.
  assert (Hwf' : wf s') by (by apply setDotState_frame).
  assert (Hs' : dot_at s' d = schedule now st (dot_at s d))
    by (by apply dot_at_setDotState_deferred).
  subst due_at. rewrite Hs'. cbn.
  repeat split; auto.
  - intros Hfit. unfold ACTUATOR_SETTLE_TIME in *. apply u32_small.
    unfold is_u32 in Hnow. lia.
  - unfold update. rewrite dot_at_processPendingActions, Hs' by auto.
    unfold commit_due, is_due. cbn.
    destruct (Z.leb_spec (u32 (now + ACTUATOR_SETTLE_TIME)) t); [lia|reflexivity].
  - unfold update. rewrite dot_at_processPendingActions, Hs' by auto.
    unfold commit_due, is_due. cbn.
    destruct (Z.leb_spec (u32 (now + ACTUATOR_SETTLE_TIME)) t); [lia|reflexivity].
  - unfold update. rewrite dot_at_processPendingActions, Hs' by auto.
    unfold commit_due, is_due. cbn.
    destruct (Z.leb_spec (u32 (now + ACTUATOR_SETTLE_TIME)) t'); [reflexivity|lia].
  - unfold update. rewrite dot_at_processPendingActions, Hs' by auto.
    unfold commit_due, is_due. cbn.
    destruct (Z.leb_spec (u32 (now + ACTUATOR_SETTLE_TIME)) t'); [reflexivity|lia].
  - unfold update. rewrite dot_at_processPendingActions, Hs' by auto.
    unfold commit_due, is_due. cbn.
    destruct (Z.leb_spec (u32 (now + ACTUATOR_SETTLE_TIME)) t'); [reflexivity|lia].
Qed.

Lemma wf_new : wf BrailleDisplay_new.
Proof. repeat split. Qed.

Lemma setDotState_deferred_then_update_witness :
  wf BrailleDisplay_new /\ is_u32 1000 /\ 0 <= 7 < TOTAL_DOTS /\
  Dot.actionTime (dot_at (setDotState BrailleDisplay_new 1000 7 true false) 7) =
    u32 (1000 + ACTUATOR_SETTLE_TIME) /\
  Dot.currentState
    (dot_at (update (setDotState BrailleDisplay_new 1000 7 true false) 1049) 7) =
    Dot.currentState (dot_at BrailleDisplay_new 7) /\
  Dot.currentState
    (dot_at (update (setDotState BrailleDisplay_new 1000 7 true false) 1050) 7) = true.
Proof.
  assert (Hwf : wf BrailleDisplay_new) by exact wf_new.
  assert (Hnow : is_u32 1000) by (unfold is_u32; lia).
  assert (Hd : 0 <= 7 < TOTAL_DOTS)
    by (unfold TOTAL_DOTS, NUM_BRAILLE_CELLS, DOTS_PER_CELL; lia).
  pose proof (setDotState_deferred_then_update BrailleDisplay_new 1000 7 true Hwf Hnow Hd)
    as H.
  cbv zeta in H.
  destruct H as (_ & _ & Hat & _ & _ & Hbefore & Hafter).
  assert (Hval : u32 (1000 + ACTUATOR_SETTLE_TIME) = 1050) by reflexivity.
  split; [exact Hwf|]. split; [exact Hnow|]. split; [exact Hd|].
  split; [exact Hat|]. split.
  - refine (proj1 (Hbefore 1049 _)). rewrite Hat, Hval. lia.
  - refine (proj1 (proj2 (Hafter 1050 _))). rewrite Hat, Hval. lia.
Defined.

(** C3 (as stated, refuted): dot 0 has a raise pending for time 50; a
    second deferred call at time 10 replaces the target and moves
    [actionTime] to 60, so the earlier [actionTime] is not kept, and at
    time 50 nothing is committed. *)
Lemma setDotState_overwrite_keeps_actionTime_counterexample :
  Dot.actionPending (dot_at example_pending 0) = true /\
  Dot.actionTime (dot_at example_pending 0) = 50 /\
  Dot.targetState (dot_at (setDotState example_pending 10 0 false false) 0) = false /\
  Dot.actionTime (dot_at (setDotState example_pending 10 0 false false) 0) = 60 /\
  Dot.actionTime (dot_at (setDotState example_pending 10 0 false false) 0) <>
    Dot.actionTime (dot_at example_pending 0) /\
  Dot.actionPending
    (dot_at (update (setDotState example_pending 10 0 false false) 50) 0) = true.
Proof. by_evaluation. Qed.

(** C3 (amended): a deferred [setDotState] on a dot whose action is still
    pending overwrites [targetState] (last write wins) and schedules the
    commit anew at [now + ACTUATOR_SETTLE_TIME], whatever the earlier
    [actionTime] was; when that sum fits 32 bits, no [update] earlier than
    a full settle interval after the overwrite commits the dot. *)
Theorem setDotState_overwrite_reschedules (s : BrailleDisplay) (now d : Z) (st : bool) :
  wf s -> is_u32 now -> 0 <= d < TOTAL_DOTS ->
  Dot.actionPending (dot_at s d) = true ->
  let s' := setDotState s now d st false in
  Dot.targetState (dot_at s' d) = st /\
  Dot.actionPending (dot_at s' d) = true /\
  Dot.actionTime (dot_at s' d) = u32 (now + ACTUATOR_SETTLE_TIME) /\
  (now + ACTUATOR_SETTLE_TIME < 2 ^ 32 ->
   forall t, t < now + ACTUATOR_SETTLE_TIME ->
     Dot.currentState (dot_at (update s' t) d) = Dot.currentState (dot_at s d) /\
     Dot.targetState (dot_at (update s' t) d) = st /\
     Dot.actionPending (dot_at (update s' t) d) = true).
Proof.
  intros Hwf Hnow Hd Hpend s'.
  assert (Hwf' : wf s') by (by apply setDotState_frame).
  assert (Hs' : dot_at s' d = schedule now st (dot_at s d))
    by (by apply dot_at_setDotState_deferred).
  rewrite Hs'. cbn.
  split; [reflexivity|]. split; [reflexivity|]. split; [reflexivity|].
  intros Hfit t Ht.
  unfold update. rewrite dot_at_processPendingActions, Hs' by auto.
  unfold commit_due, is_due. cbn.
  rewrite u32_small by (unfold is_u32, ACTUATOR_SETTLE_TIME in *; lia).
  destruct (Z.leb_spec (now + ACTUATOR_SETTLE_TIME) t); [lia|].
  cbn. auto.
Qed.

Lemma wf_example_pending : wf example_pending.
Proof. by_evaluation. Qed.

Lemma setDotState_overwrite_reschedules_witness :
  wf example_pending /\ is_u32 10 /\ 0 <= 0 < TOTAL_DOTS /\
  Dot.actionPending (dot_at example_pending 0) = true /\
  Dot.actionTime (dot_at (setDotState example_pending 10 0 false false) 0) =
    u32 (10 + ACTUATOR_SETTLE_TIME) /\
  Dot.actionPending
    (dot_at (update (setDotState example_pending 10 0 false false) 59) 0) = true.
Proof.
  assert (Hwf : wf example_pending) by exact wf_example_pending.
  assert (Hnow : is_u32 10) by (unfold is_u32; lia).
  assert (Hd : 0 <= 0 < TOTAL_DOTS)
    by (unfold TOTAL_DOTS, NUM_BRAILLE_CELLS, DOTS_PER_CELL; lia).
  assert (Hp : Dot.actionPending (dot_at example_pending 0) = true)
    by (vm_compute; reflexivity).
  pose proof (setDotState_overwrite_reschedules example_pending 10 0 false
                Hwf Hnow Hd Hp) as H.
  cbv zeta in H.
  destruct H as (_ & _ & Hat & Hlater).
  split; [exact Hwf|]. split; [exact Hnow|]. split; [exact Hd|]. split; [exact Hp|].
  split; [exact Hat|].
  refine (proj2 (proj2 (Hlater _ 59 _))); unfold ACTUATOR_SETTLE_TIME; lia.
Defined.

(** ** [setCellPattern] *)

Lemma fold_left_ext_in {A B : Type} (f g : A -> B -> A) (l : list B) (a : A) :
  (forall a b, b ∈ l -> f a b = g a b) -> fold_left f l a = fold_left g l a.
Proof.
  revert a. induction l as [|b l IH]; intros a H; [reflexivity|].
  cbn. rewrite H by apply list_elem_of_here.
  apply IH. intros a' b' Hb'. apply H. by apply list_elem_of_further.
Qed.

Lemma fold_left_with_dotStates {B : Type} (F : B -> list DotState -> list DotState)
    (l : list B) (s : BrailleDisplay) :
  fold_left (fun s k => with_dotStates (F k) s) l s =
  with_dotStates (fun ds => fold_left (fun ds k => F k ds) l ds) s.
Proof.
  revert s. induction l as [|k l IH]; intros s.
  - by destruct s.
  - cbn. by rewrite IH.
Qed.

Lemma length_fold_alter {A : Type} (g : nat -> A -> A) (base : nat)
    (l : list nat) (ds : list A) :
  length (fold_left (fun ds k => alter (g k) (base + k)%nat ds) l ds) = length ds.
Proof.
  apply (fold_left_preserves (fun ds' => length ds' = length ds)); [|reflexivity].
  intros a k Ha. by rewrite length_alter.
Qed.

Lemma cell_dot_index (cellIndex : Z) (dot : nat) :
  0 <= cellIndex < NUM_BRAILLE_CELLS -> (dot < 6)%nat ->
  u8 (cellIndex * DOTS_PER_CELL + Z.of_nat dot) = cellIndex * 6 + Z.of_nat dot /\
  Z.to_nat (cellIndex * 6 + Z.of_nat dot) = (Z.to_nat cellIndex * 6 + dot)%nat /\
  0 <= cellIndex * 6 + Z.of_nat dot < TOTAL_DOTS.
Proof.
  change TOTAL_DOTS with 60. change NUM_BRAILLE_CELLS with 10.
  change DOTS_PER_CELL with 6. unfold u8. intros Hc Hd.
  rewrite Z.mod_small by lia. lia.
Qed.

(** The loop of [setCellPattern] over the six dots of the cell. *)
Lemma setCellPattern_dots_loop s now cellIndex pattern :
  0 <= cellIndex < NUM_BRAILLE_CELLS ->
  fold_left
    (fun s dot =>
       let absoluteDotIndex := u8 (cellIndex * DOTS_PER_CELL + Z.of_nat dot) in
       let dotShouldBeUp :=
         negb (Z.land pattern (Z.shiftl 1 (Z.of_nat dot)) =? 0) in
       setDotState s now absoluteDotIndex dotShouldBeUp false)
    (seq 0 (Z.to_nat DOTS_PER_CELL)) s =
  with_dotStates
    (fun ds =>
       fold_left (fun ds k => alter (schedule now (dotShouldBeUp pattern k))
                                    (Z.to_nat cellIndex * 6 + k)%nat ds)
                 (seq 0 6) ds) s.
Proof.
  intros Hc. change (Z.to_nat DOTS_PER_CELL) with 6%nat.
  rewrite <- (fold_left_with_dotStates
                (fun k => alter (schedule now (dotShouldBeUp pattern k))
                                (Z.to_nat cellIndex * 6 + k)%nat)).
  apply fold_left_ext_in. intros a k Hk.
  apply elem_of_seq in Hk.
  destruct (cell_dot_index cellIndex k Hc) as (-> & Hnat & Hrange); [lia|].
  cbn zeta. rewrite setDotState_deferred by lia.
  by rewrite Hnat.
Qed.

Lemma setCellPattern_timed_invalid s now now' cellIndex pattern :
  NUM_BRAILLE_CELLS <= cellIndex ->
  setCellPattern_timed s now now' cellIndex pattern = s.
Proof.
  intros H. unfold setCellPattern_timed, isValidBrailleCell.
  destruct (Z.ltb_spec cellIndex NUM_BRAILLE_CELLS); [lia|reflexivity].
Qed.

(** [setCellPattern] on a valid cell, with both loops in closed form. *)
Lemma setCellPattern_timed_eq s now now' cellIndex pattern :
  0 <= cellIndex < NUM_BRAILLE_CELLS ->
  setCellPattern_timed s now now' cellIndex pattern =
  let s1 :=
    mkDisplay
      (alter (fun _ => written_cell now pattern) (Z.to_nat cellIndex) (cells s))
      (fold_left (fun ds k => alter (schedule now (dotShouldBeUp pattern k))
                                    (Z.to_nat cellIndex * 6 + k)%nat ds)
                 (seq 0 6) (dotStates s))
      (shiftRegisterData s) (displayEnabled s) (lastUpdateTime s) (shiftedOut s) in
  if displayEnabled s then processPendingActions s1 now' else s1.
Proof.
  intros Hc. unfold setCellPattern_timed, isValidBrailleCell.
  destruct (Z.ltb_spec cellIndex NUM_BRAILLE_CELLS); [|lia].
  cbn [negb]. rewrite setCellPattern_dots_loop by exact Hc.
  unfold with_cells, with_dotStates. cbn.
  rewrite list_alter_alter_eq. reflexivity.
Qed.

Lemma setCellPattern_timed_frame s now now' cellIndex pattern :
  wf s -> 0 <= cellIndex ->
  displayEnabled (setCellPattern_timed s now now' cellIndex pattern) = displayEnabled s /\
  wf (setCellPattern_timed s now now' cellIndex pattern) /\
  (0 <= cellIndex < NUM_BRAILLE_CELLS ->
   cells (setCellPattern_timed s now now' cellIndex pattern) =
   <[Z.to_nat cellIndex := written_cell now pattern]> (cells s)).
Proof.
  intros Hwf Hpos.
  destruct (Z.le_gt_cases NUM_BRAILLE_CELLS cellIndex) as [Hc|Hc].
  { rewrite setCellPattern_timed_invalid by exact Hc.
    split; [reflexivity|]. split; [exact Hwf|]. lia. }
  rewrite setCellPattern_timed_eq by lia. cbn zeta.
  set (s1 := mkDisplay _ _ _ _ _ _).
  assert (Hwf1 : wf s1).
  { destruct Hwf as (Hcs & Hds & Hrs). unfold wf, s1.
    cbn [cells dotStates shiftRegisterData].
    rewrite length_alter, length_fold_alter. auto. }
  assert (Hcells : cells s1 = <[Z.to_nat cellIndex := written_cell now pattern]> (cells s)).
  { unfold s1. cbn. apply list_eq. intros j.
    rewrite list_lookup_alter, list_lookup_insert.
    destruct Hwf as (Hcs & _).
    case_decide as Hj; [subst j|by rewrite decide_False by tauto].
    rewrite decide_True.
    - destruct (lookup_lt_is_Some_2 (cells s) (Z.to_nat cellIndex)) as [c ->];
        [unfold NUM_BRAILLE_CELLS in *; lia|reflexivity].
    - split; [reflexivity|]. unfold NUM_BRAILLE_CELLS in *. lia. }
  destruct (displayEnabled s) eqn:E.
  - destruct (processPendingActions_frame s1 now' Hwf1) as (-> & _ & -> & Hwf2).
    split; [reflexivity|]. split; [exact Hwf2|]. intros _. exact Hcells.
  - split; [reflexivity|]. split; [exact Hwf1|]. intros _. exact Hcells.
Qed.

Lemma getCellPattern_lookup s i c :
  0 <= i < NUM_BRAILLE_CELLS -> cells s !! Z.to_nat i = Some c ->
  getCellPattern s i = Cell.pattern c.
Proof.
  intros Hi Hc. unfold getCellPattern, isValidBrailleCell.
  destruct (Z.ltb_spec i NUM_BRAILLE_CELLS); [|lia].
  cbn. by rewrite (cell_at_lookup s i c Hc).
Qed.

Lemma cell_at_setCellPattern s now i p :
  wf s -> 0 <= i < NUM_BRAILLE_CELLS ->
  cell_at (setCellPattern s now i p) i = written_cell now p.
Proof.
  intros Hwf Hi. unfold setCellPattern.
  destruct (setCellPattern_timed_frame s now now i p Hwf) as (_ & _ & Hc); [lia|].
  apply cell_at_lookup. rewrite Hc by exact Hi.
  apply list_lookup_insert_eq.
  destruct Hwf as (-> & _). unfold NUM_BRAILLE_CELLS in *. lia.
Qed.

Lemma cell_at_setCellPattern_other s now i p j :
  wf s -> 0 <= i -> 0 <= j -> i <> j ->
  cell_at (setCellPattern s now i p) j = cell_at s j.
Proof.
  intros Hwf Hi Hj Hne. unfold setCellPattern.
  destruct (Z.le_gt_cases NUM_BRAILLE_CELLS i) as [Hc|Hc].
  - by rewrite setCellPattern_timed_invalid.
  - destruct (setCellPattern_timed_frame s now now i p Hwf Hi) as (_ & _ & Hcs).
    unfold cell_at. rewrite Hcs by lia.
    rewrite list_lookup_insert_ne by lia. reflexivity.
Qed.

(** C8: for every valid cell index [i] and pattern byte [p],
    [getCellPattern] after [setCellPattern(i, p)] returns [p & 0x3F]. *)
Theorem getCellPattern_setCellPattern (s : BrailleDisplay) (now i p : Z) :
  wf s -> 0 <= i < NUM_BRAILLE_CELLS -> 0 <= p <= 255 ->
  getCellPattern (setCellPattern s now i p) i = Z.land p 0x3F.
Proof.
  intros Hwf Hi _.
  unfold getCellPattern, isValidBrailleCell.
  destruct (Z.ltb_spec i NUM_BRAILLE_CELLS); [|lia].
  cbn [negb]. by rewrite cell_at_setCellPattern.
Qed.

Lemma getCellPattern_setCellPattern_witness :
  wf example_enabled /\ 0 <= 3 < NUM_BRAILLE_CELLS /\ 0 <= 0xC5 <= 255 /\
  getCellPattern (setCellPattern example_enabled 1000 3 0xC5) 3 = Z.land 0xC5 0x3F.
Proof.
  assert (Hwf : wf example_enabled) by by_evaluation.
  assert (Hi : 0 <= 3 < NUM_BRAILLE_CELLS) by (unfold NUM_BRAILLE_CELLS; lia).
  assert (Hp : 0 <= 0xC5 <= 255) by lia.
  split; [exact Hwf|]. split; [exact Hi|]. split; [exact Hp|].
  exact (getCellPattern_setCellPattern example_enabled 1000 3 0xC5 Hwf Hi Hp).
Defined.

(** What the code stores in [isActive]: whether the pattern argument,
    before masking, is nonzero. *)
Lemma isActive_setCellPattern s now i p :
  wf s -> 0 <= i < NUM_BRAILLE_CELLS ->
  Cell.isActive (cell_at (setCellPattern s now i p) i) = negb (p =? 0).
Proof. intros Hwf Hi. by rewrite cell_at_setCellPattern. Qed.

(** For a pattern that fits six bits the flag agrees with the stored
    pattern. *)
Lemma isActive_setCellPattern_6bit s now i p :
  wf s -> 0 <= i < NUM_BRAILLE_CELLS -> 0 <= p <= 0x3F ->
  Cell.isActive (cell_at (setCellPattern s now i p) i) =
  negb (getCellPattern (setCellPattern s now i p) i =? 0).
Proof.
  intros Hwf Hi Hp.
  unfold getCellPattern, isValidBrailleCell.
  destruct (Z.ltb_spec i NUM_BRAILLE_CELLS); [|lia]. cbn [negb].
  rewrite cell_at_setCellPattern by auto. cbn [Cell.isActive Cell.pattern written_cell].
  change 0x3F with (Z.ones 6). rewrite Z.land_ones by lia.
  rewrite Z.mod_small by (change (2 ^ 6) with 64; change (Z.ones 6) with 63 in Hp; lia).
  reflexivity.
Qed.

(** C9 (the code at the failing input): [setCellPattern(0, 0x40)] stores
    the pattern 0 and still sets [isActive], because the flag is computed
    from the argument before masking. *)
Theorem isActive_setCellPattern_0x40 :
  getCellPattern (setCellPattern BrailleDisplay_new 0 0 0x40) 0 = 0 /\
  Cell.isActive (cell_at (setCellPattern BrailleDisplay_new 0 0 0x40) 0) = true /\
  Cell.isActive (cell_at (setCellPattern BrailleDisplay_new 0 0 0x40) 0) <>
    negb (getCellPattern (setCellPattern BrailleDisplay_new 0 0 0x40) 0 =? 0).
Proof. by_evaluation. Qed.

(** The dots of the cell after [setCellPattern]: scheduled, then seen by
    the closing [processPendingActions] when the display is enabled. *)
Lemma dot_at_setCellPattern_timed s now now' c p (k : nat) :
  wf s -> 0 <= c < NUM_BRAILLE_CELLS -> (k < 6)%nat ->
  dot_at (setCellPattern_timed s now now' c p) (c * 6 + Z.of_nat k) =
  let d := schedule now (dotShouldBeUp p k) (dot_at s (c * 6 + Z.of_nat k)) in
  if displayEnabled s then commit_due now' d else d.
Proof.
  intros Hwf Hc Hk.
  destruct (cell_dot_index c k Hc Hk) as (_ & Hnat & Hrange).
  rewrite setCellPattern_timed_eq by exact Hc. cbn zeta.
  set (s1 := mkDisplay _ _ _ _ _ _).
  assert (Hwf1 : wf s1).
  { destruct Hwf as (Hcs & Hds & Hrs). unfold wf, s1.
    cbn [cells dotStates shiftRegisterData].
    rewrite length_alter, length_fold_alter. auto. }
  assert (H1 : dot_at s1 (c * 6 + Z.of_nat k) =
               schedule now (dotShouldBeUp p k) (dot_at s (c * 6 + Z.of_nat k))).
  { apply dot_at_lookup. unfold s1. cbn [dotStates].
    rewrite Hnat, fold_left_alter_range. rewrite decide_True by lia.
    replace (Z.to_nat c * 6 + k - Z.to_nat c * 6)%nat with k by lia.
    rewrite <- Hnat. by rewrite (dot_lookup_at s _ Hwf Hrange). }
  destruct (displayEnabled s).
  - rewrite dot_at_processPendingActions by auto. by rewrite H1.
  - exact H1.
Qed.

(** With the display enabled, and the clock less than a settle interval
    past the reading used for scheduling, [setCellPattern] commits none of
    the cell's six dots: each keeps its current state and stays pending. *)
Lemma setCellPattern_enabled_defers s now now' c p (k : nat) :
  wf s -> displayEnabled s = true -> is_u32 now ->
  now + ACTUATOR_SETTLE_TIME < 2 ^ 32 -> now' < now + ACTUATOR_SETTLE_TIME ->
  0 <= c < NUM_BRAILLE_CELLS -> (k < 6)%nat ->
  let s' := setCellPattern_timed s now now' c p in
  let d := c * 6 + Z.of_nat k in
  Dot.currentState (dot_at s' d) = Dot.currentState (dot_at s d) /\
  Dot.targetState (dot_at s' d) = dotShouldBeUp p k /\
  Dot.actionPending (dot_at s' d) = true.
Proof.
  intros Hwf He Hnow Hfit Hnow' Hc Hk s' d. subst s' d.
  rewrite dot_at_setCellPattern_timed by auto. cbn zeta. rewrite He.
  unfold commit_due, is_due, schedule. cbn.
  rewrite u32_small by (unfold is_u32, ACTUATOR_SETTLE_TIME in *; lia).
  destruct (Z.leb_spec (now + ACTUATOR_SETTLE_TIME) now'); [lia|].
  cbn. auto.
Qed.

(** C4 (the code at the failing input): on the enabled display,
    [setCellPattern(0, 0x01)] at time 1000 returns with dot 0 targeted
    up, still retracted and still pending for time 1050; the output
    buffer is untouched.  [setCellPattern_enabled_defers] shows the same
    for every cell, pattern and state. *)
Theorem setCellPattern_enabled_leaves_dot_pending :
  displayEnabled example_enabled = true /\
  Dot.targetState (dot_at (setCellPattern example_enabled 1000 0 0x01) 0) = true /\
  Dot.currentState (dot_at (setCellPattern example_enabled 1000 0 0x01) 0) = false /\
  Dot.actionPending (dot_at (setCellPattern example_enabled 1000 0 0x01) 0) = true /\
  Dot.actionTime (dot_at (setCellPattern example_enabled 1000 0 0x01) 0) = 1050 /\
  shiftRegisterData (setCellPattern example_enabled 1000 0 0x01) =
    shiftRegisterData example_enabled.
Proof. by_evaluation. Qed.

(** ** The mirror *)

Lemma forallb_below (P : Z -> bool) (n : nat) :
  forallb P (Z.of_nat <$> seq 0 n) = true ->
  forall p, 0 <= p < Z.of_nat n -> P p = true.
Proof.
  intros H p Hp. rewrite forallb_forall in H. apply H.
  apply list_elem_of_In, list_elem_of_fmap. exists (Z.to_nat p).
  split; [lia|]. apply elem_of_seq. lia.
Qed.

(** C7: [mirrorBraillePattern] swaps the dot pairs (1,4), (2,5), (3,6),
    that is bits 0 and 3, 1 and 4, 2 and 5, and it is an involution on
    the 6-bit patterns. *)
Theorem mirrorBraillePattern_involution (p : Z) :
  0 <= p <= 0x3F ->
  mirrorBraillePattern (mirrorBraillePattern p) = p /\
  0 <= mirrorBraillePattern p <= 0x3F /\
  forall k, 0 <= k < 3 ->
    Z.testbit (mirrorBraillePattern p) k = Z.testbit p (k + 3) /\
    Z.testbit (mirrorBraillePattern p) (k + 3) = Z.testbit p k.
Proof.
  intros Hp.
  set (chk := fun p =>
         (mirrorBraillePattern (mirrorBraillePattern p) =? p) &&
         (0 <=? mirrorBraillePattern p) && (mirrorBraillePattern p <=? 0x3F) &&
         forallb (fun k =>
                    Bool.eqb (Z.testbit (mirrorBraillePattern p) k) (Z.testbit p (k + 3)) &&
                    Bool.eqb (Z.testbit (mirrorBraillePattern p) (k + 3)) (Z.testbit p k))
                 [0; 1; 2]).
  assert (Hchk : chk p = true).
  { apply (forallb_below chk 64); [vm_compute; reflexivity | lia]. }
  unfold chk in Hchk.
  apply andb_prop in Hchk as [Hchk Hbits].
  apply andb_prop in Hchk as [Hchk Hhi].
  apply andb_prop in Hchk as [Hinv Hlo].
  split; [by apply Z.eqb_eq|]. split; [lia|].
  intros k Hk. rewrite forallb_forall in Hbits.
  assert (Hin : In k [0; 1; 2]) by (cbn; lia).
  specialize (Hbits k Hin). apply andb_prop in Hbits as [H1 H2].
  split; by apply Bool.eqb_prop.
Qed.

Lemma mirrorBraillePattern_involution_witness :
  0 <= 0x0B <= 0x3F /\
  mirrorBraillePattern 0x0B = 0x19 /\
  mirrorBraillePattern (mirrorBraillePattern 0x0B) = 0x0B.
Proof.
  assert (Hp : 0 <= 0x0B <= 0x3F) by lia.
  split; [exact Hp|]. split; [reflexivity|].
  exact (proj1 (mirrorBraillePattern_involution 0x0B Hp)).
Defined.

(** ** The encoder *)

(** The character classes are disjoint and, in each class, the pattern
    [displayText] looks up is the one [charToBraille] returns. *)
Lemma char_classes (c : ascii) :
  (is_digit c = true ->
     is_upper c = false /\ is_lower c = false /\
     table_get BRAILLE_NUMBERS (code c - code "0") = charToBraille c) /\
  (is_upper c = true ->
     is_lower c = false /\
     table_get BRAILLE_ALPHABET (code c - code "A") = charToBraille c) /\
  (is_lower c = true ->
     table_get BRAILLE_ALPHABET (code c - code "a") = charToBraille c) /\
  ((code c =? code " ") = true -> BRAILLE_SPACE = charToBraille c) /\
  Z.land (charToBraille c) 0x3F = charToBraille c.
Proof.
  destruct c as [[] [] [] [] [] [] [] []];
    vm_compute; repeat split; intros; congruence.
Qed.

Lemma write_from_ge (i : nat) (out l : list Z) :
  (length l <= i)%nat -> write_from i out l = l.
Proof.
  revert i l. induction out as [|x out IH]; intros i l Hi; cbn; [reflexivity|].
  rewrite list_insert_ge by lia. apply IH. lia.
Qed.

Lemma write_from_app (i : nat) (u v l : list Z) :
  write_from i (u ++ v) l = write_from (i + length u) v (write_from i u l).
Proof.
  revert i l. induction u as [|x u IH]; intros i l; cbn.
  - by rewrite Nat.add_0_r.
  - rewrite IH. f_equal. lia.
Qed.

Lemma length_write_from (i : nat) (out l : list Z) :
  length (write_from i out l) = length l.
Proof.
  revert i l. induction out as [|x out IH]; intros i l; cbn; [reflexivity|].
  by rewrite IH, length_insert.
Qed.

Lemma lookup_write_from (i : nat) (out l : list Z) (j : nat) :
  write_from i out l !! j =
  if decide (i <= j < i + length out /\ j < length l)%nat
  then out !! (j - i)%nat else l !! j.
Proof.
  revert i l. induction out as [|x out IH]; intros i l; cbn.
  - case_decide; [lia|reflexivity].
  - rewrite IH, length_insert.
    destruct (decide (j = i)) as [->|Hne].
    + rewrite decide_False by lia. rewrite Nat.sub_diag. cbn.
      case_decide as H.
      * apply list_lookup_insert_eq. lia.
      * rewrite list_insert_ge by lia. reflexivity.
    + rewrite list_lookup_insert_ne by congruence.
      repeat case_decide; try lia; try reflexivity.
      replace (j - i)%nat with (S (j - S i)) by lia. reflexivity.
Qed.

Lemma patterns_length s : wf s -> length (patterns s) = 10%nat.
Proof. intros (Hc & _). unfold patterns. by rewrite length_fmap. Qed.

Lemma getCellPattern_patterns s j :
  0 <= j < NUM_BRAILLE_CELLS ->
  getCellPattern s j = default 0 (patterns s !! Z.to_nat j).
Proof.
  intros Hj. unfold getCellPattern, isValidBrailleCell, cell_at, patterns.
  destruct (Z.ltb_spec j NUM_BRAILLE_CELLS); [|lia].
  cbn [negb]. rewrite list_lookup_fmap.
  by destruct (cells s !! Z.to_nat j).
Qed.

(** One guarded write of [displayText]. *)
Lemma emit_spec now s ci p :
  wf s -> 0 <= ci <= NUM_BRAILLE_CELLS ->
  wf (fst (emit now (s, ci) p)) /\
  displayEnabled (fst (emit now (s, ci) p)) = displayEnabled s /\
  patterns (fst (emit now (s, ci) p)) =
    <[Z.to_nat ci := Z.land p 0x3F]> (patterns s) /\
  snd (emit now (s, ci) p) = Z.min NUM_BRAILLE_CELLS (ci + 1).
Proof.
  intros Hwf Hci. unfold emit.
  destruct (Z.ltb_spec ci NUM_BRAILLE_CELLS) as [Hlt|Hge]; cbn [fst snd].
  - destruct (setCellPattern_timed_frame s now now ci p Hwf) as (He & Hwf' & Hc); [lia|].
    fold (setCellPattern s now ci p) in *.
    split; [exact Hwf'|]. split; [exact He|]. split.
    + unfold patterns. rewrite Hc by lia. by rewrite list_fmap_insert.
    + unfold u8, NUM_BRAILLE_CELLS in *. rewrite Z.mod_small by lia. lia.
  - split; [exact Hwf|]. split; [reflexivity|]. split; [|lia].
    rewrite list_insert_ge; [reflexivity|].
    rewrite patterns_length by exact Hwf. unfold NUM_BRAILLE_CELLS in *. lia.
Qed.

(** A run of guarded writes. *)
Lemma emit_all_spec now (u : list Z) s ci :
  wf s -> 0 <= ci <= NUM_BRAILLE_CELLS ->
  let r := fold_left (emit now) u (s, ci) in
  wf (fst r) /\
  displayEnabled (fst r) = displayEnabled s /\
  patterns (fst r) = write_from (Z.to_nat ci) ((fun p => Z.land p 0x3F) <$> u) (patterns s) /\
  snd r = Z.min NUM_BRAILLE_CELLS (ci + Z.of_nat (length u)).
Proof.
  revert s ci. induction u as [|p u IH]; intros s ci Hwf Hci; cbn zeta.
  - cbn. repeat split; try apply Hwf. lia.
  - cbn [fold_left].
    destruct (emit_spec now s ci p Hwf Hci) as (Hwf1 & He1 & Hp1 & Hc1).
    destruct (emit now (s, ci) p) as [s1 ci1] eqn:E. cbn [fst snd] in *.
    destruct (IH s1 ci1 Hwf1) as (Hwf2 & He2 & Hp2 & Hc2); [lia|].
    split; [exact Hwf2|]. split; [congruence|]. split.
    + rewrite Hp2, Hp1. cbn [fmap list_fmap write_from].
      destruct (Z.ltb_spec ci NUM_BRAILLE_CELLS) as [Hlt|Hge].
      * f_equal. lia.
      * assert (Hlen : length (<[Z.to_nat ci := Z.land p 0x3F]> (patterns s)) = 10%nat)
          by (rewrite length_insert; by apply patterns_length).
        rewrite !write_from_ge; auto; rewrite Hlen;
          unfold NUM_BRAILLE_CELLS in *; lia.
    + rewrite Hc2, Hc1. cbn [length]. lia.
Qed.

(** One iteration of the loop of [displayText] writes, cell by cell, the
    unit the specification assigns to the character, and leaves
    [numberMode] telling whether the character was a digit. *)
Lemma displayText_loop_step now (c : ascii) (rest : string) s ci nm prev :
  (code c =? 0) = false -> ci < NUM_BRAILLE_CELLS -> nm = prev_is_digit prev ->
  displayText_loop now (String c rest) s ci nm =
  displayText_loop now rest
    (fst (fold_left (emit now) (spec_unit prev c) (s, ci)))
    (snd (fold_left (emit now) (spec_unit prev c) (s, ci)))
    (is_digit c).
Proof.
  intros Hnul Hci Hnm.
  cbn [displayText_loop]. rewrite Hnul.
  destruct (char_classes c) as (Hdig & Hup & Hlow & Hsp & _).
  unfold spec_unit, spec_prefix. rewrite <- Hnm.
  assert (Elt : (ci <? NUM_BRAILLE_CELLS) = true) by (apply Z.ltb_lt; lia).
  rewrite Elt.
  cbn [orb negb].
  destruct (is_digit c) eqn:Ed.
  - destruct (Hdig eq_refl) as (_ & _ & ->).
    destruct nm; cbn [negb app fold_left].
    + by destruct (emit now (s, ci) (charToBraille c)).
    + replace (emit now (s, ci) BRAILLE_NUMBER_SIGN)
        with (setCellPattern s now ci BRAILLE_NUMBER_SIGN, u8 (ci + 1))
        by (unfold emit; by rewrite Elt).
      by destruct (emit now _ (charToBraille c)).
  - destruct (is_upper c) eqn:Eu.
    + destruct (Hup eq_refl) as (_ & ->). cbn [app fold_left].
      by destruct (emit now _ (charToBraille c)).
    + destruct (is_lower c) eqn:El.
      * rewrite (Hlow eq_refl). cbn [app fold_left].
        by destruct (emit now _ (charToBraille c)).
      * destruct (code c =? code " ") eqn:Es.
        -- rewrite (Hsp eq_refl). cbn [app fold_left].
           by destruct (emit now _ (charToBraille c)).
        -- cbn [app fold_left].
           by destruct (emit now _ (charToBraille c)).
Qed.

Lemma spec_encodeText_6bit prev text :
  (fun p => Z.land p 0x3F) <$> spec_encodeText prev text = spec_encodeText prev text.
Proof.
  revert prev. induction text as [|c rest IH]; intros prev; [reflexivity|].
  cbn [spec_encodeText]. rewrite fmap_app, IH. f_equal.
  unfold spec_unit, spec_prefix. rewrite fmap_app. cbn [fmap list_fmap].
  destruct (char_classes c) as (_ & _ & _ & _ & ->).
  destruct (is_digit c); [destruct (prev_is_digit prev)|destruct (is_upper c)];
    reflexivity.
Qed.

(** The loop of [displayText] writes the specified encoding of the text
    into the cells from [cellIndex] on and drops what does not fit. *)
Lemma displayText_loop_spec now (text : string) :
  forall s ci nm prev,
    wf s -> 0 <= ci <= NUM_BRAILLE_CELLS -> nm = prev_is_digit prev ->
    let r := displayText_loop now text s ci nm in
    let out := spec_encodeText prev (c_string text) in
    wf (fst r) /\
    displayEnabled (fst r) = displayEnabled s /\
    patterns (fst r) = write_from (Z.to_nat ci) out (patterns s) /\
    snd r = Z.min NUM_BRAILLE_CELLS (ci + Z.of_nat (length out)).
Proof.
  induction text as [|c rest IH]; intros s ci nm prev Hwf Hci Hnm; cbn zeta.
  - cbn. repeat split; try apply Hwf. lia.
  - cbn [c_string]. destruct (code c =? 0) eqn:Hnul.
    { cbn [displayText_loop]. rewrite Hnul. cbn.
      repeat split; try apply Hwf. lia. }
    cbn [spec_encodeText].
    destruct (Z.lt_ge_cases ci NUM_BRAILLE_CELLS) as [Hlt|Hge].
    + rewrite (displayText_loop_step now c rest s ci nm prev Hnul Hlt Hnm).
      destruct (emit_all_spec now (spec_unit prev c) s ci Hwf Hci)
        as (Hwf1 & He1 & Hp1 & Hc1).
      set (r1 := fold_left (emit now) (spec_unit prev c) (s, ci)) in *.
      destruct (IH (fst r1) (snd r1) (is_digit c) (Some c) Hwf1)
        as (Hwf2 & He2 & Hp2 & Hc2); [lia|reflexivity|].
      split; [exact Hwf2|]. split; [congruence|]. split.
      * rewrite Hp2, Hp1, write_from_app.
        assert (Hu : (fun p => Z.land p 0x3F) <$> spec_unit prev c = spec_unit prev c).
        { pose proof (spec_encodeText_6bit prev (String c EmptyString)) as H.
          cbn [spec_encodeText] in H. by rewrite !app_nil_r in H. }
        rewrite Hu, Hc1.
        set (l1 := write_from (Z.to_nat ci) (spec_unit prev c) (patterns s)).
        assert (Hlen : length l1 = 10%nat)
          by (unfold l1; rewrite length_write_from; by apply patterns_length).
        destruct (Z.le_gt_cases (ci + Z.of_nat (length (spec_unit prev c)))
                                NUM_BRAILLE_CELLS) as [Hfit|Hover].
        -- f_equal. lia.
        -- rewrite !write_from_ge; auto; rewrite Hlen;
             unfold NUM_BRAILLE_CELLS in *; lia.
      * rewrite Hc2, Hc1, length_app. lia.
    + cbn [displayText_loop]. rewrite Hnul.
      destruct (Z.ltb_spec ci NUM_BRAILLE_CELLS); [lia|]. cbn [orb negb fst snd].
      split; [exact Hwf|]. split; [reflexivity|]. split; [|lia].
      rewrite write_from_ge; [reflexivity|].
      rewrite patterns_length by exact Hwf. unfold NUM_BRAILLE_CELLS in *. lia.
Qed.

(** ** [clearDisplay] *)

Lemma fmap_alter_same {A B : Type} (h : A -> B) (f : A -> A) (i : nat) (l : list A) :
  (forall x, h (f x) = h x) -> h <$> alter f i l = h <$> l.
Proof.
  intros Hf. apply list_eq. intros j.
  rewrite !list_lookup_fmap, list_lookup_alter.
  case_decide; [subst|reflexivity].
  destruct (l !! j); cbn; [by rewrite Hf|reflexivity].
Qed.

Lemma setDotState_deferred_quiet s now d st :
  levels (setDotState s now d st false) = levels s /\
  shiftRegisterData (setDotState s now d st false) = shiftRegisterData s.
Proof.
  destruct (Z.le_gt_cases TOTAL_DOTS d) as [Hd|Hd].
  - by rewrite setDotState_out_of_range.
  - rewrite setDotState_deferred by lia. split; [|reflexivity].
    unfold levels. cbn. by apply fmap_alter_same.
Qed.

Lemma clearDisplay_spec s now :
  wf s ->
  wf (clearDisplay s now) /\
  displayEnabled (clearDisplay s now) = displayEnabled s /\
  cells (clearDisplay s now) = replicate 10 (blank_cell now true) /\
  shiftRegisterData (clearDisplay s now) = replicate 15 0 /\
  levels (clearDisplay s now) = levels s.
Proof.
  intros Hwf. unfold clearDisplay.
  set (s1 := with_cells _ s).
  assert (H1 : wf s1 /\ displayEnabled s1 = displayEnabled s /\
               cells s1 = replicate 10 (blank_cell now true) /\ levels s1 = levels s).
  { destruct Hwf as (Hc & Hd & Hr).
    assert (Hcells : cells s1 = replicate 10 (blank_cell now true)).
    { unfold s1. cbn.
      replace (Z.to_nat NUM_BRAILLE_CELLS) with (length (cells s)) by (by rewrite Hc).
      rewrite fold_left_insert_all. by rewrite Hc. }
    split; [|auto].
    unfold wf. rewrite Hcells. auto. }
  destruct H1 as (Hwf1 & He1 & Hc1 & Hl1).
  set (s2 := fold_left _ _ s1).
  assert (H2 : wf s2 /\ displayEnabled s2 = displayEnabled s /\
               cells s2 = replicate 10 (blank_cell now true) /\ levels s2 = levels s).
  { unfold s2.
    apply (fold_left_preserves
             (fun s' => wf s' /\ displayEnabled s' = displayEnabled s /\
                        cells s' = replicate 10 (blank_cell now true) /\
                        levels s' = levels s)); [|auto].
    intros a i (Hwa & Hea & Hca & Hla).
    destruct (setDotState_frame a now (Z.of_nat i) false false) as (-> & -> & Hw).
    destruct (setDotState_deferred_quiet a now (Z.of_nat i) false) as (-> & _).
    auto. }
  destruct H2 as (Hwf2 & He2 & Hc2 & Hl2).
  assert (Hwf3 : wf (clearShiftRegisters s2)) by (by apply wf_clearShiftRegisters).
  assert (Hr3 : shiftRegisterData (clearShiftRegisters s2) = replicate 15 0)
    by (apply clearShiftRegisters_data, Hwf2).
  assert (H3 : displayEnabled (clearShiftRegisters s2) = displayEnabled s /\
               cells (clearShiftRegisters s2) = replicate 10 (blank_cell now true) /\
               levels (clearShiftRegisters s2) = levels s) by auto.
  destruct H3 as (He3 & Hc3 & Hl3).
  destruct (displayEnabled (clearShiftRegisters s2)) eqn:E.
  - destruct (refresh_frame (clearShiftRegisters s2) now) as (Rc & Rd & Rr & Re).
    split; [by apply wf_refresh|]. unfold levels in *.
    rewrite Re, Rc, Rr, Rd. rewrite E. auto.
  - auto.
Qed.

(** [displayText] on a valid start cell: the display is cleared and the
    specified encoding is written from [startCell] on, cut at the last
    cell. *)
Lemma displayText_run_spec s now (text : string) startCell :
  wf s -> 0 <= startCell < NUM_BRAILLE_CELLS ->
  let r := displayText_run s now (Some text) startCell in
  let out := spec_encodeText None (c_string text) in
  wf (fst r) /\
  displayEnabled (fst r) = displayEnabled s /\
  patterns (fst r) = write_from (Z.to_nat startCell) out (replicate 10 0) /\
  snd r = Z.min NUM_BRAILLE_CELLS (startCell + Z.of_nat (length out)).
Proof.
  intros Hwf Hs. unfold displayText_run.
  destruct (Z.leb_spec NUM_BRAILLE_CELLS startCell); [lia|].
  destruct (clearDisplay_spec s now Hwf) as (Hwf0 & He0 & Hc0 & _).
  destruct (displayText_loop_spec now text (clearDisplay s now) startCell false None Hwf0)
    as (Hwf1 & He1 & Hp1 & Hc1); [lia|reflexivity|].
  cbn zeta. split; [exact Hwf1|]. split; [congruence|]. split; [|exact Hc1].
  rewrite Hp1. unfold patterns at 1. rewrite Hc0. reflexivity.
Qed.

Lemma patterns_all_cells s :
  wf s -> getCellPattern s <$> all_cells = patterns s.
Proof.
  intros Hwf. pose proof (patterns_length s Hwf) as Hlen.
  unfold all_cells. cbn [fmap list_fmap].
  rewrite !getCellPattern_patterns by (unfold NUM_BRAILLE_CELLS; lia).
  destruct (patterns s) as [|a0 [|a1 [|a2 [|a3 [|a4 [|a5 [|a6 [|a7 [|a8 [|a9 [|]]]]]]]]]]];
    try discriminate Hlen. reflexivity.
Qed.

(** The cells after writing [out] from [startCell] into blank cells. *)
Lemma getCellPattern_write_from s (startCell : Z) (out : list Z) (j : Z) :
  patterns s = write_from (Z.to_nat startCell) out (replicate 10 0) ->
  0 <= startCell -> 0 <= j < NUM_BRAILLE_CELLS ->
  getCellPattern s j =
  if (startCell <=? j) && (j - startCell <? Z.of_nat (length out))
  then table_get out (j - startCell) else 0.
Proof.
  intros Hp Hs Hj. rewrite getCellPattern_patterns by exact Hj.
  rewrite Hp, lookup_write_from, length_replicate.
  unfold NUM_BRAILLE_CELLS in Hj.
  destruct (Z.leb_spec startCell j) as [Hle|Hgt]; cbn [andb].
  - destruct (Z.ltb_spec (j - startCell) (Z.of_nat (length out))) as [Hlt|Hge].
    + rewrite decide_True by lia. unfold table_get. do 2 f_equal. lia.
    + rewrite decide_False by lia.
      rewrite lookup_replicate_2 by lia. reflexivity.
  - rewrite decide_False by lia.
    rewrite lookup_replicate_2 by lia. reflexivity.
Qed.

(** C5: [displayText] writes, from [startCell] on, the encoding in which
    exactly one NUMBER-SIGN cell stands before the first digit of each
    maximal run of digits and one CAPITAL-SIGN cell before each uppercase
    letter ([spec_encodeText]), as far as the cells reach; the text 5
    gives exactly the two cells NUMBER_SIGN, digit 5, and the text Ab
    exactly the three cells CAPITAL_SIGN, letter A, letter b. *)
Theorem displayText_encodes (s : BrailleDisplay) (now : Z) :
  wf s ->
  (forall (text : string) (startCell : Z),
     0 <= startCell < NUM_BRAILLE_CELLS ->
     let out := spec_encodeText None (c_string text) in
     let r := displayText_run s now (Some text) startCell in
     snd r - startCell =
       Z.min (Z.of_nat (length out)) (NUM_BRAILLE_CELLS - startCell) /\
     forall j, 0 <= j < NUM_BRAILLE_CELLS ->
       getCellPattern (fst r) j =
       if (startCell <=? j) && (j - startCell <? Z.of_nat (length out))
       then table_get out (j - startCell) else 0) /\
  (snd (displayText_run s now (Some "5"%string) 0) = 2 /\
   getCellPattern (displayText s now (Some "5"%string) 0) <$> all_cells =
     [BRAILLE_NUMBER_SIGN; table_get BRAILLE_NUMBERS 5; 0; 0; 0; 0; 0; 0; 0; 0]) /\
  (snd (displayText_run s now (Some "Ab"%string) 0) = 3 /\
   getCellPattern (displayText s now (Some "Ab"%string) 0) <$> all_cells =
     [BRAILLE_CAPITAL_SIGN; table_get BRAILLE_ALPHABET 0;
      table_get BRAILLE_ALPHABET 1; 0; 0; 0; 0; 0; 0; 0]).
Proof.
  intros Hwf.
  assert (H0 : 0 <= 0 < NUM_BRAILLE_CELLS) by (unfold NUM_BRAILLE_CELLS; lia).
  split; [|split].
  - intros text startCell Hs out r.
    destruct (displayText_run_spec s now text startCell Hwf Hs) as (_ & _ & Hp & Hc).
    fold out r in Hp, Hc. split; [lia|].
    intros j Hj. apply getCellPattern_write_from; [exact Hp|lia|exact Hj].
  - destruct (displayText_run_spec s now "5" 0 Hwf H0) as (Hwf' & _ & Hp & Hc).
    split; [exact Hc|].
    unfold displayText. rewrite patterns_all_cells by exact Hwf'. exact Hp.
  - destruct (displayText_run_spec s now "Ab" 0 Hwf H0) as (Hwf' & _ & Hp & Hc).
    split; [exact Hc|].
    unfold displayText. rewrite patterns_all_cells by exact Hwf'. exact Hp.
Qed.

Lemma displayText_encodes_witness :
  wf BrailleDisplay_new /\
  snd (displayText_run BrailleDisplay_new 0 (Some "1a23"%string) 0) - 0 =
    Z.min (Z.of_nat (length (spec_encodeText None (c_string "1a23"))))
          (NUM_BRAILLE_CELLS - 0) /\
  spec_encodeText None (c_string "1a23") =
    [BRAILLE_NUMBER_SIGN; 0x01; 0x01; BRAILLE_NUMBER_SIGN; 0x03; 0x09].
Proof.
  assert (H0 : 0 <= 0 < NUM_BRAILLE_CELLS) by (unfold NUM_BRAILLE_CELLS; lia).
  pose proof (displayText_encodes BrailleDisplay_new 0 wf_new) as H.
  destruct H as (Hgen & _).
  pose proof (Hgen "1a23"%string 0 H0) as Hinst.
  cbv zeta in Hinst. destruct Hinst as (Hcount & _).
  split; [exact wf_new|]. split; [exact Hcount|]. vm_compute. reflexivity.
Defined.

(** C6 (as stated, refuted): with nine cells taken by letters, the
    CAPITAL-SIGN of a closing uppercase letter, or the NUMBER-SIGN of a
    closing digit, is written into the last cell and its letter or digit
    is dropped. *)
Lemma displayText_partial_unit_counterexample :
  length (spec_encodeText None (c_string "bbbbbbbbbA")) = 11%nat /\
  getCellPattern (displayText BrailleDisplay_new 0 (Some "bbbbbbbbbA"%string) 0)
    <$> all_cells = [3; 3; 3; 3; 3; 3; 3; 3; 3; BRAILLE_CAPITAL_SIGN] /\
  getCellPattern (displayText BrailleDisplay_new 0 (Some "bbbbbbbbb7"%string) 0)
    <$> all_cells = [3; 3; 3; 3; 3; 3; 3; 3; 3; BRAILLE_NUMBER_SIGN] /\
  getCellPattern (displayText BrailleDisplay_new 0 (Some "A"%string) 9)
    <$> all_cells = [0; 0; 0; 0; 0; 0; 0; 0; 0; BRAILLE_CAPITAL_SIGN].
Proof. by_evaluation. Qed.

(** C6 (amended): when the text needs more cells than remain,
    [displayText] returns normally with [cellIndex] at the end of the
    display; the cells before [startCell] are blank (nothing wraps around)
    and the cells from [startCell] on hold, one for one, the first cells of
    the full encoding, wherever that cuts it. *)
Theorem displayText_truncates (s : BrailleDisplay) (now : Z) (text : string)
    (startCell : Z) :
  wf s -> 0 <= startCell < NUM_BRAILLE_CELLS ->
  NUM_BRAILLE_CELLS - startCell <
    Z.of_nat (length (spec_encodeText None (c_string text))) ->
  let out := spec_encodeText None (c_string text) in
  let r := displayText_run s now (Some text) startCell in
  wf (fst r) /\
  snd r = NUM_BRAILLE_CELLS /\
  (forall j, 0 <= j < startCell -> getCellPattern (fst r) j = 0) /\
  (forall j, startCell <= j < NUM_BRAILLE_CELLS ->
     getCellPattern (fst r) j = table_get out (j - startCell)).
Proof.
  intros Hwf Hs Hlong out r.
  destruct (displayText_run_spec s now text startCell Hwf Hs) as (Hwf' & _ & Hp & Hc).
  fold out r in Hp, Hc. fold out in Hlong.
  split; [exact Hwf'|]. split; [lia|]. split.
  - intros j Hj.
    rewrite (getCellPattern_write_from _ startCell out j Hp) by lia.
    destruct (Z.leb_spec startCell j); [lia|reflexivity].
  - intros j Hj.
    rewrite (getCellPattern_write_from _ startCell out j Hp) by lia.
    destruct (Z.leb_spec startCell j); [|lia].
    destruct (Z.ltb_spec (j - startCell) (Z.of_nat (length out))); [reflexivity|lia].
Qed.

Lemma displayText_truncates_witness :
  wf BrailleDisplay_new /\ 0 <= 8 < NUM_BRAILLE_CELLS /\
  NUM_BRAILLE_CELLS - 8 <
    Z.of_nat (length (spec_encodeText None (c_string "cAb"))) /\
  snd (displayText_run BrailleDisplay_new 0 (Some "cAb"%string) 8) = NUM_BRAILLE_CELLS.
Proof.
  assert (H8 : 0 <= 8 < NUM_BRAILLE_CELLS) by (unfold NUM_BRAILLE_CELLS; lia).
  assert (Hlong : NUM_BRAILLE_CELLS - 8 <
                  Z.of_nat (length (spec_encodeText None (c_string "cAb"))))
    by (vm_compute; reflexivity).
  pose proof (displayText_truncates BrailleDisplay_new 0 "cAb"%string 8
                wf_new H8 Hlong) as H.
  cbv zeta in H. destruct H as (_ & Hend & _).
  split; [exact wf_new|]. split; [exact H8|]. split; [exact Hlong|]. exact Hend.
Defined.

(** ** [displayChar] *)

Lemma charToBraille_case_blind (k : Z) :
  0 <= k < 26 ->
  charToBraille (char_of (code "A" + k)) = table_get BRAILLE_ALPHABET k /\
  charToBraille (char_of (code "a" + k)) = table_get BRAILLE_ALPHABET k /\
  table_get BRAILLE_ALPHABET k <> BRAILLE_CAPITAL_SIGN /\
  is_upper (char_of (code "A" + k)) = true.
Proof.
  intros Hk.
  set (chk := fun k =>
         (charToBraille (char_of (code "A" + k)) =? table_get BRAILLE_ALPHABET k) &&
         (charToBraille (char_of (code "a" + k)) =? table_get BRAILLE_ALPHABET k) &&
         negb (table_get BRAILLE_ALPHABET k =? BRAILLE_CAPITAL_SIGN) &&
         is_upper (char_of (code "A" + k))).
  assert (Hchk : chk k = true).
  { apply (forallb_below chk 26); [vm_compute; reflexivity | lia]. }
  unfold chk in Hchk.
  apply andb_prop in Hchk as [Hchk Hu].
  apply andb_prop in Hchk as [Hchk Hne].
  apply andb_prop in Hchk as [HA Ha].
  apply Z.eqb_eq in HA, Ha. apply negb_true_iff, Z.eqb_neq in Hne.
  auto.
Qed.

Lemma is_upper_char_of (c : ascii) :
  is_upper c = true ->
  c = char_of (code "A" + (code c - code "A")) /\ 0 <= code c - code "A" < 26.
Proof.
  destruct c as [[] [] [] [] [] [] [] []]; vm_compute; intros H;
    first [discriminate H | split; [reflexivity | split; congruence]].
Qed.

(** C10: [charToBraille] gives an uppercase letter the pattern of its
    lowercase form; so [displayChar] of an uppercase letter puts the bare
    letter pattern, which is never the CAPITAL-SIGN, into cell [i] and
    writes no other cell, whereas [displayText] of the same letter writes
    the CAPITAL-SIGN into cell [i] and the letter into the next cell. *)
Theorem displayChar_uppercase_bare :
  (forall k, 0 <= k < 26 ->
     charToBraille (char_of (code "A" + k)) = charToBraille (char_of (code "a" + k))) /\
  (forall (s : BrailleDisplay) (now : Z) (c : ascii) (i : Z),
     wf s -> is_upper c = true -> 0 <= i < NUM_BRAILLE_CELLS ->
     getCellPattern (displayChar s now c i) i =
       table_get BRAILLE_ALPHABET (code c - code "A") /\
     getCellPattern (displayChar s now c i) i <> BRAILLE_CAPITAL_SIGN /\
     (forall j, 0 <= j < NUM_BRAILLE_CELLS -> j <> i ->
        getCellPattern (displayChar s now c i) j = getCellPattern s j) /\
     (i + 1 < NUM_BRAILLE_CELLS ->
      getCellPattern (displayText s now (Some (String c EmptyString)) i) i =
        BRAILLE_CAPITAL_SIGN /\
      getCellPattern (displayText s now (Some (String c EmptyString)) i) (i + 1) =
        table_get BRAILLE_ALPHABET (code c - code "A"))).
Proof.
  split.
  - intros k Hk.
    destruct (charToBraille_case_blind k Hk) as (-> & -> & _). reflexivity.
  - intros s now c i Hwf Hup Hi.
    destruct (is_upper_char_of c Hup) as (Hc & Hk).
    destruct (charToBraille_case_blind _ Hk) as (HA & _ & Hne & _).
    rewrite <- Hc in HA.
    destruct (char_classes c) as (_ & _ & _ & _ & H6).
    assert (Hdc : displayChar s now c i = setCellPattern s now i (charToBraille c)).
    { unfold displayChar, isValidBrailleCell.
      destruct (Z.ltb_spec i NUM_BRAILLE_CELLS); [reflexivity|lia]. }
    assert (Hcell : getCellPattern (displayChar s now c i) i =
                    table_get BRAILLE_ALPHABET (code c - code "A")).
    { rewrite Hdc. unfold getCellPattern, isValidBrailleCell.
      destruct (Z.ltb_spec i NUM_BRAILLE_CELLS); [|lia]. cbn [negb].
      rewrite cell_at_setCellPattern by auto. cbn. by rewrite H6. }
    split; [exact Hcell|]. split; [by rewrite Hcell|]. split.
    + intros j Hj Hne'. rewrite Hdc. unfold getCellPattern.
      by rewrite cell_at_setCellPattern_other by (auto; lia).
    + intros Hroom.
      assert (Hnul : (code c =? 0) = false).
      { apply Z.eqb_neq. unfold is_upper, in_range in Hup.
        apply andb_prop in Hup as [Hlo _]. apply Z.leb_le in Hlo.
        change (code "A") with 65 in Hlo. lia. }
      destruct (displayText_run_spec s now (String c EmptyString) i Hwf Hi)
        as (_ & _ & Hp & _).
      cbn [c_string spec_encodeText] in Hp. rewrite Hnul in Hp.
      cbn [c_string spec_encodeText] in Hp.
      unfold spec_unit, spec_prefix in Hp. rewrite Hup in Hp.
      assert (Hnd : is_digit c = false).
      { destruct (is_digit c) eqn:Ed; [|reflexivity].
        destruct (char_classes c) as (Hdig & _).
        destruct (Hdig Ed) as (Hx & _). congruence. }
      rewrite Hnd in Hp. cbn [app] in Hp. fold (displayText s now (Some (String c EmptyString)) i) in Hp.
      rewrite !(getCellPattern_write_from _ i _ _ Hp) by lia.
      destruct (Z.leb_spec i i); [|lia].
      destruct (Z.leb_spec i (i + 1)); [|lia].
      replace (i - i) with 0 by lia. replace (i + 1 - i) with 1 by lia.
      cbn. split; [reflexivity|]. unfold table_get at 1. cbn. exact HA.
Qed.

Lemma displayChar_uppercase_bare_witness :
  wf BrailleDisplay_new /\ is_upper "Q" = true /\ 0 <= 4 < NUM_BRAILLE_CELLS /\
  getCellPattern (displayChar BrailleDisplay_new 0 "Q" 4) 4 =
    table_get BRAILLE_ALPHABET (code "Q" - code "A").
Proof.
  assert (H4 : 0 <= 4 < NUM_BRAILLE_CELLS) by (unfold NUM_BRAILLE_CELLS; lia).
  assert (Hup : is_upper "Q" = true) by reflexivity.
  destruct displayChar_uppercase_bare as (_ & Hall).
  destruct (Hall BrailleDisplay_new 0 "Q"%char 4 wf_new Hup H4) as (Hcell & _).
  split; [exact wf_new|]. split; [exact Hup|]. split; [exact H4|]. exact Hcell.
Defined.

(** ** The output buffer in the reachable states *)

Lemma currentState_levels s d :
  Dot.currentState (dot_at s d) = default false (levels s !! Z.to_nat d).
Proof.
  unfold dot_at, levels. rewrite list_lookup_fmap.
  by destruct (dotStates s !! Z.to_nat d).
Qed.

(** A step that touches neither the buffer nor any dot's current state
    keeps the invariant. *)
Lemma buffer_inv_quiet s s' :
  wf s' -> levels s' = levels s -> shiftRegisterData s' = shiftRegisterData s ->
  buffer_inv s -> buffer_inv s'.
Proof.
  intros Hwf' Hl Hr (_ & [Hc|Hs]); split; auto.
  - left. unfold cleared in *. congruence.
  - right. intros d Hd. destruct (Hs d Hd) as (Hup & Hdown).
    unfold output_bit in *. rewrite Hr.
    rewrite currentState_levels, Hl, <- currentState_levels. auto.
Qed.

Lemma buffer_inv_updateShiftRegisters s :
  wf s -> buffer_inv (updateShiftRegisters s).
Proof.
  intros Hwf. split; [by apply wf_updateShiftRegisters|]. right.
  intros d Hd.
  destruct (updateShiftRegisters_frame s) as (_ & Hds & _).
  unfold dot_at. rewrite Hds. by apply updateShiftRegisters_bits.
Qed.

Lemma buffer_inv_refresh s now : buffer_inv s -> buffer_inv (refresh s now).
Proof.
  intros H. destruct (refresh_frame s now) as (_ & Hd & Hr & _).
  apply (buffer_inv_quiet s); auto.
  - apply wf_refresh, H.
  - unfold levels. by rewrite Hd.
Qed.

Lemma buffer_inv_with_displayEnabled b s :
  buffer_inv s -> buffer_inv (with_displayEnabled b s).
Proof. intros H. apply (buffer_inv_quiet s); auto. apply H. Qed.

Lemma buffer_inv_with_cells f s :
  (forall cs, length (f cs) = length cs) ->
  buffer_inv s -> buffer_inv (with_cells f s).
Proof.
  intros Hf H. apply (buffer_inv_quiet s); auto.
  apply wf_with_cells; [exact Hf|apply H].
Qed.


Lemma commit_due_none now (ds : list DotState) :
  existsb (is_due now) ds = false -> commit_due now <$> ds = ds.
Proof.
  induction ds as [|d ds IH]; [reflexivity|].
  cbn [existsb]. intros H. apply orb_false_elim in H as [Hd Hds].
  cbn [fmap list_fmap]. fold (fmap (commit_due now) ds).
  rewrite IH by exact Hds. unfold commit_due. by rewrite Hd.
Qed.

Lemma buffer_inv_processPendingActions s now :
  buffer_inv s -> buffer_inv (processPendingActions s now).
Proof.
  intros H. pose proof H as (Hwf & _). pose proof Hwf as (_ & Hd & _).
  rewrite processPendingActions_eq by exact Hd. cbn zeta.
  assert (Hwf1 : wf (with_dotStates (fmap (commit_due now)) s))
    by (apply wf_with_dotStates; [intros ds; apply length_fmap | exact Hwf]).
  destruct (existsb (is_due now) (dotStates s)) eqn:E.
  - destruct (displayEnabled _).
    + by apply buffer_inv_refresh, buffer_inv_updateShiftRegisters.
    + by apply buffer_inv_updateShiftRegisters.
  - apply (buffer_inv_quiet s); auto.
    unfold levels. cbn. by rewrite commit_due_none.
Qed.













Lemma buffer_inv_new : buffer_inv BrailleDisplay_new.
Proof. split; [exact wf_new|]. left. reflexivity. Qed.




(** * Further properties of the driver *)

Lemma levels_fold_schedule now (g : nat -> bool) (base : nat) (l : list nat)
    (ds : list DotState) :
  Dot.currentState <$>
    fold_left (fun ds k => alter (schedule now (g k)) (base + k)%nat ds) l ds =
  Dot.currentState <$> ds.
Proof.
  apply (fold_left_preserves
           (fun ds' => Dot.currentState <$> ds' = Dot.currentState <$> ds));
    [|reflexivity].
  intros a k Ha. rewrite <- Ha. by apply fmap_alter_same.
Qed.

(** [getCurrentCellState] after [setCellPattern(i, p)] is the argument
    [p] itself, not masked; with the display disabled no dot has moved
    at that point. *)
Theorem getCurrentCellState_setCellPattern (s : BrailleDisplay) (now i p : Z) :
  wf s -> 0 <= i < NUM_BRAILLE_CELLS ->
  getCurrentCellState (setCellPattern s now i p) i = p /\
  (displayEnabled s = false -> levels (setCellPattern s now i p) = levels s).
Proof.
  intros Hwf Hi. split.
  - unfold getCurrentCellState, isValidBrailleCell.
    destruct (Z.ltb_spec i NUM_BRAILLE_CELLS); [|lia].
    cbn [negb]. by rewrite cell_at_setCellPattern.
  - intros Hoff. unfold setCellPattern.
    rewrite setCellPattern_timed_eq by exact Hi. cbn zeta. rewrite Hoff.
    unfold levels. cbn [dotStates]. apply levels_fold_schedule.
Qed.

Lemma getCurrentCellState_setCellPattern_witness :
  wf BrailleDisplay_new /\ 0 <= 2 < NUM_BRAILLE_CELLS /\
  getCurrentCellState (setCellPattern BrailleDisplay_new 0 2 0xFF) 2 = 0xFF.
Proof.
  assert (H2 : 0 <= 2 < NUM_BRAILLE_CELLS) by (unfold NUM_BRAILLE_CELLS; lia).
  split; [exact wf_new|]. split; [exact H2|].
  exact (proj1 (getCurrentCellState_setCellPattern BrailleDisplay_new 0 2 0xFF wf_new H2)).
Defined.

(** ** The serializer *)

(** [setShiftRegisterBit] makes the addressed output bit read the given
    state and leaves every other output bit as it was; an index of 120 or
    more changes nothing. *)
Theorem setShiftRegisterBit_read_back (s : BrailleDisplay) (oi : Z) (st : bool) :
  wf s ->
  (0 <= oi < TOTAL_OUTPUTS ->
   output_bit (setShiftRegisterBit s oi st) oi = st /\
   forall oj, 0 <= oj < TOTAL_OUTPUTS -> oj <> oi ->
     output_bit (setShiftRegisterBit s oi st) oj = output_bit s oj) /\
  (TOTAL_OUTPUTS <= oi -> setShiftRegisterBit s oi st = s).
Proof.
  intros (_ & _ & Hr). split.
  - intros Hoi. split.
    + rewrite output_bit_setShiftRegisterBit by auto. by rewrite Z.eqb_refl.
    + intros oj Hoj Hne. rewrite output_bit_setShiftRegisterBit by auto.
      destruct (Z.eqb_spec oi oj); [congruence|reflexivity].
  - intros Hoi. unfold setShiftRegisterBit.
    destruct (Z.leb_spec TOTAL_OUTPUTS oi); [reflexivity|lia].
Qed.

Lemma setShiftRegisterBit_read_back_witness :
  wf BrailleDisplay_new /\ 0 <= 37 < TOTAL_OUTPUTS /\
  output_bit (setShiftRegisterBit BrailleDisplay_new 37 true) 37 = true.
Proof.
  assert (H : 0 <= 37 < TOTAL_OUTPUTS) by (change TOTAL_OUTPUTS with 120; lia).
  split; [exact wf_new|]. split; [exact H|].
  exact (proj1 (proj1 (setShiftRegisterBit_read_back BrailleDisplay_new 37 true wf_new) H)).
Defined.

(** The serializer never touches the sink or the timestamp. *)
Lemma setShiftRegisterBit_sink s oi st :
  lastUpdateTime (setShiftRegisterBit s oi st) = lastUpdateTime s /\
  shiftedOut (setShiftRegisterBit s oi st) = shiftedOut s.
Proof. unfold setShiftRegisterBit. repeat case_match; auto. Qed.

Lemma updateShiftRegisters_sink s :
  lastUpdateTime (updateShiftRegisters s) = lastUpdateTime s /\
  shiftedOut (updateShiftRegisters s) = shiftedOut s.
Proof.
  unfold updateShiftRegisters.
  apply (fold_left_preserves
           (fun s' => lastUpdateTime s' = lastUpdateTime s /\
                      shiftedOut s' = shiftedOut s)); [|auto].
  intros a d (Hl & Ho). unfold updateShiftRegisters_dot.
  destruct (Dot.currentState _);
    repeat match goal with
    | |- context [setShiftRegisterBit ?x ?o ?b] =>
        let H := fresh in
        pose proof (setShiftRegisterBit_sink x o b) as H;
        destruct H as (-> & ->)
    end; auto.
Qed.

(** The serializer loop reads only the dot states and the buffer. *)
Lemma updateShiftRegisters_dot_data s1 s2 (d : nat) :
  dotStates s1 = dotStates s2 -> shiftRegisterData s1 = shiftRegisterData s2 ->
  dotStates (updateShiftRegisters_dot s1 d) = dotStates (updateShiftRegisters_dot s2 d) /\
  shiftRegisterData (updateShiftRegisters_dot s1 d) =
    shiftRegisterData (updateShiftRegisters_dot s2 d).
Proof.
  intros Hd Hr. unfold updateShiftRegisters_dot, dot_at. rewrite Hd.
  assert (Hbit : forall a b oi st,
            dotStates a = dotStates b -> shiftRegisterData a = shiftRegisterData b ->
            dotStates (setShiftRegisterBit a oi st) = dotStates (setShiftRegisterBit b oi st) /\
            shiftRegisterData (setShiftRegisterBit a oi st) =
              shiftRegisterData (setShiftRegisterBit b oi st)).
  { intros a b oi st Ha Hb. unfold setShiftRegisterBit.
    repeat case_match; cbn; by rewrite ?Hb. }
  destruct (Dot.currentState _); apply Hbit; apply Hbit; auto.
Qed.

(** [updateShiftRegisters] rebuilds the whole buffer from the dots: every
    dot gets exactly one output bit, the one of its current state; nothing
    of the earlier buffer survives, the dots are not touched, and doing it
    again changes nothing. *)
Theorem updateShiftRegisters_rebuilds (s : BrailleDisplay) :
  wf s ->
  serialized (updateShiftRegisters s) /\
  dotStates (updateShiftRegisters s) = dotStates s /\
  cells (updateShiftRegisters s) = cells s /\
  (forall s', wf s' -> dotStates s' = dotStates s ->
     shiftRegisterData (updateShiftRegisters s') =
     shiftRegisterData (updateShiftRegisters s)) /\
  updateShiftRegisters (updateShiftRegisters s) = updateShiftRegisters s.
Proof.
  intros Hwf.
  destruct (updateShiftRegisters_frame s) as (Hc & Hd & He & _).
  assert (Hdata : forall s', wf s' -> dotStates s' = dotStates s ->
            shiftRegisterData (updateShiftRegisters s') =
            shiftRegisterData (updateShiftRegisters s)).
  { intros s' Hwf' Hds. unfold updateShiftRegisters.
    assert (H0 : dotStates (clearShiftRegisters s') = dotStates (clearShiftRegisters s) /\
                 shiftRegisterData (clearShiftRegisters s') =
                 shiftRegisterData (clearShiftRegisters s)).
    { split; [exact Hds|].
      rewrite !clearShiftRegisters_data; [reflexivity|apply Hwf|apply Hwf']. }
    revert H0. generalize (clearShiftRegisters s') (clearShiftRegisters s).
    induction (seq 0 (Z.to_nat TOTAL_DOTS)) as [|d l IH]; intros a b (Ha & Hb);
      [exact Hb|].
    cbn [fold_left]. apply IH. by apply updateShiftRegisters_dot_data. }
  split.
  { intros d Hd'. unfold dot_at. rewrite Hd. by apply updateShiftRegisters_bits. }
  split; [exact Hd|]. split; [exact Hc|]. split; [exact Hdata|].
  pose proof (wf_updateShiftRegisters s Hwf) as Hwf'.
  specialize (Hdata _ Hwf' Hd).
  destruct (updateShiftRegisters_frame (updateShiftRegisters s)) as (Hc2 & Hd2 & He2 & _).
  destruct (updateShiftRegisters_sink (updateShiftRegisters s)) as (Hl2 & Ho2).
  destruct (updateShiftRegisters (updateShiftRegisters s)), (updateShiftRegisters s).
  cbn in *. congruence.
Qed.

Lemma updateShiftRegisters_rebuilds_witness :
  wf example_pending /\
  updateShiftRegisters (updateShiftRegisters example_pending) =
    updateShiftRegisters example_pending.
Proof.
  split; [exact wf_example_pending|].
  exact (proj2 (proj2 (proj2 (proj2
           (updateShiftRegisters_rebuilds example_pending wf_example_pending))))).
Defined.

(** ** The scheduler, continued *)

Lemma refresh_sink s now :
  (displayEnabled s = true ->
   shiftedOut (refresh s now) = rev (shiftRegisterData s) :: shiftedOut s /\
   lastUpdateTime (refresh s now) = now) /\
  (displayEnabled s = false -> refresh s now = s).
Proof. unfold refresh. split; intros ->; auto. Qed.

Lemma lookup_is_due now (s : BrailleDisplay) (d : Z) :
  wf s -> 0 <= d < TOTAL_DOTS -> is_due now (dot_at s d) = true ->
  existsb (is_due now) (dotStates s) = true.
Proof.
  intros Hwf Hd Hdue. apply existsb_exists. exists (dot_at s d).
  split; [|exact Hdue].
  apply list_elem_of_In, list_elem_of_lookup. exists (Z.to_nat d).
  by apply dot_lookup_at.
Qed.

Lemma none_due now (s : BrailleDisplay) :
  wf s ->
  (forall d, 0 <= d < TOTAL_DOTS ->
     ~ (Dot.actionPending (dot_at s d) = true /\ Dot.actionTime (dot_at s d) <= now)) ->
  existsb (is_due now) (dotStates s) = false.
Proof.
  intros Hwf Hnone.
  destruct (existsb (is_due now) (dotStates s)) eqn:E; [|reflexivity].
  apply existsb_exists in E as (x & Hx & Hdue).
  apply list_elem_of_In, list_elem_of_lookup in Hx as (i & Hi).
  pose proof (lookup_lt_Some _ _ _ Hi) as Hlt.
  destruct Hwf as (_ & Hlen & _). rewrite Hlen in Hlt.
  exfalso. apply (Hnone (Z.of_nat i)).
  - change TOTAL_DOTS with 60 in *. lia.
  - rewrite (dot_at_lookup s (Z.of_nat i) x) by (by rewrite Nat2Z.id).
    unfold is_due in Hdue. apply andb_prop in Hdue as (Hp & Ht).
    split; [exact Hp|]. by apply Z.leb_le.
Qed.

Lemma updateShiftRegisters_serialized s :
  wf s -> serialized (updateShiftRegisters s).
Proof.
  intros Hwf d Hd.
  destruct (updateShiftRegisters_frame s) as (_ & Hds & _).
  unfold dot_at. rewrite Hds. by apply updateShiftRegisters_bits.
Qed.

Lemma serialized_ext s s' :
  dotStates s' = dotStates s -> shiftRegisterData s' = shiftRegisterData s ->
  serialized s -> serialized s'.
Proof.
  intros Hd Hr Hs d Hd'. unfold output_bit, dot_at. rewrite Hd, Hr.
  exact (Hs d Hd').
Qed.

Lemma processPendingActions_serialized s now :
  wf s -> existsb (is_due now) (dotStates s) = true ->
  serialized (processPendingActions s now).
Proof.
  intros Hwf Hdue. pose proof Hwf as (_ & Hd & _).
  rewrite processPendingActions_eq by exact Hd. cbn zeta. rewrite Hdue.
  set (s1 := with_dotStates (fmap (commit_due now)) s).
  assert (Hwf1 : wf s1)
    by (apply wf_with_dotStates; [intros ds; apply length_fmap | exact Hwf]).
  assert (Hs : serialized (updateShiftRegisters s1))
    by exact (updateShiftRegisters_serialized s1 Hwf1).
  destruct (displayEnabled (updateShiftRegisters s1)); [|exact Hs].
  destruct (refresh_frame (updateShiftRegisters s1) now) as (_ & Hds & Hrs & _).
  exact (serialized_ext (updateShiftRegisters s1) _ Hds Hrs Hs).
Qed.

Lemma processPendingActions_none_due s now :
  wf s -> existsb (is_due now) (dotStates s) = false ->
  processPendingActions s now = s.
Proof.
  intros Hwf Hnone. pose proof Hwf as (_ & Hd & _).
  rewrite processPendingActions_eq by exact Hd. cbn zeta. rewrite Hnone.
  unfold with_dotStates. rewrite commit_due_none by exact Hnone. by destruct s.
Qed.

Lemma commit_due_settles now now' (d : DotState) :
  now <= now' ->
  is_due now' (commit_due now d) = is_due now' d && negb (is_due now d) /\
  commit_due now' (commit_due now d) = commit_due now' d.
Proof.
  intros Hle. unfold commit_due, is_due. destruct d as [tg cu at_ pe]. cbn.
  destruct pe; cbn; [|auto].
  destruct (at_ <=? now) eqn:E1, (at_ <=? now') eqn:E2;
    cbn; rewrite ?E1, ?E2; cbn; auto.
  apply Z.leb_le in E1. apply Z.leb_gt in E2. lia.
Qed.

(** [update] commits what is due and nothing else.  A dot whose action is
    pending with [actionTime <= t] has after [update] at [t] its target as
    its current state and no action pending, and the re-serialized buffer
    shows it; every other dot is left as it was.  With nothing due the
    display is unchanged; a second [update] at the same clock reading
    changes nothing more; and an earlier extra [update] does not change
    where the dots end up at a later one. *)
Theorem update_settles (s : BrailleDisplay) (t : Z) :
  wf s ->
  (forall d, 0 <= d < TOTAL_DOTS ->
     Dot.actionPending (dot_at s d) = true -> Dot.actionTime (dot_at s d) <= t ->
     Dot.currentState (dot_at (update s t) d) = Dot.targetState (dot_at s d) /\
     Dot.actionPending (dot_at (update s t) d) = false /\
     Dot.targetState (dot_at (update s t) d) = Dot.targetState (dot_at s d) /\
     Dot.actionTime (dot_at (update s t) d) = Dot.actionTime (dot_at s d) /\
     output_bit (update s t) (2 * d) = Dot.targetState (dot_at s d) /\
     output_bit (update s t) (2 * d + 1) = negb (Dot.targetState (dot_at s d))) /\
  (forall d, 0 <= d < TOTAL_DOTS ->
     ~ (Dot.actionPending (dot_at s d) = true /\ Dot.actionTime (dot_at s d) <= t) ->
     dot_at (update s t) d = dot_at s d) /\
  ((forall d, 0 <= d < TOTAL_DOTS ->
      ~ (Dot.actionPending (dot_at s d) = true /\ Dot.actionTime (dot_at s d) <= t)) ->
   update s t = s) /\
  update (update s t) t = update s t /\
  (forall t', t <= t' -> dotStates (update (update s t) t') = dotStates (update s t')).
Proof.
  intros Hwf. unfold update.
  destruct (processPendingActions_frame s t Hwf) as (_ & Hds & _ & Hwf').
  split; [|split; [|split; [|split]]].
  - intros d Hd Hp Ht.
    assert (Hdue : is_due t (dot_at s d) = true).
    { unfold is_due. rewrite Hp. cbn [andb]. by apply Z.leb_le. }
    pose proof (dot_at_processPendingActions s t d Hwf Hd) as Hdot.
    unfold commit_due in Hdot. rewrite Hdue in Hdot.
    assert (Hser : serialized (processPendingActions s t)).
    { apply processPendingActions_serialized; [exact Hwf|].
      by apply (lookup_is_due t s d). }
    destruct (Hser d Hd) as (Hup & Hdown).
    rewrite Hup, Hdown, Hdot.
    unfold Dot.set_actionPending, Dot.set_currentState. cbn.
    repeat apply conj; reflexivity.
  - intros d Hd Hnot.
    rewrite (dot_at_processPendingActions s t d Hwf Hd).
    unfold commit_due, is_due.
    destruct (Dot.actionPending (dot_at s d)) eqn:Hp; [|reflexivity].
    destruct (Z.leb_spec (Dot.actionTime (dot_at s d)) t); [|reflexivity].
    exfalso. apply Hnot. auto.
  - intros Hnone. apply processPendingActions_none_due; [exact Hwf|].
    by apply none_due.
  - apply processPendingActions_none_due; [exact Hwf'|].
    rewrite Hds. apply not_true_is_false. intros E.
    apply existsb_exists in E as (x & Hx & Hdue).
    apply list_elem_of_In, list_elem_of_fmap in Hx as (d & -> & _).
    destruct (commit_due_settles t t d) as (Hd' & _); [lia|].
    rewrite Hd' in Hdue. by destruct (is_due t d).
  - intros t' Hle.
    destruct (processPendingActions_frame _ t' Hwf') as (_ & -> & _).
    destruct (processPendingActions_frame s t' Hwf) as (_ & -> & _).
    rewrite Hds, <- list_fmap_compose. apply list_fmap_ext.
    intros i d _. cbn. by apply commit_due_settles.
Qed.

Lemma update_settles_witness :
  wf example_pending /\ 0 <= 0 < TOTAL_DOTS /\
  Dot.actionPending (dot_at example_pending 0) = true /\
  Dot.actionTime (dot_at example_pending 0) <= 70 /\
  Dot.currentState (dot_at example_pending 0) = false /\
  Dot.currentState (dot_at (update example_pending 70) 0) = true /\
  output_bit (update example_pending 70) (2 * 0) = true.
Proof.
  assert (Hd : 0 <= 0 < TOTAL_DOTS) by (change TOTAL_DOTS with 60; lia).
  assert (Hp : Dot.actionPending (dot_at example_pending 0) = true)
    by (vm_compute; reflexivity).
  assert (Ht : Dot.actionTime (dot_at example_pending 0) <= 70)
    by (vm_compute; discriminate).
  assert (Htg : Dot.targetState (dot_at example_pending 0) = true)
    by (vm_compute; reflexivity).
  pose proof (update_settles example_pending 70 wf_example_pending)
    as (Hcommit & _).
  destruct (Hcommit 0 Hd Hp Ht) as (Hcur & _ & _ & _ & Hup & _).
  split; [exact wf_example_pending|]. split; [exact Hd|].
  split; [exact Hp|]. split; [exact Ht|].
  split; [vm_compute; reflexivity|].
  split; [exact (eq_trans Hcur Htg)|exact (eq_trans Hup Htg)].
Defined.

(** ** Immediate dot control *)

(** [raiseDotImmediate] and [lowerDotImmediate] on a valid cell and dot set
    that dot's current and target state at once, with no action left
    pending, leave every other dot alone, and re-serialize the whole
    buffer; when the display is enabled the buffer is shifted out, last
    register first, and [lastUpdateTime] is the time of the call. *)
Theorem dot_immediate_spec (s : BrailleDisplay) (now c k : Z) (up : bool) :
  wf s -> 0 <= c < NUM_BRAILLE_CELLS -> 0 <= k < DOTS_PER_CELL ->
  let s' := if up then raiseDotImmediate s now c k else lowerDotImmediate s now c k in
  let d := c * 6 + k in
  dot_at s' d = Dot.mk up up now false /\
  (forall e, 0 <= e < TOTAL_DOTS -> e <> d -> dot_at s' e = dot_at s e) /\
  cells s' = cells s /\
  serialized s' /\
  output_bit s' (2 * d) = up /\ output_bit s' (2 * d + 1) = negb up /\
  (displayEnabled s = true ->
   shiftedOut s' = rev (shiftRegisterData s') :: shiftedOut s /\
   lastUpdateTime s' = now) /\
  (displayEnabled s = false -> shiftedOut s' = shiftedOut s).
Proof.
  intros Hwf Hc Hk s' d.
  assert (Hd : 0 <= d < TOTAL_DOTS)
    by (unfold d; change TOTAL_DOTS with 60;
        unfold NUM_BRAILLE_CELLS, DOTS_PER_CELL in *; lia).
  assert (Hs' : s' = setDotState s now d up true).
  { unfold s', raiseDotImmediate, lowerDotImmediate.
    destruct (Z.leb_spec NUM_BRAILLE_CELLS c); [lia|].
    destruct (Z.leb_spec DOTS_PER_CELL k); [lia|]. cbn [orb].
    assert (Hu : u8 (c * DOTS_PER_CELL + k) = d).
    { unfold u8, d. change DOTS_PER_CELL with 6 in *.
      unfold NUM_BRAILLE_CELLS in *. apply Z.mod_small. lia. }
    rewrite Hu. by destruct up. }
  clearbody s'. subst s'.
  rewrite setDotState_immediate by lia.
  set (s1 := with_dotStates (alter (set_immediate now up) (Z.to_nat d)) s).
  assert (Hwf1 : wf s1)
    by (apply wf_with_dotStates; [intros ds; apply length_alter | exact Hwf]).
  pose proof (updateShiftRegisters_serialized s1 Hwf1) as Hser.
  destruct (updateShiftRegisters_frame s1) as (Hc1 & Hd1 & He1 & _).
  destruct (updateShiftRegisters_sink s1) as (Hl1 & Ho1).
  destruct (refresh_frame (updateShiftRegisters s1) now) as (Hc2 & Hd2 & Hr2 & He2).
  assert (Hser' : serialized (refresh (updateShiftRegisters s1) now))
    by exact (serialized_ext (updateShiftRegisters s1) _ Hd2 Hr2 Hser).
  assert (Hdot : dot_at (refresh (updateShiftRegisters s1) now) d =
                 Dot.mk up up now false).
  { apply dot_at_lookup. rewrite Hd2, Hd1. unfold s1. cbn [dotStates with_dotStates].
    rewrite list_lookup_alter_eq, (dot_lookup_at s d Hwf Hd). reflexivity. }
  split; [exact Hdot|]. split.
  { intros e He Hne. unfold dot_at. rewrite Hd2, Hd1. unfold s1.
    cbn [dotStates with_dotStates].
    rewrite list_lookup_alter_ne by lia. reflexivity. }
  split; [by rewrite Hc2, Hc1|]. split; [exact Hser'|].
  destruct (Hser' d Hd) as (Hup & Hdown). rewrite Hdot in Hup, Hdown.
  split; [exact Hup|]. split; [exact Hdown|].
  destruct (refresh_sink (updateShiftRegisters s1) now) as (Hon & Hoff).
  split.
  - intros Hen. rewrite He1 in Hon. destruct (Hon Hen) as (Hso & Hlt).
    rewrite Hso, Hr2, Ho1. auto.
  - intros Hen. rewrite He1 in Hoff. rewrite (Hoff Hen). exact Ho1.
Qed.

Lemma dot_immediate_spec_witness :
  wf example_enabled /\ 0 <= 2 < NUM_BRAILLE_CELLS /\ 0 <= 3 < DOTS_PER_CELL /\
  dot_at (raiseDotImmediate example_enabled 40 2 3) (2 * 6 + 3) =
    Dot.mk true true 40 false.
Proof.
  assert (Hwf : wf example_enabled) by by_evaluation.
  assert (Hc : 0 <= 2 < NUM_BRAILLE_CELLS) by (unfold NUM_BRAILLE_CELLS; lia).
  assert (Hk : 0 <= 3 < DOTS_PER_CELL) by (unfold DOTS_PER_CELL; lia).
  pose proof (dot_immediate_spec example_enabled 40 2 3 true Hwf Hc Hk) as H.
  cbv zeta in H. destruct H as (Hdot & _).
  split; [exact Hwf|]. split; [exact Hc|]. split; [exact Hk|]. exact Hdot.
Defined.

(** ** Deferred commits through [update] *)

Lemma dotShouldBeUp_testbit (p : Z) (k : nat) :
  dotShouldBeUp p k = Z.testbit p (Z.of_nat k).
Proof.
  unfold dotShouldBeUp. rewrite Z.shiftl_1_l.
  destruct (Z.testbit p (Z.of_nat k)) eqn:E.
  - apply negb_true_iff, Z.eqb_neq. intros H0.
    assert (Hb : Z.testbit (Z.land p (2 ^ Z.of_nat k)) (Z.of_nat k) = true)
      by (rewrite Z.land_spec, E, Z.pow2_bits_eqb, Z.eqb_refl by lia; reflexivity).
    rewrite H0, Z.bits_0 in Hb. discriminate.
  - apply negb_false_iff, Z.eqb_eq. apply Z.bits_inj_0. intros n.
    rewrite Z.land_spec.
    destruct (Z.eq_dec n (Z.of_nat k)) as [->|Hne].
    + by rewrite E.
    + destruct (Z.lt_ge_cases n 0) as [Hneg|Hpos].
      * rewrite (Z.testbit_neg_r (2 ^ Z.of_nat k)) by lia. apply andb_false_r.
      * rewrite Z.pow2_bits_eqb by lia.
        destruct (Z.eqb_spec (Z.of_nat k) n); [lia|apply andb_false_r].
Qed.

(** A pattern set with [setCellPattern] reaches the dots at the first
    [update] a settle time later: each of the cell's six dots then stands as
    its pattern bit says, nothing is left pending for it, and its two
    output bits show it. *)
Theorem setCellPattern_then_update (s : BrailleDisplay) (now t c p : Z) (k : nat) :
  wf s -> is_u32 now -> now + ACTUATOR_SETTLE_TIME < 2 ^ 32 ->
  now + ACTUATOR_SETTLE_TIME <= t ->
  0 <= c < NUM_BRAILLE_CELLS -> (k < 6)%nat ->
  let s' := update (setCellPattern s now c p) t in
  let d := c * 6 + Z.of_nat k in
  Dot.currentState (dot_at s' d) = Z.testbit p (Z.of_nat k) /\
  Dot.actionPending (dot_at s' d) = false /\
  output_bit s' (2 * d) = Z.testbit p (Z.of_nat k) /\
  output_bit s' (2 * d + 1) = negb (Z.testbit p (Z.of_nat k)) /\
  getCellPattern s' c = Z.land p 0x3F.
Proof.
  intros Hwf Hnow Hfit Ht Hc Hk s' d.
  destruct (cell_dot_index c k Hc Hk) as (_ & _ & Hd). fold d in Hd.
  pose proof (setCellPattern_timed_frame s now now c p Hwf) as (_ & Hwf1 & Hcells);
    [lia|].
  fold (setCellPattern s now c p) in Hwf1, Hcells.
  assert (Hat : Dot.actionTime (schedule now (dotShouldBeUp p k) (dot_at s d)) =
                now + ACTUATOR_SETTLE_TIME).
  { cbn. apply u32_small. unfold is_u32, ACTUATOR_SETTLE_TIME in *. lia. }
  assert (H1 : dot_at (setCellPattern s now c p) d =
               schedule now (dotShouldBeUp p k) (dot_at s d)).
  { unfold setCellPattern, d. rewrite dot_at_setCellPattern_timed by auto.
    cbn zeta. fold d. destruct (displayEnabled s); [|reflexivity].
    unfold commit_due, is_due. rewrite Hat. cbn [Dot.actionPending schedule
      Dot.set_actionPending andb].
    destruct (Z.leb_spec (now + ACTUATOR_SETTLE_TIME) now);
      [unfold ACTUATOR_SETTLE_TIME in *; lia|reflexivity]. }
  assert (Hdue : is_due t (dot_at (setCellPattern s now c p) d) = true).
  { rewrite H1. unfold is_due. rewrite Hat. cbn.
    apply Z.leb_le. lia. }
  assert (H2 : dot_at s' d = commit_due t (dot_at (setCellPattern s now c p) d)).
  { unfold s', update. by apply dot_at_processPendingActions. }
  assert (Hser : serialized s').
  { unfold s', update. apply processPendingActions_serialized; [exact Hwf1|].
    by apply (lookup_is_due t _ d). }
  assert (Hcur : Dot.currentState (dot_at s' d) = Z.testbit p (Z.of_nat k)).
  { rewrite H2. unfold commit_due. rewrite Hdue, H1. cbn.
    apply dotShouldBeUp_testbit. }
  destruct (Hser d Hd) as (Hup & Hdown). rewrite Hcur in Hup, Hdown.
  split; [exact Hcur|]. split.
  { rewrite H2. unfold commit_due. rewrite Hdue. reflexivity. }
  split; [exact Hup|]. split; [exact Hdown|].
  unfold s', update, getCellPattern, isValidBrailleCell, cell_at.
  destruct (processPendingActions_frame _ t Hwf1) as (-> & _).
  destruct (Z.ltb_spec c NUM_BRAILLE_CELLS); [|lia]. cbn [negb].
  rewrite Hcells by exact Hc.
  rewrite list_lookup_insert_eq; [reflexivity|].
  destruct Hwf as (-> & _). unfold NUM_BRAILLE_CELLS in *. lia.
Qed.

Lemma setCellPattern_then_update_witness :
  wf example_enabled /\ is_u32 1000 /\ 1000 + ACTUATOR_SETTLE_TIME < 2 ^ 32 /\
  1000 + ACTUATOR_SETTLE_TIME <= 1050 /\ 0 <= 4 < NUM_BRAILLE_CELLS /\ (2 < 6)%nat /\
  Dot.currentState
    (dot_at (update (setCellPattern example_enabled 1000 4 0x25) 1050)
            (4 * 6 + Z.of_nat 2)) = Z.testbit 0x25 (Z.of_nat 2).
Proof.
  assert (Hwf : wf example_enabled) by by_evaluation.
  assert (Hnow : is_u32 1000) by (unfold is_u32; lia).
  assert (Hfit : 1000 + ACTUATOR_SETTLE_TIME < 2 ^ 32)
    by (unfold ACTUATOR_SETTLE_TIME; lia).
  assert (Ht : 1000 + ACTUATOR_SETTLE_TIME <= 1050)
    by (unfold ACTUATOR_SETTLE_TIME; lia).
  assert (Hc : 0 <= 4 < NUM_BRAILLE_CELLS) by (unfold NUM_BRAILLE_CELLS; lia).
  assert (Hk : (2 < 6)%nat) by lia.
  pose proof (setCellPattern_then_update example_enabled 1000 1050 4 0x25 2
                Hwf Hnow Hfit Ht Hc Hk) as H.
  cbv zeta in H. destruct H as (Hcur & _).
  repeat (split; [assumption|]). exact Hcur.
Defined.

(** ** [clearDisplay], continued *)

(** [clearDisplay] schedules every dot for lowering. *)
Lemma dotStates_clearDisplay s now :
  wf s -> dotStates (clearDisplay s now) = schedule now false <$> dotStates s.
Proof.
  intros Hwf. unfold clearDisplay.
  set (s1 := with_cells _ s).
  set (s2 := fold_left _ _ s1).
  assert (H2 : dotStates s2 = schedule now false <$> dotStates s).
  { unfold s2.
    rewrite (fold_left_ext_in _
               (fun s k => with_dotStates
                             (alter (schedule now false) (0 + k)%nat) s)).
    - rewrite (fold_left_with_dotStates
                 (fun k => alter (schedule now false) (0 + k)%nat)).
      cbn [dotStates with_dotStates].
      change (dotStates s1) with (dotStates s). apply list_eq. intros j.
      change (Z.to_nat TOTAL_DOTS) with 60%nat.
      rewrite (fold_left_alter_range (fun _ => schedule now false) 0 60).
      rewrite list_lookup_fmap.
      destruct Hwf as (_ & Hlen & _). change (Z.to_nat TOTAL_DOTS) with 60%nat in Hlen.
      case_decide as Hj; [reflexivity|].
      rewrite (lookup_ge_None_2 (dotStates s) j) by lia. reflexivity.
    - intros a k Hk. apply elem_of_seq in Hk.
      change (Z.to_nat TOTAL_DOTS) with 60%nat in Hk.
      rewrite setDotState_deferred by (change TOTAL_DOTS with 60; lia).
      by rewrite Nat2Z.id. }
  assert (H3 : dotStates (clearShiftRegisters s2) = dotStates s2) by reflexivity.
  destruct (displayEnabled (clearShiftRegisters s2)).
  - destruct (refresh_frame (clearShiftRegisters s2) now) as (_ & -> & _).
    by rewrite H3.
  - by rewrite H3.
Qed.

(** After [clearDisplay] the buffer drives no output at all; at the first
    [update] a settle time later every dot is retracted with nothing
    pending, every dot's retract bit is set and its raise bit clear, and
    every cell reads back blank. *)
Theorem clearDisplay_then_update (s : BrailleDisplay) (now t : Z) :
  wf s -> is_u32 now -> now + ACTUATOR_SETTLE_TIME < 2 ^ 32 ->
  now + ACTUATOR_SETTLE_TIME <= t ->
  let s' := update (clearDisplay s now) t in
  (forall oj, output_bit (clearDisplay s now) oj = false) /\
  (forall d, 0 <= d < TOTAL_DOTS ->
     Dot.currentState (dot_at s' d) = false /\
     Dot.actionPending (dot_at s' d) = false /\
     output_bit s' (2 * d) = false /\ output_bit s' (2 * d + 1) = true) /\
  (forall i, 0 <= i < NUM_BRAILLE_CELLS ->
     getCellPattern s' i = 0 /\ getCurrentCellState s' i = 0 /\
     Cell.isActive (cell_at s' i) = false).
Proof.
  intros Hwf Hnow Hfit Ht s'.
  destruct (clearDisplay_spec s now Hwf) as (Hwf0 & _ & Hcells & Hregs & _).
  pose proof (dotStates_clearDisplay s now Hwf) as Hdots.
  assert (Hat : forall x, Dot.actionTime (schedule now false x) =
                          now + ACTUATOR_SETTLE_TIME).
  { intros x. cbn. apply u32_small. unfold is_u32, ACTUATOR_SETTLE_TIME in *. lia. }
  assert (H0 : forall d, 0 <= d < TOTAL_DOTS ->
             dot_at (clearDisplay s now) d = schedule now false (dot_at s d)).
  { intros d Hd. apply dot_at_lookup. rewrite Hdots, list_lookup_fmap.
    by rewrite (dot_lookup_at s d Hwf Hd). }
  assert (Hdue : forall d, 0 <= d < TOTAL_DOTS ->
             is_due t (dot_at (clearDisplay s now) d) = true).
  { intros d Hd. rewrite (H0 d Hd). unfold is_due. rewrite Hat. cbn.
    apply Z.leb_le. lia. }
  assert (Hser : serialized s').
  { unfold s', update. apply processPendingActions_serialized; [exact Hwf0|].
    apply (lookup_is_due t _ 0); [exact Hwf0|change TOTAL_DOTS with 60; lia|].
    apply Hdue. change TOTAL_DOTS with 60. lia. }
  split; [intros oj; by apply output_bit_cleared|]. split.
  - intros d Hd.
    assert (H1 : dot_at s' d = commit_due t (dot_at (clearDisplay s now) d))
      by (unfold s', update; by apply dot_at_processPendingActions).
    assert (Hcur : Dot.currentState (dot_at s' d) = false).
    { rewrite H1. unfold commit_due. rewrite (Hdue d Hd), (H0 d Hd). reflexivity. }
    destruct (Hser d Hd) as (Hup & Hdown). rewrite Hcur in Hup, Hdown.
    split; [exact Hcur|]. split; [|auto].
    rewrite H1. unfold commit_due. by rewrite (Hdue d Hd).
  - intros i Hi.
    assert (Hc : cell_at s' i = blank_cell now true).
    { apply cell_at_lookup. unfold s', update.
      destruct (processPendingActions_frame _ t Hwf0) as (-> & _).
      rewrite Hcells. apply lookup_replicate_2.
      unfold NUM_BRAILLE_CELLS in Hi. lia. }
    unfold getCellPattern, getCurrentCellState, isValidBrailleCell.
    destruct (Z.ltb_spec i NUM_BRAILLE_CELLS); [|lia].
    cbn [negb]. rewrite Hc. auto.
Qed.

Lemma clearDisplay_then_update_witness :
  wf example_pending /\ is_u32 100 /\ 100 + ACTUATOR_SETTLE_TIME < 2 ^ 32 /\
  100 + ACTUATOR_SETTLE_TIME <= 150 /\
  forall oj, output_bit (clearDisplay example_pending 100) oj = false.
Proof.
  assert (Hnow : is_u32 100) by (unfold is_u32; lia).
  assert (Hfit : 100 + ACTUATOR_SETTLE_TIME < 2 ^ 32)
    by (unfold ACTUATOR_SETTLE_TIME; lia).
  assert (Ht : 100 + ACTUATOR_SETTLE_TIME <= 150)
    by (unfold ACTUATOR_SETTLE_TIME; lia).
  pose proof (clearDisplay_then_update example_pending 100 150
                wf_example_pending Hnow Hfit Ht) as H.
  cbv zeta in H. destruct H as (Hclr & _).
  split; [exact wf_example_pending|]. split; [exact Hnow|].
  split; [exact Hfit|]. split; [exact Ht|]. exact Hclr.
Defined.

(** ** The mirror, continued *)

Lemma mirrorBraillePattern_byte_facts (p : Z) :
  0 <= p <= 255 ->
  0 <= mirrorBraillePattern p <= 0x3F /\
  mirrorBraillePattern p = mirrorBraillePattern (Z.land p 0x3F) /\
  mirrorBraillePattern (mirrorBraillePattern p) = Z.land p 0x3F /\
  Z.land (mirrorBraillePattern p) 0x3F = mirrorBraillePattern p.
Proof.
  intros Hp.
  set (chk := fun p =>
         (0 <=? mirrorBraillePattern p) && (mirrorBraillePattern p <=? 0x3F) &&
         (mirrorBraillePattern p =? mirrorBraillePattern (Z.land p 0x3F)) &&
         (mirrorBraillePattern (mirrorBraillePattern p) =? Z.land p 0x3F) &&
         (Z.land (mirrorBraillePattern p) 0x3F =? mirrorBraillePattern p)).
  assert (Hchk : chk p = true).
  { apply (forallb_below chk 256); [vm_compute; reflexivity | lia]. }
  unfold chk in Hchk.
  apply andb_prop in Hchk as [Hchk H5].
  apply andb_prop in Hchk as [Hchk H4].
  apply andb_prop in Hchk as [Hchk H3].
  apply andb_prop in Hchk as [H1 H2].
  apply Z.eqb_eq in H3, H4, H5. repeat split; auto; lia.
Qed.

(** On any byte [mirrorBraillePattern] looks at the low six bits only and
    answers with a 6-bit pattern; [displayMirroredPattern] stores exactly
    that pattern, and mirroring the stored pattern once more stores the
    low six bits of the original. *)
Theorem displayMirroredPattern_spec (s : BrailleDisplay) (now now' i p : Z) :
  wf s -> 0 <= i < NUM_BRAILLE_CELLS -> 0 <= p <= 255 ->
  let s' := displayMirroredPattern s now i p in
  mirrorBraillePattern p = mirrorBraillePattern (Z.land p 0x3F) /\
  0 <= mirrorBraillePattern p <= 0x3F /\
  getCellPattern s' i = mirrorBraillePattern p /\
  getCellPattern (displayMirroredPattern s' now' i (getCellPattern s' i)) i =
    Z.land p 0x3F.
Proof.
  intros Hwf Hi Hp s'.
  destruct (mirrorBraillePattern_byte_facts p Hp) as (Hr & Hlow & Hinv & H6).
  assert (Hget : forall (a : BrailleDisplay) (t q : Z), wf a ->
            getCellPattern (displayMirroredPattern a t i q) i =
            Z.land (mirrorBraillePattern q) 0x3F).
  { intros a t q Ha. unfold displayMirroredPattern, getCellPattern, isValidBrailleCell.
    destruct (Z.ltb_spec i NUM_BRAILLE_CELLS); [|lia]. cbn [negb].
    rewrite cell_at_setCellPattern by auto. reflexivity. }
  assert (Hs' : getCellPattern s' i = mirrorBraillePattern p)
    by (unfold s'; rewrite Hget by exact Hwf; exact H6).
  split; [exact Hlow|]. split; [exact Hr|]. split; [exact Hs'|].
  rewrite Hs', Hget.
  - rewrite Hinv. change 0x3F with (Z.ones 6).
    rewrite !Z.land_ones by lia. apply Z.mod_mod. lia.
  - unfold s', displayMirroredPattern, setCellPattern.
    destruct (setCellPattern_timed_frame s now now i (mirrorBraillePattern p) Hwf)
      as (_ & Hwf' & _); [lia|exact Hwf'].
Qed.

Lemma displayMirroredPattern_spec_witness :
  wf BrailleDisplay_new /\ 0 <= 1 < NUM_BRAILLE_CELLS /\ 0 <= 0xC3 <= 255 /\
  getCellPattern (displayMirroredPattern BrailleDisplay_new 0 1 0xC3) 1 =
    mirrorBraillePattern 0xC3.
Proof.
  assert (Hi : 0 <= 1 < NUM_BRAILLE_CELLS) by (unfold NUM_BRAILLE_CELLS; lia).
  assert (Hp : 0 <= 0xC3 <= 255) by lia.
  pose proof (displayMirroredPattern_spec BrailleDisplay_new 0 0 1 0xC3 wf_new Hi Hp) as H.
  cbv zeta in H. destruct H as (_ & _ & Hget & _).
  split; [exact wf_new|]. split; [exact Hi|]. split; [exact Hp|]. exact Hget.
Defined.

(** ** [patternToString] *)

(** [patternToString] lists the dots of the low six bits: reading the
    digits of its result back gives the pattern masked to six bits, so
    different 6-bit patterns print differently; the result is the word
    none exactly when none of the six bits is set. *)
Theorem patternToString_reads_back (p : Z) :
  0 <= p <= 255 ->
  dots_of_string (patternToString p) = Z.land p 0x3F /\
  patternToString p = patternToString (Z.land p 0x3F) /\
  (patternToString p = "none"%string <-> Z.land p 0x3F = 0).
Proof.
  intros Hp.
  set (chk := fun p =>
         (dots_of_string (patternToString p) =? Z.land p 0x3F) &&
         bool_decide (patternToString p = patternToString (Z.land p 0x3F)) &&
         Bool.eqb (bool_decide (patternToString p = "none"%string))
                  (Z.land p 0x3F =? 0)).
  assert (Hchk : chk p = true).
  { apply (forallb_below chk 256); [vm_compute; reflexivity | lia]. }
  unfold chk in Hchk.
  apply andb_prop in Hchk as [Hchk H3].
  apply andb_prop in Hchk as [H1 H2].
  apply Z.eqb_eq in H1. apply bool_decide_eq_true in H2.
  apply Bool.eqb_prop in H3.
  split; [exact H1|]. split; [exact H2|]. split.
  - intros Hnone. apply Z.eqb_eq. rewrite <- H3. by apply bool_decide_eq_true.
  - intros Hz. apply Z.eqb_eq in Hz. rewrite Hz in H3.
    by apply bool_decide_eq_true in H3.
Qed.

Lemma patternToString_reads_back_witness :
  0 <= 0x25 <= 255 /\ patternToString 0x25 = "1,3,6"%string /\
  dots_of_string (patternToString 0x25) = Z.land 0x25 0x3F.
Proof.
  assert (Hp : 0 <= 0x25 <= 255) by lia.
  split; [exact Hp|]. split; [vm_compute; reflexivity|].
  exact (proj1 (patternToString_reads_back 0x25 Hp)).
Defined.

(** ** Digits and letters share their cells *)

Lemma digit_letter_loop_facts (k : Z) :
  0 <= k <= 9 ->
  let digit := char_of (code "0" + k) in
  let letter := char_of (code "a" + (k + 9) mod 10) in
  is_digit digit = true /\ is_digit letter = false /\ is_upper letter = false /\
  is_lower letter = true /\
  table_get BRAILLE_NUMBERS (code digit - code "0") =
    table_get BRAILLE_ALPHABET (code letter - code "a") /\
  charToBraille digit = charToBraille letter /\
  (code digit =? 0) = false /\ (code letter =? 0) = false.
Proof.
  intros Hk.
  set (chk := fun k =>
         let digit := char_of (code "0" + k) in
         let letter := char_of (code "a" + (k + 9) mod 10) in
         is_digit digit && negb (is_digit letter) && negb (is_upper letter) &&
         is_lower letter &&
         (table_get BRAILLE_NUMBERS (code digit - code "0") =?
          table_get BRAILLE_ALPHABET (code letter - code "a")) &&
         (charToBraille digit =? charToBraille letter) &&
         negb (code digit =? 0) && negb (code letter =? 0)).
  assert (Hchk : chk k = true).
  { apply (forallb_below chk 10); [vm_compute; reflexivity | lia]. }
  unfold chk in Hchk. cbv zeta in Hchk.
  apply andb_prop in Hchk as [Hchk H8].
  apply andb_prop in Hchk as [Hchk H7].
  apply andb_prop in Hchk as [Hchk H6].
  apply andb_prop in Hchk as [Hchk H5].
  apply andb_prop in Hchk as [Hchk H4].
  apply andb_prop in Hchk as [Hchk H3].
  apply andb_prop in Hchk as [H1 H2].
  apply negb_true_iff in H2, H3, H7, H8. apply Z.eqb_eq in H5, H6.
  cbv zeta. repeat apply conj; assumption.
Qed.

(** A character that is not a digit is handled the same in and out of
    number mode. *)
Lemma displayText_loop_numberMode now (post : string) s ci (nm nm' : bool) :
  starts_with_digit post = false ->
  displayText_loop now post s ci nm = displayText_loop now post s ci nm'.
Proof.
  destruct post as [|c rest]; [reflexivity|].
  cbn [starts_with_digit]. intros Hc. cbn [displayText_loop]. by rewrite Hc.
Qed.

Lemma displayText_loop_digit_letter now (post : string) (k : Z) s ci :
  0 <= k <= 9 -> starts_with_digit post = false ->
  displayText_loop now (String (char_of (code "0" + k)) post) s ci true =
  displayText_loop now (String (char_of (code "a" + (k + 9) mod 10)) post) s ci true.
Proof.
  intros Hk Hpost.
  destruct (digit_letter_loop_facts k Hk)
    as (Hdig & Hnd & Hnu & Hlo & Htab & _ & Hz1 & Hz2).
  cbv zeta in Hdig, Hnd, Hnu, Hlo, Htab, Hz1, Hz2.
  cbn [displayText_loop]. rewrite Hdig, Hnd, Hnu, Hlo, Hz1, Hz2, Htab.
  cbn [orb negb].
  destruct (negb (ci <? NUM_BRAILLE_CELLS)); [reflexivity|].
  destruct (emit now (s, ci) _) as [s' ci'].
  by apply displayText_loop_numberMode.
Qed.

Lemma displayText_loop_after_digit now (pre : string) (d : ascii) (t1 t2 : string) :
  is_digit d = true ->
  (forall s ci, displayText_loop now t1 s ci true = displayText_loop now t2 s ci true) ->
  forall s ci nm,
    displayText_loop now (pre +:+ String d t1) s ci nm =
    displayText_loop now (pre +:+ String d t2) s ci nm.
Proof.
  intros Hd Hstep. induction pre as [|c rest IH]; intros s ci nm.
  - change (EmptyString +:+ ?t) with t. cbn [displayText_loop]. rewrite Hd.
    destruct (code d =? 0); cbn [orb]; [reflexivity|].
    destruct (ci <? NUM_BRAILLE_CELLS) eqn:Hci; cbn [negb]; [|reflexivity].
    destruct nm; cbn [negb];
      match goal with
      | |- context [emit ?a ?b ?c] => destruct (emit a b c) as [s' ci']
      end; apply Hstep.
  - change (String c rest +:+ ?t) with (String c (rest +:+ t)).
    cbn [displayText_loop].
    repeat match goal with
           | |- context [if ?b then _ else _] => destruct b
           end; try reflexivity;
      repeat match goal with
             | |- context [emit ?a ?b ?c] => destruct (emit a b c)
             end; apply IH.
Qed.

(** The digits reuse the cells of the letters a to j (1 is a, ..., 9 is i,
    0 is j), and [displayText] writes no sign that ends a number.  So
    directly after a digit, a digit and its letter are displayed alike:
    when the character that follows them is not a digit (or the text ends
    there), the two texts leave the same display, cells, dots and cell
    count, and cannot be told apart.  The condition on the following
    character is needed: after the letter a digit starts a new number, so
    [123] and [1b3] differ in their fourth cell. *)
Theorem digit_letter_same_cells (s : BrailleDisplay) (now : Z) (pre post : string)
    (d : ascii) (k startCell : Z) :
  is_digit d = true -> 0 <= k <= 9 -> starts_with_digit post = false ->
  let digit := char_of (code "0" + k) in
  let letter := char_of (code "a" + (k + 9) mod 10) in
  charToBraille digit = charToBraille letter /\
  displayText_run s now (Some (pre +:+ String d (String digit post))) startCell =
  displayText_run s now (Some (pre +:+ String d (String letter post))) startCell /\
  displayText s now (Some (pre +:+ String d (String digit post))) startCell =
  displayText s now (Some (pre +:+ String d (String letter post))) startCell /\
  forall j,
    getCellPattern
      (displayText s now (Some (pre +:+ String d (String digit post))) startCell) j =
    getCellPattern
      (displayText s now (Some (pre +:+ String d (String letter post))) startCell) j.
Proof.
  intros Hd Hk Hpost digit letter.
  destruct (digit_letter_loop_facts k Hk) as (_ & _ & _ & _ & _ & Hpat & _).
  fold digit letter in Hpat.
  assert (Hrun :
    displayText_run s now (Some (pre +:+ String d (String digit post))) startCell =
    displayText_run s now (Some (pre +:+ String d (String letter post))) startCell).
  { unfold displayText_run.
    destruct (NUM_BRAILLE_CELLS <=? startCell); [reflexivity|].
    apply displayText_loop_after_digit; [exact Hd|].
    intros s' ci. by apply displayText_loop_digit_letter. }
  split; [exact Hpat|]. split; [exact Hrun|].
  unfold displayText. rewrite Hrun. split; [reflexivity|]. intros j. reflexivity.
Qed.

Lemma digit_letter_same_cells_witness :
  is_digit "4" = true /\ 0 <= 1 <= 9 /\ starts_with_digit " z" = false /\
  displayText BrailleDisplay_new 0
    (Some ("x" +:+ String "4" (String (char_of (code "0" + 1)) " z"))) 0 =
  displayText BrailleDisplay_new 0
    (Some ("x" +:+ String "4" (String (char_of (code "a" + (1 + 9) mod 10)) " z"))) 0 /\
  getCellPattern (displayText BrailleDisplay_new 0 (Some "123"%string) 0) 3 = 0x09 /\
  getCellPattern (displayText BrailleDisplay_new 0 (Some "1b3"%string) 0) 3 =
    BRAILLE_NUMBER_SIGN.
Proof.
  assert (Hd : is_digit "4" = true) by reflexivity.
  assert (Hk : 0 <= 1 <= 9) by lia.
  assert (Hp : starts_with_digit " z" = false) by reflexivity.
  pose proof (digit_letter_same_cells BrailleDisplay_new 0 "x" " z" "4"%char 1 0
                Hd Hk Hp) as H.
  cbv zeta in H. destruct H as (_ & _ & Hsame & _).
  split; [exact Hd|]. split; [exact Hk|]. split; [exact Hp|].
  split; [exact Hsame|]. split; vm_compute; reflexivity.
Defined.

(** ** Properties kept by every public call *)

Lemma displayMirroredText_eq s now text startCell :
  displayMirroredText s now text startCell =
  mirrorStoredPatterns (displayText s now text startCell) now startCell.
Proof. unfold displayMirroredText, mirrorStoredPatterns. reflexivity. Qed.

Lemma charToBraille_range (c : ascii) : 0 <= charToBraille c <= 0x3F.
Proof.
  destruct (char_classes c) as (_ & _ & _ & _ & H6).
  rewrite <- H6. change 0x3F with (Z.ones 6). rewrite Z.land_ones by lia.
  pose proof (Z.mod_pos_bound (charToBraille c) (2 ^ 6)) as H.
  change (2 ^ 6) with 64 in *. change (Z.ones 6) with 63. lia.
Qed.

Lemma spec_unit_range prev c p : p ∈ spec_unit prev c -> 0 <= p <= 0x3F.
Proof.
  unfold spec_unit, spec_prefix. intros Hin.
  apply elem_of_app in Hin as [Hin|Hin].
  - destruct (is_digit c); [destruct (prev_is_digit prev)|destruct (is_upper c)];
      try (by apply elem_of_nil in Hin);
      apply list_elem_of_singleton in Hin; subst p;
      unfold BRAILLE_NUMBER_SIGN, BRAILLE_CAPITAL_SIGN; lia.
  - apply list_elem_of_singleton in Hin. subst p. apply charToBraille_range.
Qed.

Section Preservation.

Variable P : BrailleDisplay -> Prop.

Hypothesis P_refresh : forall s now, P s -> P (refresh s now).
Hypothesis P_enable : forall s now, P s -> P (enable s now).
Hypothesis P_disable : forall s, P s -> P (disable s).
Hypothesis P_setDotState : forall s now d st imm, P s -> P (setDotState s now d st imm).
Hypothesis P_processPendingActions :
  forall s now, P s -> P (processPendingActions s now).
Hypothesis P_clearDisplay : forall s now, P s -> P (clearDisplay s now).
Hypothesis P_setCellPattern6 :
  forall s now i p, 0 <= i -> 0 <= p <= 0x3F -> P s -> P (setCellPattern s now i p).
Hypothesis P_setCellPattern :
  forall s now i p, 0 <= i -> P s -> P (setCellPattern s now i p).
Hypothesis P_mirrorStoredPatterns :
  forall s now startCell, P s -> P (mirrorStoredPatterns s now startCell).

Lemma preserved_emit_all now (u : list Z) :
  (forall p, p ∈ u -> 0 <= p <= 0x3F) ->
  forall w, 0 <= snd w -> P (fst w) ->
    0 <= snd (fold_left (emit now) u w) /\ P (fst (fold_left (emit now) u w)).
Proof.
  induction u as [|p u IH]; intros Hu w Hw1 Hw2; [auto|].
  cbn [fold_left]. apply IH.
  - intros q Hq. apply Hu. by apply list_elem_of_further.
  - destruct w as [s ci]. unfold emit. cbn [fst snd] in *.
    destruct (ci <? NUM_BRAILLE_CELLS); cbn [snd]; [|exact Hw1].
    unfold u8. apply Z.mod_pos_bound. lia.
  - destruct w as [s ci]. unfold emit. cbn [fst snd] in *.
    destruct (ci <? NUM_BRAILLE_CELLS); cbn [fst]; [|exact Hw2].
    apply P_setCellPattern6; auto. apply Hu, list_elem_of_here.
Qed.

Lemma preserved_displayText_loop now (text : string) :
  forall s ci nm, 0 <= ci -> P s -> P (fst (displayText_loop now text s ci nm)).
Proof.
  induction text as [|c rest IH]; intros s ci nm Hci H; [exact H|].
  destruct (code c =? 0) eqn:Hnul.
  { cbn [displayText_loop]. rewrite Hnul. exact H. }
  destruct (Z.lt_ge_cases ci NUM_BRAILLE_CELLS) as [Hlt|Hge].
  - rewrite (displayText_loop_step now c rest s ci nm
               (if nm then Some "0"%char else None) Hnul Hlt)
      by (by destruct nm).
    destruct (preserved_emit_all now
                (spec_unit (if nm then Some "0"%char else None) c)
                (fun p Hp => spec_unit_range _ _ p Hp) (s, ci)) as (Hci' & H'); auto.
  - cbn [displayText_loop]. rewrite Hnul.
    destruct (Z.ltb_spec ci NUM_BRAILLE_CELLS); [lia|]. exact H.
Qed.

Lemma preserved_displayText s now text startCell :
  0 <= startCell -> P s -> P (displayText s now text startCell).
Proof.
  intros Hs H. unfold displayText, displayText_run.
  destruct text as [text|]; [|exact H].
  destruct (NUM_BRAILLE_CELLS <=? startCell); [exact H|].
  apply preserved_displayText_loop; [exact Hs|]. by apply P_clearDisplay.
Qed.

Lemma preserved_dot_ops s now c d :
  P s ->
  P (raiseDot s now c d) /\ P (lowerDot s now c d) /\
  P (raiseDotImmediate s now c d) /\ P (lowerDotImmediate s now c d).
Proof.
  intros H. unfold raiseDot, lowerDot, raiseDotImmediate, lowerDotImmediate.
  destruct ((NUM_BRAILLE_CELLS <=? c) || (DOTS_PER_CELL <=? d)); [auto|].
  repeat apply conj; by apply P_setDotState.
Qed.

(** The calls that do not run [enable()]. *)
Lemma preserved_quiet_op s now o :
  op_args_ok o -> op_calls_enable o = false -> P s -> P (run_op s now o).
Proof.
  intros Hargs Hq H.
  destruct o; cbn [op_calls_enable] in Hq; try discriminate Hq;
    cbn [run_op op_args_ok] in *; unfold is_u8 in *.
  - unfold begin. by apply P_clearDisplay.
  - by apply P_disable.
  - by apply P_clearDisplay.
  - apply P_setCellPattern; [lia|exact H].
  - apply preserved_displayText; [lia|exact H].
  - unfold displayChar. destruct (negb _); [exact H|].
    apply P_setCellPattern; [lia|exact H].
  - exact (proj1 (preserved_dot_ops s now _ _ H)).
  - exact (proj1 (proj2 (preserved_dot_ops s now _ _ H))).
  - exact (proj1 (proj2 (proj2 (preserved_dot_ops s now _ _ H)))).
  - exact (proj2 (proj2 (proj2 (preserved_dot_ops s now _ _ H)))).
  - unfold displayMirroredPattern. apply P_setCellPattern; [lia|exact H].
  - rewrite displayMirroredText_eq. apply P_mirrorStoredPatterns.
    apply preserved_displayText; [lia|exact H].
  - by apply P_refresh.
  - unfold update. by apply P_processPendingActions.
Qed.

Lemma preserved_tests s now p :
  P s ->
  P (fst (testAllDots s now)) /\ P (fst (testSequential s now)) /\
  P (fst (testPattern s now p)) /\ P (fst (testBidirectional s now)).
Proof.
  intros H.
  assert (H0 : P (enable (clearDisplay s now) now))
    by (by apply P_enable, P_clearDisplay).
  repeat apply conj.
  - unfold testAllDots.
    apply (fold_left_preserves (fun w => P (fst w))); [|exact H0].
    intros w cell Hw. cbn [fst].
    apply P_setCellPattern; [lia|].
    apply (fold_left_preserves (fun w => P (fst w))); [|exact Hw].
    intros w' dot Hw'. unfold delay. cbn [fst snd].
    apply P_setCellPattern; [lia|exact Hw'].
  - unfold testSequential.
    apply (fold_left_preserves (fun w => P (fst w))); [|exact H0].
    intros w i Hw. cbn [fst]. unfold delay at 1. cbn [fst snd].
    apply P_clearDisplay.
    apply (fold_left_preserves (fun w => P (fst w))); [|exact Hw].
    intros w' cell Hw'. unfold delay. cbn [fst snd].
    apply P_setCellPattern; [lia|exact Hw'].
  - unfold testPattern, delay. cbn [fst snd].
    apply P_clearDisplay.
    apply (fold_left_preserves P); [|exact H0].
    intros a cell Ha. apply P_setCellPattern; [lia|exact Ha].
  - unfold testBidirectional.
    apply (fold_left_preserves (fun w => P (fst w))); [|exact H0].
    intros w cell Hw.
    apply (fold_left_preserves (fun w => P (fst w))); [|exact Hw].
    intros w' dot Hw'. unfold delay. cbn [fst snd].
    destruct (preserved_dot_ops (fst w') (snd w') (Z.of_nat cell) (Z.of_nat dot) Hw')
      as (_ & _ & Hup & _).
    exact (proj2 (proj2 (proj2 (preserved_dot_ops _ (u32 (snd w' + 500))
                                  (Z.of_nat cell) (Z.of_nat dot) Hup)))).
Qed.

Lemma preserved_run_op s now o :
  op_args_ok o -> P s -> P (run_op s now o).
Proof.
  intros Hargs H.
  destruct (op_calls_enable o) eqn:Hq; [|by apply preserved_quiet_op].
  destruct o; cbn [op_calls_enable] in Hq; try discriminate Hq; cbn [run_op].
  - by apply P_enable.
  - exact (proj1 (preserved_tests s now 0 H)).
  - exact (proj1 (proj2 (preserved_tests s now 0 H))).
  - exact (proj1 (proj2 (proj2 (preserved_tests s now pattern H)))).
  - exact (proj2 (proj2 (proj2 (preserved_tests s now 0 H)))).
Qed.

End Preservation.

(** ** A disabled display drives nothing *)

Lemma silent_refresh L T s now : silent L T s -> silent L T (refresh s now).
Proof.
  intros H. destruct (refresh_sink s now) as (_ & Hoff).
  rewrite Hoff; [exact H|apply H].
Qed.

Lemma silent_updateShiftRegisters L T s :
  silent L T s -> silent L T (updateShiftRegisters s).
Proof.
  intros (Hwf & He & Ho & Hl).
  destruct (updateShiftRegisters_frame s) as (_ & _ & He' & _).
  destruct (updateShiftRegisters_sink s) as (Hl' & Ho').
  split; [by apply wf_updateShiftRegisters|].
  split; [congruence|]. split; congruence.
Qed.

Lemma silent_setDotState L T s now d st imm :
  silent L T s -> silent L T (setDotState s now d st imm).
Proof.
  intros H.
  destruct (Z.le_gt_cases TOTAL_DOTS d) as [Hd|Hd].
  { by rewrite setDotState_out_of_range. }
  assert (Hw : forall f, silent L T (with_dotStates (alter f (Z.to_nat d)) s)).
  { intros f. destruct H as (Hwf & He & Ho & Hl). split; [|by repeat split].
    apply wf_with_dotStates; [intros ds; apply length_alter|exact Hwf]. }
  destruct imm.
  - rewrite setDotState_immediate by lia.
    apply silent_refresh, silent_updateShiftRegisters, Hw.
  - rewrite setDotState_deferred by lia. apply Hw.
Qed.

Lemma silent_processPendingActions L T s now :
  silent L T s -> silent L T (processPendingActions s now).
Proof.
  intros H. pose proof H as (Hwf & He & Ho & Hl). pose proof Hwf as (_ & Hd & _).
  rewrite processPendingActions_eq by exact Hd. cbn zeta.
  assert (H1 : silent L T (with_dotStates (fmap (commit_due now)) s)).
  { split; [|by repeat split].
    apply wf_with_dotStates; [intros ds; apply length_fmap | exact Hwf]. }
  destruct (existsb (is_due now) (dotStates s)); [|exact H1].
  pose proof (silent_updateShiftRegisters L T _ H1) as H2.
  destruct (displayEnabled (updateShiftRegisters _)); [|exact H2].
  by apply silent_refresh.
Qed.

Lemma silent_clearDisplay L T s now :
  silent L T s -> silent L T (clearDisplay s now).
Proof.
  intros H. unfold clearDisplay.
  set (s1 := with_cells _ s).
  assert (H1 : silent L T s1).
  { destruct H as (Hwf & He & Ho & Hl). split; [|by repeat split].
    apply wf_with_cells; [|exact Hwf].
    intros cs.
    apply (fold_left_preserves (fun cs' => length cs' = length cs)); [|reflexivity].
    intros a i Ha. by rewrite length_insert. }
  set (s2 := fold_left _ _ s1).
  assert (H2 : silent L T s2).
  { unfold s2. apply fold_left_preserves; [|exact H1].
    intros a i Ha. by apply silent_setDotState. }
  assert (H3 : silent L T (clearShiftRegisters s2)).
  { destruct H2 as (Hwf & He & Ho & Hl). split; [|by repeat split].
    by apply wf_clearShiftRegisters. }
  destruct (displayEnabled (clearShiftRegisters s2)); [|exact H3].
  by apply silent_refresh.
Qed.

Lemma silent_setCellPattern L T s now i p :
  0 <= i -> silent L T s -> silent L T (setCellPattern s now i p).
Proof.
  intros Hi H. pose proof H as (Hwf & He & Ho & Hl). unfold setCellPattern.
  destruct (setCellPattern_timed_frame s now now i p Hwf Hi) as (He' & Hwf' & _).
  destruct (Z.le_gt_cases NUM_BRAILLE_CELLS i) as [Hc|Hc].
  { by rewrite setCellPattern_timed_invalid. }
  split; [exact Hwf'|]. split; [congruence|].
  rewrite setCellPattern_timed_eq by lia. cbn zeta. rewrite He. cbn. auto.
Qed.

Lemma silent_mirrorStoredPatterns L T s now startCell :
  silent L T s -> silent L T (mirrorStoredPatterns s now startCell).
Proof.
  intros H. unfold mirrorStoredPatterns.
  set (s1 := fold_left _ _ s).
  assert (H1 : silent L T s1).
  { unfold s1. apply fold_left_preserves; [|exact H].
    intros a i Ha. destruct (Cell.isActive _); [|exact Ha].
    destruct Ha as (Hwf & He & Ho & Hl). split; [|by repeat split].
    apply wf_with_cells; [intros cs; apply length_alter|exact Hwf]. }
  pose proof (silent_updateShiftRegisters L T _ H1) as H2.
  destruct (displayEnabled (updateShiftRegisters s1)); [|exact H2].
  by apply silent_refresh.
Qed.

Lemma silent_disable L T s : silent L T s -> silent L T (disable s).
Proof.
  intros (Hwf & He & Ho & Hl). unfold silent, disable, with_displayEnabled.
  cbn. auto.
Qed.

(** While the display is disabled, no public call other than [enable]
    and the self-tests (which enable it) shifts anything out: the display
    stays disabled, and the log of the sink and [lastUpdateTime] stay as
    they were. *)
Theorem disabled_display_shifts_nothing (s : BrailleDisplay) (now : Z) (o : Op) :
  wf s -> displayEnabled s = false -> op_args_ok o -> op_calls_enable o = false ->
  displayEnabled (run_op s now o) = false /\
  shiftedOut (run_op s now o) = shiftedOut s /\
  lastUpdateTime (run_op s now o) = lastUpdateTime s.
Proof.
  intros Hwf He Hargs Hq.
  assert (H : silent (shiftedOut s) (lastUpdateTime s) s)
    by (split; [exact Hwf|auto]).
  pose proof (preserved_quiet_op (silent (shiftedOut s) (lastUpdateTime s))
                (silent_refresh _ _) (silent_disable _ _)
                (silent_setDotState _ _) (silent_processPendingActions _ _)
                (silent_clearDisplay _ _)
                (fun s now i p Hi _ => silent_setCellPattern _ _ s now i p Hi)
                (silent_setCellPattern _ _)
                (silent_mirrorStoredPatterns _ _)
                s now o Hargs Hq H) as (_ & H').
  exact H'.
Qed.

Lemma disabled_display_shifts_nothing_witness :
  wf BrailleDisplay_new /\ displayEnabled BrailleDisplay_new = false /\
  op_args_ok (OpRaiseDotImmediate 1 2) /\
  op_calls_enable (OpRaiseDotImmediate 1 2) = false /\
  shiftedOut (run_op BrailleDisplay_new 5 (OpRaiseDotImmediate 1 2)) =
    shiftedOut BrailleDisplay_new.
Proof.
  assert (He : displayEnabled BrailleDisplay_new = false) by reflexivity.
  assert (Ha : op_args_ok (OpRaiseDotImmediate 1 2))
    by (cbn; unfold is_u8; lia).
  assert (Hq : op_calls_enable (OpRaiseDotImmediate 1 2) = false) by reflexivity.
  pose proof (disabled_display_shifts_nothing BrailleDisplay_new 5
                (OpRaiseDotImmediate 1 2) wf_new He Ha Hq) as (_ & Hso & _).
  split; [exact wf_new|]. split; [exact He|]. split; [exact Ha|].
  split; [exact Hq|]. exact Hso.
Defined.

(** ** Stored patterns fit six bits *)

Lemma land_0x3F_range (p : Z) : 0 <= Z.land p 0x3F <= 0x3F.
Proof.
  change 0x3F with (Z.ones 6). rewrite Z.land_ones by lia.
  pose proof (Z.mod_pos_bound p (2 ^ 6)) as H.
  change (2 ^ 6) with 64 in *. change (Z.ones 6) with 63. lia.
Qed.

Lemma patterns_6bit_same_cells s s' :
  wf s' -> cells s' = cells s -> patterns_6bit s -> patterns_6bit s'.
Proof. intros Hwf Hc (_ & H). split; [exact Hwf|]. by rewrite Hc. Qed.

Lemma patterns_6bit_refresh s now : patterns_6bit s -> patterns_6bit (refresh s now).
Proof.
  intros H. apply (patterns_6bit_same_cells s); [apply wf_refresh, H| |exact H].
  apply refresh_frame.
Qed.

Lemma patterns_6bit_updateShiftRegisters s :
  patterns_6bit s -> patterns_6bit (updateShiftRegisters s).
Proof.
  intros H.
  apply (patterns_6bit_same_cells s); [apply wf_updateShiftRegisters, H| |exact H].
  apply updateShiftRegisters_frame.
Qed.

Lemma patterns_6bit_enable s now : patterns_6bit s -> patterns_6bit (enable s now).
Proof.
  intros H. unfold enable. apply patterns_6bit_refresh.
  apply (patterns_6bit_same_cells s); [apply H|reflexivity|exact H].
Qed.

Lemma patterns_6bit_disable s : patterns_6bit s -> patterns_6bit (disable s).
Proof.
  intros H. apply (patterns_6bit_same_cells s); [apply H|reflexivity|exact H].
Qed.

Lemma patterns_6bit_setDotState s now d st imm :
  patterns_6bit s -> patterns_6bit (setDotState s now d st imm).
Proof.
  intros H. destruct (setDotState_frame s now d st imm) as (Hc & _ & Hwf).
  apply (patterns_6bit_same_cells s); [apply Hwf, H|exact Hc|exact H].
Qed.

Lemma patterns_6bit_processPendingActions s now :
  patterns_6bit s -> patterns_6bit (processPendingActions s now).
Proof.
  intros H. destruct (processPendingActions_frame s now (proj1 H)) as (Hc & _ & _ & Hwf).
  apply (patterns_6bit_same_cells s); [exact Hwf|exact Hc|exact H].
Qed.

Lemma patterns_6bit_clearDisplay s now :
  patterns_6bit s -> patterns_6bit (clearDisplay s now).
Proof.
  intros (Hwf & _).
  destruct (clearDisplay_spec s now Hwf) as (Hwf' & _ & Hc & _).
  split; [exact Hwf'|]. rewrite Hc. apply Forall_replicate. cbn. lia.
Qed.

Lemma patterns_6bit_setCellPattern s now i p :
  0 <= i -> patterns_6bit s -> patterns_6bit (setCellPattern s now i p).
Proof.
  intros Hi (Hwf & H). unfold setCellPattern.
  destruct (setCellPattern_timed_frame s now now i p Hwf Hi) as (_ & Hwf' & Hc).
  destruct (Z.le_gt_cases NUM_BRAILLE_CELLS i) as [Hge|Hlt].
  { rewrite setCellPattern_timed_invalid by exact Hge. by split. }
  split; [exact Hwf'|]. rewrite Hc by lia.
  apply Forall_insert; [exact H|]. cbn. apply land_0x3F_range.
Qed.

Lemma patterns_6bit_mirrorStoredPatterns s now startCell :
  patterns_6bit s -> patterns_6bit (mirrorStoredPatterns s now startCell).
Proof.
  intros H. unfold mirrorStoredPatterns.
  set (s1 := fold_left _ _ s).
  assert (H1 : patterns_6bit s1).
  { unfold s1. apply fold_left_preserves; [|exact H].
    intros a i (Hwf & Ha). destruct (Cell.isActive _); [|by split].
    split; [apply wf_with_cells; [intros cs; apply length_alter|exact Hwf]|].
    cbn [cells with_cells]. apply Forall_alter; [exact Ha|].
    intros c _ Hc. cbn.
    apply (mirrorBraillePattern_byte_facts (Cell.pattern c)). lia. }
  pose proof (patterns_6bit_updateShiftRegisters _ H1) as H2.
  destruct (displayEnabled (updateShiftRegisters s1)); [|exact H2].
  by apply patterns_6bit_refresh.
Qed.

Lemma patterns_6bit_new : patterns_6bit BrailleDisplay_new.
Proof.
  split; [exact wf_new|].
  change (cells BrailleDisplay_new) with (replicate 10 (blank_cell 0 false)).
  apply Forall_replicate. cbn. lia.
Qed.

(** In every reachable state every cell's stored pattern fits six bits:
    [getCellPattern] never returns a value above 0x3F, whatever byte was
    passed to [setCellPattern] and whatever was mirrored. *)
Theorem reachable_patterns_6bit (s : BrailleDisplay) (i : Z) :
  reachable s -> 0 <= getCellPattern s i <= 0x3F.
Proof.
  intros Hr.
  assert (H : patterns_6bit s).
  { induction Hr as [|s now o Hr IH Hnow Hargs]; [exact patterns_6bit_new|].
    apply (preserved_run_op patterns_6bit
             patterns_6bit_refresh patterns_6bit_enable patterns_6bit_disable
             patterns_6bit_setDotState patterns_6bit_processPendingActions
             patterns_6bit_clearDisplay
             (fun s now i p Hi _ => patterns_6bit_setCellPattern s now i p Hi)
             patterns_6bit_setCellPattern patterns_6bit_mirrorStoredPatterns
             s now o Hargs IH). }
  destruct H as (Hwf & Hall).
  unfold getCellPattern, cell_at.
  destruct (negb (isValidBrailleCell i)); [lia|].
  destruct (cells s !! Z.to_nat i) as [c|] eqn:Hc; cbn; [|lia].
  rewrite Forall_lookup in Hall. exact (Hall _ _ Hc).
Qed.

Lemma reachable_patterns_6bit_witness :
  reachable (run_op BrailleDisplay_new 0 (OpSetCellPattern 3 0xFF)) /\
  0 <= getCellPattern (run_op BrailleDisplay_new 0 (OpSetCellPattern 3 0xFF)) 3 <= 0x3F.
Proof.
  assert (Hr : reachable (run_op BrailleDisplay_new 0 (OpSetCellPattern 3 0xFF))).
  { apply reachable_op; [apply reachable_new|unfold is_u32; lia|].
    cbn. unfold is_u8. lia. }
  split; [exact Hr|]. exact (reachable_patterns_6bit _ 3 Hr).
Defined.

(** ** [displayMirroredText] *)

Lemma fold_left_seq_shift {A : Type} (f : A -> nat -> A) (a n : nat) (x : A) :
  fold_left f (seq a n) x = fold_left (fun x k => f x (a + k)%nat) (seq 0 n) x.
Proof.
  induction n as [|n IH]; [reflexivity|].
  rewrite !seq_S, !fold_left_app, IH. reflexivity.
Qed.

Lemma fold_left_with_cells {B : Type} (F : B -> list BrailleCell -> list BrailleCell)
    (l : list B) (s : BrailleDisplay) :
  fold_left (fun s k => with_cells (F k) s) l s =
  with_cells (fun cs => fold_left (fun cs k => F k cs) l cs) s.
Proof.
  revert s. induction l as [|k l IH]; intros s.
  - by destruct s.
  - cbn. by rewrite IH.
Qed.

(** One step of the mirroring loop rewrites cell [i] with [mirror_cell]. *)
Lemma mirror_step_eq (s : BrailleDisplay) (i : nat) :
  (if Cell.isActive (cell_at s (Z.of_nat i)) then
     with_cells
       (alter (fun c => Cell.mk (mirrorBraillePattern (Cell.pattern c))
                                (Cell.currentState c) (Cell.isActive c)
                                (Cell.updateTime c) (Cell.needsUpdate c)) i) s
   else s) =
  with_cells (alter mirror_cell i) s.
Proof.
  unfold cell_at. rewrite Nat2Z.id.
  destruct (cells s !! i) as [c|] eqn:Hc; cbn [default from_option id].
  - destruct (Cell.isActive c) eqn:Ha.
    + unfold with_cells. f_equal. apply list_alter_ext; [|reflexivity].
      intros x Hx. rewrite Hc in Hx. injection Hx as <-.
      unfold mirror_cell. by rewrite Ha.
    + destruct s as [cs ds rs en lu so]. unfold with_cells. cbn in *. f_equal.
      apply list_eq. intros j. rewrite list_lookup_alter.
      case_decide; [subst|reflexivity].
      rewrite Hc. cbn. unfold mirror_cell. by rewrite Ha.
  - cbn. destruct s as [cs ds rs en lu so]. unfold with_cells. cbn in *. f_equal.
    apply list_eq. intros j. rewrite list_lookup_alter.
    case_decide; [subst|reflexivity]. by rewrite Hc.
Qed.

(** The cells and dots after the mirroring part of [displayMirroredText]. *)
Lemma mirrorStoredPatterns_frame s now startCell :
  wf s -> 0 <= startCell ->
  wf (mirrorStoredPatterns s now startCell) /\
  dotStates (mirrorStoredPatterns s now startCell) = dotStates s /\
  serialized (mirrorStoredPatterns s now startCell) /\
  forall j : nat,
    cells (mirrorStoredPatterns s now startCell) !! j =
    if decide (Z.to_nat startCell <= j < 10)%nat
    then mirror_cell <$> cells s !! j else cells s !! j.
Proof.
  intros Hwf Hs. unfold mirrorStoredPatterns.
  rewrite (fold_left_ext_in _ (fun s i => with_cells (alter mirror_cell i) s))
    by (intros a i _; apply mirror_step_eq).
  rewrite fold_left_seq_shift.
  rewrite (fold_left_with_cells
             (fun k => alter mirror_cell (Z.to_nat startCell + k)%nat)).
  set (s1 := with_cells _ s).
  assert (Hcells : forall j : nat,
            cells s1 !! j =
            if decide (Z.to_nat startCell <= j < 10)%nat
            then mirror_cell <$> cells s !! j else cells s !! j).
  { intros j. unfold s1. cbn [cells with_cells].
    rewrite (fold_left_alter_range (fun _ => mirror_cell)).
    change (Z.to_nat NUM_BRAILLE_CELLS) with 10%nat.
    destruct (decide (Z.to_nat startCell <= j < 10)%nat) as [Hj|Hj].
    - rewrite decide_True by lia. reflexivity.
    - rewrite decide_False by lia. reflexivity. }
  assert (Hwf1 : wf s1).
  { apply wf_with_cells; [|exact Hwf]. intros cs. apply length_fold_alter. }
  pose proof (updateShiftRegisters_serialized s1 Hwf1) as Hser.
  destruct (updateShiftRegisters_frame s1) as (Hc & Hd & _).
  pose proof (wf_updateShiftRegisters s1 Hwf1) as Hwf2.
  destruct (displayEnabled (updateShiftRegisters s1)).
  - destruct (refresh_frame (updateShiftRegisters s1) now) as (Hc' & Hd' & Hr' & _).
    split; [by apply wf_refresh|]. split; [by rewrite Hd', Hd|].
    split; [exact (serialized_ext _ _ Hd' Hr' Hser)|].
    intros j. rewrite Hc', Hc. apply Hcells.
  - split; [exact Hwf2|]. split; [exact Hd|]. split; [exact Hser|].
    intros j. rewrite Hc. apply Hcells.
Qed.

Lemma active_ok_setCellPattern6 s now i p :
  0 <= i -> 0 <= p <= 0x3F -> active_ok s -> active_ok (setCellPattern s now i p).
Proof.
  intros Hi Hp (Hwf & H). unfold setCellPattern.
  destruct (setCellPattern_timed_frame s now now i p Hwf Hi) as (_ & Hwf' & Hc).
  destruct (Z.le_gt_cases NUM_BRAILLE_CELLS i) as [Hge|Hlt].
  { rewrite setCellPattern_timed_invalid by exact Hge. by split. }
  split; [exact Hwf'|]. rewrite Hc by lia.
  apply Forall_insert; [exact H|]. cbn.
  change 0x3F with (Z.ones 6). rewrite Z.land_ones by lia.
  rewrite Z.mod_small by (change (2 ^ 6) with 64; lia). reflexivity.
Qed.

Lemma active_ok_displayText s now (text : string) startCell :
  wf s -> 0 <= startCell < NUM_BRAILLE_CELLS ->
  active_ok (displayText s now (Some text) startCell).
Proof.
  intros Hwf Hs. unfold displayText, displayText_run.
  destruct (Z.leb_spec NUM_BRAILLE_CELLS startCell); [lia|].
  apply (preserved_displayText_loop active_ok active_ok_setCellPattern6); [lia|].
  destruct (clearDisplay_spec s now Hwf) as (Hwf' & _ & Hc & _).
  split; [exact Hwf'|]. rewrite Hc. apply Forall_replicate. reflexivity.
Qed.

(** [displayMirroredText] leaves in every cell the mirror image of the
    pattern [displayText] stores there, but the dots are exactly those
    [displayText] scheduled: the mirrored patterns reach the stored cells
    only, never the actuators.  The buffer is re-serialized. *)
Theorem displayMirroredText_spec (s : BrailleDisplay) (now : Z) (text : string)
    (startCell : Z) :
  wf s -> 0 <= startCell < NUM_BRAILLE_CELLS ->
  let s1 := displayText s now (Some text) startCell in
  let s2 := displayMirroredText s now (Some text) startCell in
  (forall j, 0 <= j < NUM_BRAILLE_CELLS ->
     getCellPattern s2 j = mirrorBraillePattern (getCellPattern s1 j)) /\
  dotStates s2 = dotStates s1 /\
  serialized s2.
Proof.
  intros Hwf Hs s1 s2.
  destruct (active_ok_displayText s now text startCell Hwf Hs) as (Hwf1 & Hact).
  fold s1 in Hwf1, Hact.
  assert (Hs2 : s2 = mirrorStoredPatterns s1 now startCell)
    by apply displayMirroredText_eq.
  destruct (mirrorStoredPatterns_frame s1 now startCell Hwf1) as (_ & Hd & Hser & Hc);
    [lia|].
  rewrite <- Hs2 in Hd, Hser, Hc.
  split; [|split; [exact Hd|exact Hser]].
  intros j Hj.
  pose proof (cell_lookup_at s1 j Hwf1 Hj) as Hl1.
  assert (Hok : Cell.isActive (cell_at s1 j) = negb (Cell.pattern (cell_at s1 j) =? 0)).
  { rewrite Forall_lookup in Hact. exact (Hact _ _ Hl1). }
  assert (Hm : Cell.pattern (mirror_cell (cell_at s1 j)) =
               mirrorBraillePattern (Cell.pattern (cell_at s1 j))).
  { unfold mirror_cell. destruct (Cell.isActive (cell_at s1 j)) eqn:Ha; [reflexivity|].
    symmetry in Hok. apply negb_false_iff, Z.eqb_eq in Hok. rewrite Hok. reflexivity. }
  assert (Hg : forall a, getCellPattern a j = Cell.pattern (cell_at a j)).
  { intros a. unfold getCellPattern, isValidBrailleCell.
    destruct (Z.ltb_spec j NUM_BRAILLE_CELLS); [reflexivity|lia]. }
  rewrite !Hg.
  assert (H2 : cell_at s2 j =
               if decide (Z.to_nat startCell <= Z.to_nat j < 10)%nat
               then mirror_cell (cell_at s1 j) else cell_at s1 j).
  { apply cell_at_lookup. rewrite Hc, Hl1. by case_decide. }
  rewrite H2. case_decide as Hin; [exact Hm|].
  (* a cell before [startCell] is blank after [displayText] *)
  destruct (displayText_run_spec s now text startCell Hwf Hs) as (_ & _ & Hp & _).
  fold (displayText s now (Some text) startCell) in Hp. fold s1 in Hp.
  pose proof (getCellPattern_write_from s1 startCell _ j Hp) as Hblank.
  rewrite Hg in Hblank. rewrite Hblank by lia.
  destruct (Z.leb_spec startCell j); [unfold NUM_BRAILLE_CELLS in *; lia|].
  reflexivity.
Qed.

Lemma displayMirroredText_spec_witness :
  wf BrailleDisplay_new /\ 0 <= 2 < NUM_BRAILLE_CELLS /\
  dotStates (displayMirroredText BrailleDisplay_new 0 (Some "dog"%string) 2) =
  dotStates (displayText BrailleDisplay_new 0 (Some "dog"%string) 2).
Proof.
  assert (H2 : 0 <= 2 < NUM_BRAILLE_CELLS) by (unfold NUM_BRAILLE_CELLS; lia).
  pose proof (displayMirroredText_spec BrailleDisplay_new 0 "dog"%string 2 wf_new H2) as H.
  cbv zeta in H. destruct H as (_ & Hd & _).
  split; [exact wf_new|]. split; [exact H2|]. exact Hd.
Defined.

(** ** The frames that reach the shift registers *)

Lemma frame_safe_buffer s : buffer_inv s -> frame_safe (rev (shiftRegisterData s)).
Proof.
  intros (_ & H) d Hd. unfold frame_bit. rewrite rev_involutive.
  fold (output_bit s (2 * d)). fold (output_bit s (2 * d + 1)).
  destruct H as [Hc|Hs].
  - rewrite !output_bit_cleared by exact Hc. intros (? & _). discriminate.
  - destruct (Hs d Hd) as (-> & ->).
    destruct (Dot.currentState (dot_at s d)); intros (? & ?); discriminate.
Qed.

Lemma frames_safe_step s s' :
  buffer_inv s' -> shiftedOut s' = shiftedOut s -> frames_safe s -> frames_safe s'.
Proof. intros Hb Ho (_ & Hf). split; [exact Hb|]. by rewrite Ho. Qed.

Lemma frames_safe_refresh s now : frames_safe s -> frames_safe (refresh s now).
Proof.
  intros (Hb & Hf). split; [by apply buffer_inv_refresh|].
  unfold refresh. destruct (displayEnabled s); cbn; [|exact Hf].
  apply Forall_cons. split; [by apply frame_safe_buffer|exact Hf].
Qed.

Lemma frames_safe_gate s now :
  frames_safe s -> frames_safe (if displayEnabled s then refresh s now else s).
Proof. intros H. destruct (displayEnabled s); [by apply frames_safe_refresh|exact H]. Qed.

Lemma frames_safe_updateShiftRegisters s :
  frames_safe s -> frames_safe (updateShiftRegisters s).
Proof.
  intros H. apply (frames_safe_step s); [|apply updateShiftRegisters_sink|exact H].
  apply buffer_inv_updateShiftRegisters, H.
Qed.

Lemma frames_safe_enable s now : frames_safe s -> frames_safe (enable s now).
Proof.
  intros H. unfold enable. apply frames_safe_refresh.
  apply (frames_safe_step s); [|reflexivity|exact H].
  apply buffer_inv_with_displayEnabled, H.
Qed.

Lemma frames_safe_disable s : frames_safe s -> frames_safe (disable s).
Proof.
  intros H. apply (frames_safe_step s); [|reflexivity|exact H].
  unfold disable. apply buffer_inv_with_displayEnabled, H.
Qed.

Lemma frames_safe_setDotState s now d st imm :
  frames_safe s -> frames_safe (setDotState s now d st imm).
Proof.
  intros H.
  destruct (Z.le_gt_cases TOTAL_DOTS d) as [Hd|Hd].
  { by rewrite setDotState_out_of_range. }
  assert (Hw : forall f, (forall x, Dot.currentState (f x) = Dot.currentState x) ->
                 frames_safe (with_dotStates (alter f (Z.to_nat d)) s)).
  { intros f Hf. apply (frames_safe_step s); [|reflexivity|exact H].
    apply (buffer_inv_quiet s); [| |reflexivity|apply H].
    - apply wf_with_dotStates; [intros ds; apply length_alter|apply H].
    - unfold levels. cbn. by apply fmap_alter_same. }
  destruct imm.
  - rewrite setDotState_immediate by lia.
    apply frames_safe_refresh.
    set (s1 := with_dotStates _ s).
    apply (frames_safe_step s); [| |exact H].
    + apply buffer_inv_updateShiftRegisters.
      apply wf_with_dotStates; [intros ds; apply length_alter|apply H].
    + by destruct (updateShiftRegisters_sink s1) as (_ & ->).
  - rewrite setDotState_deferred by lia. apply Hw. reflexivity.
Qed.

Lemma frames_safe_processPendingActions s now :
  frames_safe s -> frames_safe (processPendingActions s now).
Proof.
  intros H. pose proof H as ((Hwf & _) & _). pose proof Hwf as (_ & Hd & _).
  pose proof (buffer_inv_processPendingActions s now (proj1 H)) as Hb.
  rewrite processPendingActions_eq in * by exact Hd. cbn zeta in *.
  set (s1 := with_dotStates (fmap (commit_due now)) s) in *.
  assert (Hwf1 : wf s1)
    by (apply wf_with_dotStates; [intros ds; apply length_fmap | exact Hwf]).
  destruct (existsb (is_due now) (dotStates s)).
  - apply frames_safe_gate.
    apply (frames_safe_step s); [| |exact H].
    + by apply buffer_inv_updateShiftRegisters.
    + by destruct (updateShiftRegisters_sink s1) as (_ & ->).
  - apply (frames_safe_step s); [exact Hb|reflexivity|exact H].
Qed.

Lemma frames_safe_clearDisplay s now :
  frames_safe s -> frames_safe (clearDisplay s now).
Proof.
  intros H. pose proof H as ((Hwf & _) & _). unfold clearDisplay.
  set (s1 := with_cells _ s).
  set (s2 := fold_left _ _ s1).
  assert (H2 : wf s2 /\ shiftedOut s2 = shiftedOut s).
  { unfold s2.
    apply (fold_left_preserves (fun a => wf a /\ shiftedOut a = shiftedOut s)).
    - intros a i (Hwa & Hoa). split; [by apply setDotState_frame|].
      destruct (Z.le_gt_cases TOTAL_DOTS (Z.of_nat i)) as [Hi|Hi].
      + by rewrite setDotState_out_of_range.
      + rewrite setDotState_deferred by lia. exact Hoa.
    - split; [|reflexivity].
      apply wf_with_cells; [|exact Hwf]. intros cs.
      apply (fold_left_preserves (fun cs' => length cs' = length cs)); [|reflexivity].
      intros a i Ha. by rewrite length_insert. }
  destruct H2 as (Hwf2 & Ho2).
  apply frames_safe_gate.
  apply (frames_safe_step s); [|exact Ho2|exact H].
  split; [by apply wf_clearShiftRegisters|]. left.
  apply clearShiftRegisters_data, Hwf2.
Qed.

Lemma frames_safe_setCellPattern s now i p :
  0 <= i -> frames_safe s -> frames_safe (setCellPattern s now i p).
Proof.
  intros Hi H. pose proof H as ((Hwf & _) & _). unfold setCellPattern.
  destruct (Z.le_gt_cases NUM_BRAILLE_CELLS i) as [Hc|Hc].
  { by rewrite setCellPattern_timed_invalid. }
  rewrite setCellPattern_timed_eq by lia. cbn zeta.
  set (s1 := mkDisplay _ _ _ _ _ _).
  assert (H1 : frames_safe s1).
  { apply (frames_safe_step s); [|reflexivity|exact H].
    apply (buffer_inv_quiet s); [| |reflexivity|apply H].
    - destruct Hwf as (Hcs & Hds & Hrs). unfold wf, s1.
      cbn [cells dotStates shiftRegisterData].
      rewrite length_alter, length_fold_alter. auto.
    - unfold levels, s1. cbn [dotStates]. apply levels_fold_schedule. }
  destruct (displayEnabled s); [|exact H1].
  by apply frames_safe_processPendingActions.
Qed.

Lemma frames_safe_mirrorStoredPatterns s now startCell :
  frames_safe s -> frames_safe (mirrorStoredPatterns s now startCell).
Proof.
  intros H. unfold mirrorStoredPatterns.
  set (s1 := fold_left _ _ s).
  assert (H1 : frames_safe s1).
  { unfold s1. apply fold_left_preserves; [|exact H].
    intros a i Ha. destruct (Cell.isActive _); [|exact Ha].
    apply (frames_safe_step a); [|reflexivity|exact Ha].
    apply buffer_inv_with_cells; [intros cs; apply length_alter|apply Ha]. }
  apply frames_safe_gate. by apply frames_safe_updateShiftRegisters.
Qed.

(** Whatever sequence of public calls is made, no frame ever shifted out
    to the registers drives both the raise and the retract output of a
    dot. *)
Theorem reachable_frames_safe (s : BrailleDisplay) (frame : list Z) (d : Z) :
  reachable s -> frame ∈ shiftedOut s -> 0 <= d < TOTAL_DOTS ->
  ~ (frame_bit frame (2 * d) = true /\ frame_bit frame (2 * d + 1) = true).
Proof.
  intros Hr Hin Hd.
  assert (H : frames_safe s).
  { clear Hin. induction Hr as [|s now o Hr IH Hnow Hargs].
    - split; [exact buffer_inv_new|]. apply Forall_nil_2.
    - apply (preserved_run_op frames_safe
               frames_safe_refresh frames_safe_enable frames_safe_disable
               frames_safe_setDotState frames_safe_processPendingActions
               frames_safe_clearDisplay
               (fun s now i p Hi _ => frames_safe_setCellPattern s now i p Hi)
               frames_safe_setCellPattern frames_safe_mirrorStoredPatterns
               s now o Hargs IH). }
  destruct H as (_ & Hall). rewrite Forall_forall in Hall.
  exact (Hall frame Hin d Hd).
Qed.

Lemma reachable_frames_safe_witness :
  reachable (run_op example_enabled 7 (OpRaiseDotImmediate 0 0)) /\
  rev (shiftRegisterData (run_op example_enabled 7 (OpRaiseDotImmediate 0 0)))
    ∈ shiftedOut (run_op example_enabled 7 (OpRaiseDotImmediate 0 0)) /\
  0 <= 0 < TOTAL_DOTS /\
  ~ (frame_bit (rev (shiftRegisterData
                       (run_op example_enabled 7 (OpRaiseDotImmediate 0 0)))) (2 * 0) = true /\
     frame_bit (rev (shiftRegisterData
                       (run_op example_enabled 7 (OpRaiseDotImmediate 0 0)))) (2 * 0 + 1) = true).
Proof.
  assert (Hr : reachable (run_op example_enabled 7 (OpRaiseDotImmediate 0 0))).
  { apply reachable_op; [|unfold is_u32; lia|cbn; unfold is_u8; lia].
    apply (reachable_op BrailleDisplay_new 0 OpEnable);
      [apply reachable_new|unfold is_u32; lia|exact I]. }
  assert (Hin : rev (shiftRegisterData (run_op example_enabled 7 (OpRaiseDotImmediate 0 0)))
                  ∈ shiftedOut (run_op example_enabled 7 (OpRaiseDotImmediate 0 0))).
  { vm_compute. apply list_elem_of_here. }
  assert (Hd : 0 <= 0 < TOTAL_DOTS) by (change TOTAL_DOTS with 60; lia).
  split; [exact Hr|]. split; [exact Hin|]. split; [exact Hd|].
  exact (reachable_frames_safe _ _ 0 Hr Hin Hd).
Defined.

(** ** [setCellPattern] is local *)

(** [setCellPattern] on a valid cell writes that cell only, and schedules
    the six dots of that cell only: every other cell is untouched, and
    every dot outside the cell keeps its target and its schedule, being at
    most committed by the closing [processPendingActions] if the display
    is enabled and the dot was due. *)
Theorem setCellPattern_local (s : BrailleDisplay) (now c p : Z) :
  wf s -> 0 <= c < NUM_BRAILLE_CELLS ->
  let s' := setCellPattern s now c p in
  (forall j, 0 <= j < NUM_BRAILLE_CELLS -> j <> c -> cell_at s' j = cell_at s j) /\
  (forall e, 0 <= e < TOTAL_DOTS -> e / 6 <> c ->
     dot_at s' e = if displayEnabled s then commit_due now (dot_at s e) else dot_at s e) /\
  displayEnabled s' = displayEnabled s.
Proof.
  intros Hwf Hc s'. split; [|split].
  - intros j Hj Hne. unfold s'. apply cell_at_setCellPattern_other; auto; lia.
  - intros e He Hne. unfold s', setCellPattern.
    rewrite setCellPattern_timed_eq by exact Hc. cbn zeta.
    set (s1 := mkDisplay _ _ _ _ _ _).
    assert (Hwf1 : wf s1).
    { destruct Hwf as (Hcs & Hds & Hrs). unfold wf, s1.
      cbn [cells dotStates shiftRegisterData].
      rewrite length_alter, length_fold_alter. auto. }
    assert (H1 : dot_at s1 e = dot_at s e).
    { unfold dot_at, s1. cbn [dotStates].
      rewrite fold_left_alter_range. rewrite decide_False; [reflexivity|].
      intros (Hlo & Hhi). apply Hne.
      unfold NUM_BRAILLE_CELLS in Hc.
      symmetry. apply (Z.div_unique e 6 c (e - 6 * c)); lia. }
    destruct (displayEnabled s).
    + rewrite dot_at_processPendingActions by auto. by rewrite H1.
    + exact H1.
  - unfold s', setCellPattern.
    destruct (setCellPattern_timed_frame s now now c p Hwf) as (He & _); [lia|].
    exact He.
Qed.

Lemma setCellPattern_local_witness :
  wf example_pending /\ 0 <= 5 < NUM_BRAILLE_CELLS /\
  displayEnabled (setCellPattern example_pending 20 5 0x15) =
    displayEnabled example_pending.
Proof.
  assert (Hc : 0 <= 5 < NUM_BRAILLE_CELLS) by (unfold NUM_BRAILLE_CELLS; lia).
  pose proof (setCellPattern_local example_pending 20 5 0x15 wf_example_pending Hc) as H.
  cbv zeta in H. destruct H as (_ & _ & He).
  split; [exact wf_example_pending|]. split; [exact Hc|]. exact He.
Defined.

(** ** [charToBraille] *)

(** For every character, [charToBraille] answers with a 6-bit pattern that
    is neither the CAPITAL-SIGN nor the NUMBER-SIGN, so the prefix cells of
    [displayText] cannot be mistaken for a character; letters and digits
    never map to the blank cell, and two different lowercase letters, or
    two different digits, never share a pattern. *)
Theorem charToBraille_facts (c1 c2 : ascii) :
  0 <= charToBraille c1 <= 0x3F /\
  charToBraille c1 <> BRAILLE_CAPITAL_SIGN /\
  charToBraille c1 <> BRAILLE_NUMBER_SIGN /\
  (is_lower c1 || is_upper c1 || is_digit c1 = true -> charToBraille c1 <> 0) /\
  (is_lower c1 = true -> is_lower c2 = true ->
   charToBraille c1 = charToBraille c2 -> c1 = c2) /\
  (is_digit c1 = true -> is_digit c2 = true ->
   charToBraille c1 = charToBraille c2 -> c1 = c2).
Proof.
  assert (Hone : forall c,
            negb (charToBraille c =? BRAILLE_CAPITAL_SIGN) &&
            negb (charToBraille c =? BRAILLE_NUMBER_SIGN) &&
            implb (is_lower c || is_upper c || is_digit c)
                  (negb (charToBraille c =? 0)) = true).
  { intros c. destruct c as [[] [] [] [] [] [] [] []]; vm_compute; reflexivity. }
  assert (Hcls : forall c (lo : ascii) (n : Z), in_range lo (char_of (code lo + n)) c = true ->
            0 <= n < 200 -> code lo + n < 256 ->
            c = char_of (code lo + (code c - code lo)) /\ 0 <= code c - code lo <= n).
  { intros c lo n Hin Hn Hlt. unfold in_range in Hin.
    apply andb_prop in Hin as (H1 & H2). apply Z.leb_le in H1, H2.
    assert (Hcode : forall z, 0 <= z < 256 -> code (char_of z) = z).
    { intros z Hz. unfold code, char_of.
      rewrite N_ascii_embedding by (apply N2Z.inj_lt; rewrite Z2N.id by lia; lia).
      apply Z2N.id. lia. }
    assert (Hlo : 0 <= code lo) by (unfold code; lia).
    rewrite Hcode in H2 by lia.
    split; [|lia].
    replace (code lo + (code c - code lo)) with (code c) by lia.
    unfold char_of, code. by rewrite N2Z.id, ascii_N_embedding. }
  assert (Hinj : forall (lo : ascii) (n : Z) a b,
            0 <= n < 200 -> code lo + n < 256 ->
            forallb (fun i => forallb (fun j =>
                       implb (charToBraille (char_of (code lo + i)) =?
                              charToBraille (char_of (code lo + j))) (i =? j))
                     (Z.of_nat <$> seq 0 (Z.to_nat (n + 1))))
                    (Z.of_nat <$> seq 0 (Z.to_nat (n + 1))) = true ->
            in_range lo (char_of (code lo + n)) a = true ->
            in_range lo (char_of (code lo + n)) b = true ->
            charToBraille a = charToBraille b -> a = b).
  { intros lo n a b Hn Hlt Hchk Ha Hb Heq.
    destruct (Hcls a lo n Ha Hn Hlt) as (Ea & Ra).
    destruct (Hcls b lo n Hb Hn Hlt) as (Eb & Rb).
    pose proof (forallb_below _ _ Hchk (code a - code lo)) as H1.
    cbv beta in H1. rewrite Z2Nat.id in H1 by lia. specialize (H1 ltac:(lia)).
    pose proof (forallb_below _ _ H1 (code b - code lo)) as H2.
    cbv beta in H2. rewrite Z2Nat.id in H2 by lia. specialize (H2 ltac:(lia)).
    rewrite <- Ea, <- Eb, Heq, Z.eqb_refl in H2. cbn in H2.
    apply Z.eqb_eq in H2. rewrite Ea, Eb. f_equal. lia. }
  pose proof (Hone c1) as H1.
  apply andb_prop in H1 as (H1 & Hnz). apply andb_prop in H1 as (Hcap & Hnum).
  apply negb_true_iff, Z.eqb_neq in Hcap, Hnum.
  split; [apply charToBraille_range|]. split; [exact Hcap|]. split; [exact Hnum|].
  split; [|split].
  - intros Hcl. rewrite Hcl in Hnz. cbn in Hnz.
    by apply negb_true_iff, Z.eqb_neq in Hnz.
  - apply (Hinj "a"%char 25); [lia|vm_compute; reflexivity|vm_compute; reflexivity].
  - apply (Hinj "0"%char 9); [lia|vm_compute; reflexivity|vm_compute; reflexivity].
Qed.

Lemma charToBraille_facts_witness :
  is_lower "k" || is_upper "k" || is_digit "k" = true /\ charToBraille "k" <> 0.
Proof.
  assert (Hc : is_lower "k" || is_upper "k" || is_digit "k" = true) by reflexivity.
  destruct (charToBraille_facts "k" "k") as (_ & _ & _ & Hnz & _).
  split; [exact Hc|exact (Hnz Hc)].
Defined.

(** ** When the buffer is serialized *)











(** ** Index bounds *)

(** Every public entry point that takes a cell or dot index, except
    [displayMirroredText], leaves the display untouched when the index is
    out of range, and the getters answer 0; [displayText] also returns at
    once on a null text.  [displayMirroredText] is the exception: with
    [startCell] out of range, whatever the text, it changes no cell and no
    dot but still rebuilds the output buffer and, when the display is
    enabled, shifts it out, so that on an enabled display it is not a
    no-op; with a null text it runs its mirroring pass over the cells
    already stored. *)
Theorem out_of_range_is_noop (s : BrailleDisplay) (now : Z) :
  (forall i p, NUM_BRAILLE_CELLS <= i ->
     setCellPattern s now i p = s /\ displayMirroredPattern s now i p = s /\
     getCellPattern s i = 0 /\ getCurrentCellState s i = 0) /\
  (forall c i, NUM_BRAILLE_CELLS <= i -> displayChar s now c i = s) /\
  (forall c d, NUM_BRAILLE_CELLS <= c \/ DOTS_PER_CELL <= d ->
     raiseDot s now c d = s /\ lowerDot s now c d = s /\
     raiseDotImmediate s now c d = s /\ lowerDotImmediate s now c d = s) /\
  (forall d st imm, TOTAL_DOTS <= d -> setDotState s now d st imm = s) /\
  (forall text startCell, NUM_BRAILLE_CELLS <= startCell ->
     displayText s now text startCell = s) /\
  (forall startCell, displayText s now None startCell = s) /\
  (forall text startCell, NUM_BRAILLE_CELLS <= startCell ->
     displayMirroredText s now text startCell =
       (if displayEnabled s then refresh (updateShiftRegisters s) now
        else updateShiftRegisters s) /\
     cells (displayMirroredText s now text startCell) = cells s /\
     dotStates (displayMirroredText s now text startCell) = dotStates s /\
     (displayEnabled s = true ->
      shiftedOut (displayMirroredText s now text startCell) =
        rev (shiftRegisterData (updateShiftRegisters s)) :: shiftedOut s /\
      displayMirroredText s now text startCell <> s)) /\
  (forall startCell,
     displayMirroredText s now None startCell =
     mirrorStoredPatterns s now startCell).
Proof.
  assert (Htext : forall text startCell, NUM_BRAILLE_CELLS <= startCell ->
            displayText s now text startCell = s).
  { intros text startCell Hs. unfold displayText, displayText_run.
    destruct text; [|reflexivity].
    destruct (Z.leb_spec NUM_BRAILLE_CELLS startCell); [reflexivity|lia]. }
  assert (Hmirror : forall text startCell, NUM_BRAILLE_CELLS <= startCell ->
            displayMirroredText s now text startCell =
              (if displayEnabled s then refresh (updateShiftRegisters s) now
               else updateShiftRegisters s)).
  { intros text startCell Hs. rewrite displayMirroredText_eq, (Htext _ _ Hs).
    unfold mirrorStoredPatterns.
    replace (Z.to_nat NUM_BRAILLE_CELLS - Z.to_nat startCell)%nat with 0%nat
      by (unfold NUM_BRAILLE_CELLS in *; lia).
    cbn [seq fold_left].
    destruct (updateShiftRegisters_frame s) as (_ & _ & -> & _). reflexivity. }
  repeat apply conj.
  - intros i p Hi.
    assert (Hv : isValidBrailleCell i = false)
      by (unfold isValidBrailleCell; apply Z.ltb_ge; lia).
    unfold displayMirroredPattern, setCellPattern, setCellPattern_timed,
      getCellPattern, getCurrentCellState.
    rewrite Hv. auto.
  - intros c i Hi. unfold displayChar, isValidBrailleCell.
    destruct (Z.ltb_spec i NUM_BRAILLE_CELLS); [lia|reflexivity].
  - intros c d Hcd.
    unfold raiseDot, lowerDot, raiseDotImmediate, lowerDotImmediate.
    assert (Hg : (NUM_BRAILLE_CELLS <=? c) || (DOTS_PER_CELL <=? d) = true).
    { apply orb_true_iff. destruct Hcd; [left|right]; by apply Z.leb_le. }
    rewrite Hg. auto.
  - intros d st imm Hd. by apply setDotState_out_of_range.
  - exact Htext.
  - reflexivity.
  - intros text startCell Hs. rewrite (Hmirror text startCell Hs).
    destruct (updateShiftRegisters_frame s) as (Hc & Hd & He & _).
    destruct (updateShiftRegisters_sink s) as (_ & Ho).
    destruct (refresh_frame (updateShiftRegisters s) now) as (Hc' & Hd' & _).
    split; [reflexivity|].
    split; [destruct (displayEnabled s); congruence|].
    split; [destruct (displayEnabled s); congruence|].
    intros Hon. rewrite Hon.
    destruct (refresh_sink (updateShiftRegisters s) now) as (Hsink & _).
    rewrite He in Hsink. destruct (Hsink Hon) as (Hout & _).
    rewrite Ho in Hout. split; [exact Hout|].
    intros Heq. rewrite Heq in Hout.
    apply (f_equal (@length _)) in Hout. cbn [length] in Hout. lia.
  - intros startCell. apply displayMirroredText_eq.
Qed.

Lemma out_of_range_is_noop_witness :
  NUM_BRAILLE_CELLS <= 10 /\ displayEnabled example_enabled = true /\
  setCellPattern example_enabled 5 10 0x3F = example_enabled /\
  displayMirroredText example_enabled 5 (Some "a"%string) 10 <> example_enabled.
Proof.
  assert (H : NUM_BRAILLE_CELLS <= 10) by (unfold NUM_BRAILLE_CELLS; lia).
  assert (Hon : displayEnabled example_enabled = true) by reflexivity.
  pose proof (out_of_range_is_noop example_enabled 5)
    as (Hset & _ & _ & _ & _ & _ & Hmirror & _).
  split; [exact H|]. split; [exact Hon|].
  split; [exact (proj1 (Hset 10 0x3F H))|].
  destruct (Hmirror (Some "a"%string) 10 H) as (_ & _ & _ & Hne).
  exact (proj2 (Hne Hon)).
Defined.
